(** * MCP client and chat session: a shallow embedding

    Source files embedded here:
    - [app/mcp-client.js]   (class [MCPClient])
    - [app/routes/chat.jsx] (function [handleChatSession])

    JavaScript values that cross the wire are modelled by [JsVal]; thrown
    [Error] objects by [JsError]; an [async] method by a state-and-exception
    computation [M] over a [World] holding the client instance and the
    chronological trace of external effects.  The collaborators that live
    outside these two files (network, database, authorization-URL generator,
    LLM provider, tool service) are the fields of [Env]. *)

From Stdlib Require Import List String Ascii ZArith Lia Bool DecimalString.
Import ListNotations.
Local Open Scope list_scope.
Local Open Scope string_scope.

Set Implicit Arguments.
Set Warnings "-register-all".

(** ** JavaScript values *)

Inductive JsVal : Type :=
| JUndefined
| JNull
| JBool (b : bool)
| JNum (n : Z)
| JStr (s : string)
| JArr (elems : list JsVal)
| JObj (fields : list (string * JsVal)).

(** ToBoolean. *)
Definition truthy (v : JsVal) : bool :=
  match v with
  | JUndefined | JNull => false
  | JBool b => b
  | JNum n => negb (n =? 0)%Z
  | JStr s => negb (s =? "")
  | JArr _ | JObj _ => true
  end.

(** A string is truthy when it is not empty. *)
Definition nonempty (s : string) : bool := negb (s =? "").

Fixpoint lookup_field (k : string) (fs : list (string * JsVal)) : JsVal :=
  match fs with
  | [] => JUndefined
  | (k', v) :: rest => if k' =? k then v else lookup_field k rest
  end.

(** [v.k] on a value that is neither [null] nor [undefined].  None of the
    property names read by the source ([result], [tools], [name],
    [description], [inputSchema], [input_schema], [error]) is defined on the
    prototypes of booleans, numbers, strings or arrays. *)
Definition prop (v : JsVal) (k : string) : JsVal :=
  match v with
  | JObj fs => lookup_field k fs
  | _ => JUndefined
  end.

Definition nullish (v : JsVal) : bool :=
  match v with
  | JUndefined | JNull => true
  | _ => false
  end.

(** [a || b]. *)
Definition js_or (a b : JsVal) : JsVal := if truthy a then a else b.

(** [v === s] for a string [s]. *)
Definition strict_eq_str (v : JsVal) (s : string) : bool :=
  match v with
  | JStr t => t =? s
  | _ => false
  end.

(** [`${n}`] for an integer. *)
Definition string_of_Z (n : Z) : string := NilZero.string_of_int (Z.to_int n).

(** ** Strings and UTF-16 code units

    A string of the model is a byte string: the UTF-8 encoding of the
    JavaScript string, in which a surrogate that stands alone is written as
    the three bytes of its own code (generalised UTF-8).  JavaScript indexes
    a string by UTF-16 code units: a sequence of one, two or three bytes is
    one unit, a sequence of four bytes is two, a surrogate pair. *)

(** The number of bytes of the sequence that byte [c] starts. *)
Definition utf8_width (c : ascii) : nat :=
  let n := nat_of_ascii c in
  if (n <? 192)%nat then 1
  else if (n <? 224)%nat then 2
  else if (n <? 240)%nat then 3
  else 4.

(** The first half of the surrogate pair of the four-byte sequence that
    starts with [b0 b1 b2], as the three bytes of its own code. *)
Definition high_surrogate (b0 b1 b2 : ascii) : string :=
  let u := ((nat_of_ascii b0 mod 8) * 256 + (nat_of_ascii b1 mod 64) * 4
            + (nat_of_ascii b2 mod 64) / 16 - 64)%nat in
  String (ascii_of_nat 237)
    (String (ascii_of_nat (160 + u / 64))
       (String (ascii_of_nat (128 + u mod 64)) EmptyString)).

(** The first [n] code units of [s]; [pending] bytes of a sequence already
    taken are still to be copied.  A cut inside a surrogate pair keeps its
    first half. *)
Fixpoint take_units (n pending : nat) (s : string) : string :=
  match s with
  | EmptyString => EmptyString
  | String c rest =>
      match pending with
      | S p => String c (take_units n p rest)
      | O =>
          match n with
          | O => EmptyString
          | S n' =>
              if (utf8_width c =? 4)%nat then
                match n' with
                | O =>
                    match rest with
                    | String b1 (String b2 _) => high_surrogate c b1 b2
                    | _ => EmptyString
                    end
                | S n'' => String c (take_units n'' 3 rest)
                end
              else String c (take_units n' (utf8_width c - 1) rest)
          end
      end
  end.

(** [text.slice(0, n)]. *)
Definition slice0 (n : nat) (text : string) : string := take_units n 0 text.

(** [text.length]. *)
Fixpoint code_units (s : string) : nat :=
  match s with
  | EmptyString => 0
  | String c rest =>
      let n := nat_of_ascii c in
      (if ((n <? 128) || (192 <=? n))%nat
       then (if (utf8_width c =? 4)%nat then 2 else 1)
       else 0) + code_units rest
  end.

(** [s] is made of whole sequences, after [pending] bytes that continue a
    sequence begun before it. *)
Fixpoint well_formed_from (pending : nat) (s : string) : bool :=
  match s with
  | EmptyString => (pending =? 0)%nat
  | String c rest =>
      let n := nat_of_ascii c in
      match pending with
      | S p => (128 <=? n)%nat && (n <? 192)%nat && well_formed_from p rest
      | O => ((n <? 128) || (192 <=? n))%nat && well_formed_from (utf8_width c - 1) rest
      end
  end.

Definition well_formed (s : string) : bool := well_formed_from 0 s.

(** Every byte of [s] is an ASCII character. *)
Fixpoint all_ascii (s : string) : bool :=
  match s with
  | EmptyString => true
  | String c rest => (nat_of_ascii c <? 128)%nat && all_ascii rest
  end.

(** ** Thrown errors and completions *)

(** A thrown [Error] object: its class, its [message] and its [status]
    property ([None] when the property is absent). *)
Record JsError : Type := mkError {
  err_name : string;
  message : string;
  status : option Z
}.

Definition Error (msg : string) : JsError := mkError "Error" msg None.
Definition TypeError (msg : string) : JsError := mkError "TypeError" msg None.
Definition SyntaxError (msg : string) : JsError := mkError "SyntaxError" msg None.

(** [error.status === 401]. *)
Definition status_is (e : JsError) (n : Z) : bool :=
  match status e with
  | Some s => (s =? n)%Z
  | None => false
  end.

Inductive Completion (A : Type) : Type :=
| Returned (a : A)
| Threw (e : JsError).
Arguments Returned {A} a.
Arguments Threw {A} e.

(** [String(v)] for [null] and [undefined]. *)
Definition nullish_name (v : JsVal) : string :=
  match v with
  | JNull => "null"
  | _ => "undefined"
  end.

(** The [TypeError] of reading property [k] of [null] or [undefined], in
    the words of V8, the engine of Node. *)
Definition cannot_read (v : JsVal) (k : string) : JsError :=
  TypeError ("Cannot read properties of " ++ nullish_name v
             ++ " (reading '" ++ k ++ "')").

(** [v.k] where [v] may be [null] or [undefined]. *)
Definition member (v : JsVal) (k : string) : Completion JsVal :=
  if nullish v then Threw (cannot_read v k) else Returned (prop v k).

(** ** Data of the MCP client *)

(** A tool descriptor as produced by [_formatToolsData]. *)
Record Tool : Type := mkTool {
  name : JsVal;
  description : JsVal;
  input_schema : JsVal
}.

Record MCPClient : Type := mkClient {
  conversationId : string;
  shopId : string;
  storefrontMcpEndpoint : string;
  customerMcpEndpoint : string;
  customerAccessToken : string;
  tools : list Tool;
  customerTools : list Tool;
  storefrontTools : list Tool
}.

(** A [fetch] call.  [body] is the object handed to [JSON.stringify]. *)
Record Request : Type := mkRequest {
  endpoint : string;
  http_method : string;
  headers : list (string * string);
  body : JsVal
}.

(** A [fetch] response; [text] is the completion of [res.text()]. *)
Record Response : Type := mkResponse {
  res_status : Z;
  statusText : string;
  text : Completion string;
  location : option string
}.

(** [res.ok]. *)
Definition ok (res : Response) : bool :=
  ((200 <=? res_status res) && (res_status res <=? 299))%Z.

(** A row of the customer-token table. *)
Record DbToken : Type := mkDbToken { accessToken : string }.

Record AuthResponse : Type := mkAuthResponse { url : string }.

(** A persisted message and an in-memory history entry. *)
Record DbMessage : Type := mkDbMessage { db_role : string; db_content : string }.
Record Turn : Type := mkTurn { role : string; content : JsVal }.

(** The value [streamConversation] resolves to, and a content block of kind
    [tool_use]. *)
Record FinalMessage : Type := mkFinal {
  fm_role : string;
  fm_content : JsVal;
  stop_reason : option string
}.

Record ToolUse : Type := mkToolUse {
  tu_name : string;
  tu_input : JsVal;
  tu_id : string
}.

Record LlmRequest : Type := mkLlmRequest {
  messages : list Turn;
  promptType : string;
  llm_tools : list Tool
}.

(** What the provider does during one [streamConversation] call: the
    callbacks it invokes, in order, and the value it finally resolves to.
    A content block is an object, given by its fields. *)
Inductive Callback : Type :=
| OnText (textDelta : string)
| OnMessage (msg : Turn)
| OnToolUse (c : ToolUse)
| OnContentBlock (contentBlock : list (string * JsVal)).

Record LlmScript : Type := mkScript {
  callbacks : list Callback;
  final : Completion FinalMessage
}.

Inductive ConsoleLevel : Type := LogLevel | WarnLevel | ErrorLevel.

(** ** External effects *)

Inductive Effect : Type :=
| Fetch (req : Request)
| GetCustomerToken (conv : string)
| GenerateAuthUrl (conv shop : string)
| Console (level : ConsoleLevel) (line : string)
| SaveMessage (conv : string) (r : string) (contentJson : string)
| GetConversationHistory (conv : string)
| StreamConversation (req : LlmRequest) (script : LlmScript)
| SendMessage (ev : JsVal)
| HandleToolError (toolUseResponse : JsVal) (toolName toolUseId : string)
| HandleToolSuccess (toolUseResponse : JsVal) (toolName toolUseId : string).

(** The collaborators, which the two source files import or receive:
    [fetch], [Date.now], [JSON.parse] and [JSON.stringify] of the runtime,
    [getCustomerToken], [saveMessage] and [getConversationHistory] of
    [db.server], [generateAuthUrl] of [auth.server], [streamConversation] of
    the Claude service, [handleToolError] and [handleToolSuccess] of the tool
    service.  Each effectful one answers from the trace of effects performed
    so far, so that answers may change over time, and may throw.
    [handleToolError] is handed the history array and [stream.sendMessage]:
    it answers with the history after its updates and the events it sent.
    [handleToolSuccess] is handed the history and the product array: it
    answers with both after its updates. *)
Record Env : Type := mkEnv {
  fetch : list Effect -> Request -> Completion Response;
  getCustomerToken : list Effect -> string -> Completion (option DbToken);
  generateAuthUrl : list Effect -> string -> string -> Completion AuthResponse;
  Date_now : list Effect -> Z;
  JSON_parse : string -> JsVal + string;
  JSON_stringify : JsVal -> string;
  streamConversation : list Effect -> LlmRequest -> LlmScript;
  saveMessage : list Effect -> string -> string -> string -> Completion unit;
  getConversationHistory : list Effect -> string -> Completion (list DbMessage);
  handleToolError :
    list Effect -> JsVal -> string -> string -> list Turn -> string ->
    Completion (list Turn * list JsVal);
  handleToolSuccess :
    list Effect -> JsVal -> string -> string -> list Turn -> list JsVal -> string ->
    Completion (list Turn * list JsVal)
}.

(** ** The computation monad *)

Record World : Type := mkWorld {
  client : MCPClient;
  trace : list Effect
}.

Definition M (A : Type) : Type := World -> Completion A * World.

Definition ret {A} (a : A) : M A := fun w => (Returned a, w).

Definition throw {A} (e : JsError) : M A := fun w => (Threw e, w).

Definition bind {A B} (m : M A) (k : A -> M B) : M B :=
  fun w =>
    match m w with
    | (Returned a, w') => k a w'
    | (Threw e, w') => (Threw e, w')
    end.

Notation "x <- m ;; k" := (bind m (fun x => k))
  (at level 61, m at next level, right associativity).
Notation "m ;;; k" := (bind m (fun _ => k))
  (at level 61, right associativity).

(** [try { body } catch (e) { handler e }]. *)
Definition try_catch {A} (body : M A) (handler : JsError -> M A) : M A :=
  fun w =>
    match body w with
    | (Returned a, w') => (Returned a, w')
    | (Threw e, w') => handler e w'
    end.

Definition lift {A} (c : Completion A) : M A := fun w => (c, w).

Definition this : M MCPClient := fun w => (Returned (client w), w).

Definition update (f : MCPClient -> MCPClient) : M unit :=
  fun w => (Returned tt, mkWorld (f (client w)) (trace w)).

(** Perform an external effect: the collaborator answers from the trace so
    far, and the effect is appended to the trace. *)
Definition perform {A} (e : Effect) (answer : list Effect -> Completion A) : M A :=
  fun w => (answer (trace w), mkWorld (client w) (trace w ++ [e])%list).

Definition console (level : ConsoleLevel) (line : string) : M unit :=
  perform (Console level line) (fun _ => Returned tt).

Definition set_customerAccessToken (t : string) (c : MCPClient) : MCPClient :=
  mkClient (conversationId c) (shopId c) (storefrontMcpEndpoint c)
           (customerMcpEndpoint c) t (tools c) (customerTools c)
           (storefrontTools c).

Definition set_customerTools (ts : list Tool) (c : MCPClient) : MCPClient :=
  mkClient (conversationId c) (shopId c) (storefrontMcpEndpoint c)
           (customerMcpEndpoint c) (customerAccessToken c) (tools c) ts
           (storefrontTools c).

Definition set_storefrontTools (ts : list Tool) (c : MCPClient) : MCPClient :=
  mkClient (conversationId c) (shopId c) (storefrontMcpEndpoint c)
           (customerMcpEndpoint c) (customerAccessToken c) (tools c)
           (customerTools c) ts.

Definition set_tools (ts : list Tool) (c : MCPClient) : MCPClient :=
  mkClient (conversationId c) (shopId c) (storefrontMcpEndpoint c)
           (customerMcpEndpoint c) (customerAccessToken c) ts
           (customerTools c) (storefrontTools c).

(** ** [app/mcp-client.js] *)

Section Client.

Variable env : Env.

(** The [constructor] body, lines 47-50.  The endpoint URLs computed on
    lines 18-45 are taken as given. *)
Definition new_MCPClient (conversationId shopId storefrontMcpEndpoint
                          customerMcpEndpoint : string) : MCPClient :=
  mkClient conversationId shopId storefrontMcpEndpoint customerMcpEndpoint
           "" [] [] [].

Definition json_headers : list (string * string) :=
  [("Content-Type", "application/json")].

(** [{ "Content-Type": ..., ...(token ? { Authorization: `Bearer ${token}` } : {}) }] *)
Definition auth_headers (token : string) : list (string * string) :=
  (json_headers ++
   (if nonempty token then [("Authorization", ("Bearer " ++ token)%string)] else []))%list.

Definition rpc_body (method : string) (id : Z) (params : JsVal) : JsVal :=
  JObj [("jsonrpc", JStr "2.0"); ("method", JStr method); ("id", JNum id);
        ("params", params)].

Definition request_failed (res : Response) (text : string) : JsError :=
  mkError "Error"
    ("Request failed: " ++ string_of_Z (res_status res) ++ " " ++
     statusText res ++ " â€” " ++ slice0 200 text)
    (Some (res_status res)).

Definition _makeJsonRpcRequest (endpoint method : string) (params : JsVal)
           (headers : list (string * string)) : M JsVal :=
  fun w =>
    let id := Date_now env (trace w) in
    (res <- perform (Fetch (mkRequest endpoint "POST" headers (rpc_body method id params)))
                    (fun t => fetch env t (mkRequest endpoint "POST" headers
                                                     (rpc_body method id params))) ;;
     text <- lift (text res) ;;
     if negb (ok res) then
       throw (request_failed res text)
     else
       match JSON_parse env text with
       | inl v => ret v
       | inr msg =>
           console ErrorLevel "MCP response not JSON" ;;;
           throw (SyntaxError msg)
       end) w.

Definition format_tool (tool : JsVal) : Completion Tool :=
  if nullish tool
  then Threw (cannot_read tool "name")
  else Returned (mkTool (prop tool "name") (prop tool "description")
                        (js_or (prop tool "inputSchema") (prop tool "input_schema"))).

Fixpoint map_tools (l : list JsVal) : Completion (list Tool) :=
  match l with
  | [] => Returned []
  | tool :: rest =>
      match format_tool tool with
      | Threw e => Threw e
      | Returned t =>
          match map_tools rest with
          | Threw e => Threw e
          | Returned ts => Returned (t :: ts)
          end
      end
  end.

Definition _formatToolsData (toolsData : JsVal) : Completion (list Tool) :=
  match toolsData with
  | JArr l => map_tools l
  | _ =>
      if nullish toolsData then Threw (cannot_read toolsData "map")
      else Threw (TypeError "toolsData.map is not a function")
  end.

(** [response?.result && response.result.tools ? response.result.tools : []] *)
Definition tools_of_response (response : JsVal) : JsVal :=
  if nullish response then JArr []
  else if truthy (prop response "result") && truthy (prop (prop response "result") "tools")
       then prop (prop response "result") "tools"
       else JArr [].

(** The persisted-token lookup shared by [connectToCustomerServer] and
    [callCustomerTool]: [getCustomerToken], then cache the token when
    [dbToken?.accessToken] is truthy.  Returns the token found, or [""]. *)
Definition lookup_token (c : MCPClient) : M string :=
  dbToken <- perform (GetCustomerToken (conversationId c))
                     (fun t => getCustomerToken env t (conversationId c)) ;;
  match dbToken with
  | Some d =>
      if nonempty (accessToken d) then
        update (set_customerAccessToken (accessToken d)) ;;;
        ret (accessToken d)
      else
        console LogLevel "No token in database for conversation:" ;;;
        ret ""
  | None =>
      console LogLevel "No token in database for conversation:" ;;;
      ret ""
  end.

Definition connectToCustomerServer : M (list Tool) :=
  try_catch
    (c <- this ;;
     console LogLevel ("Connecting to MCP server at " ++ customerMcpEndpoint c) ;;;
     (if nonempty (conversationId c) then lookup_token c ;;; ret tt else ret tt) ;;;
     c <- this ;;
     response <- _makeJsonRpcRequest (customerMcpEndpoint c) "tools/list" (JObj [])
                                     (auth_headers (customerAccessToken c)) ;;
     customerTools <- lift (_formatToolsData (tools_of_response response)) ;;
     update (set_customerTools customerTools) ;;;
     update (fun c => set_tools (tools c ++ customerTools)%list c) ;;;
     ret customerTools)
    (fun e =>
       console ErrorLevel "Failed to connect to MCP server: " ;;;
       throw e).

Definition connectToStorefrontServer : M (list Tool) :=
  try_catch
    (c <- this ;;
     console LogLevel ("Connecting to MCP server at " ++ storefrontMcpEndpoint c) ;;;
     response <- _makeJsonRpcRequest (storefrontMcpEndpoint c) "tools/list" (JObj [])
                                     json_headers ;;
     storefrontTools <- lift (_formatToolsData (tools_of_response response)) ;;
     update (set_storefrontTools storefrontTools) ;;;
     update (fun c => set_tools (tools c ++ storefrontTools)%list c) ;;;
     ret storefrontTools)
    (fun e =>
       console ErrorLevel "Failed to connect to MCP server: " ;;;
       throw e).

Definition call_params (toolName : string) (toolArgs : JsVal) : JsVal :=
  JObj [("name", JStr toolName); ("arguments", toolArgs)].

(** [response.result || response] *)
Definition result_or_self (response : JsVal) : M JsVal :=
  r <- lift (member response "result") ;;
  ret (js_or r response).

Definition callStorefrontTool (toolName : string) (toolArgs : JsVal) : M JsVal :=
  try_catch
    (console LogLevel "Calling storefront tool" ;;;
     c <- this ;;
     response <- _makeJsonRpcRequest (storefrontMcpEndpoint c) "tools/call"
                                     (call_params toolName toolArgs) json_headers ;;
     result_or_self response)
    (fun error =>
       console ErrorLevel ("Error calling tool " ++ toolName ++ ":") ;;;
       throw error).

Definition error_result (type data : string) : JsVal :=
  JObj [("error", JObj [("type", JStr type); ("data", JStr data)])].

Definition auth_required_message (authUrl : string) : string :=
  "You need to authorize the app to access your customer data. [Click here to authorize]("
  ++ authUrl ++ ")".

(** Lines 180-193: the token used for this call. *)
Definition resolve_token (c : MCPClient) : M string :=
  if negb (nonempty (customerAccessToken c))
  then lookup_token c
  else ret (customerAccessToken c).

(** Lines 200-228: the inner [try]/[catch]. *)
Definition call_or_authorize (c : MCPClient) (toolName : string) (toolArgs : JsVal)
           (accessToken : string) : M JsVal :=
  try_catch
    (response <- _makeJsonRpcRequest (customerMcpEndpoint c) "tools/call"
                                     (call_params toolName toolArgs)
                                     (auth_headers accessToken) ;;
     result_or_self response)
    (fun error =>
       if status_is error 401 then
         console LogLevel "Unauthorized, generating authorization URL for customer" ;;;
         authResponse <- perform (GenerateAuthUrl (conversationId c) (shopId c))
                                 (fun t => generateAuthUrl env t (conversationId c)
                                                           (shopId c)) ;;
         ret (error_result "auth_required" (auth_required_message (url authResponse)))
       else throw error).

Definition internal_error (toolName : string) (error : JsError) : JsVal :=
  error_result "internal_error"
    ("Error calling tool " ++ toolName ++ ": " ++ message error).

Definition callCustomerTool (toolName : string) (toolArgs : JsVal) : M JsVal :=
  try_catch
    (console LogLevel "Calling customer tool" ;;;
     c <- this ;;
     accessToken <- resolve_token c ;;
     call_or_authorize c toolName toolArgs accessToken)
    (fun error =>
       console ErrorLevel ("Error calling tool " ++ toolName ++ ":") ;;;
       ret (internal_error toolName error)).

(** [tools.some((tool) => tool.name === toolName)] *)
Definition advertises (catalog : list Tool) (toolName : string) : bool :=
  existsb (fun tool => strict_eq_str (name tool) toolName) catalog.

Definition callTool (toolName : string) (toolArgs : JsVal) : M JsVal :=
  c <- this ;;
  if advertises (customerTools c) toolName then
    callCustomerTool toolName toolArgs
  else if advertises (storefrontTools c) toolName then
    callStorefrontTool toolName toolArgs
  else
    throw (Error ("Tool " ++ toolName ++ " not found")).

End Client.

(** ** [app/routes/chat.jsx] *)

(** The variables of [handleChatSession] that its callbacks update. *)
Record Locals : Type := mkLocals {
  conversationHistory : list Turn;
  productsToDisplay : list JsVal
}.

Definition event (type : string) (payload : list (string * JsVal)) : JsVal :=
  JObj (("type", JStr type) :: payload).

Section Chat.

Variable env : Env.

(** The arguments of one session: the destructured parameters, and what
    lines 158-165 computed before the [try] block is entered.  [sessionId]
    is the [conversationId] parameter and [promptVariant] the [promptType]
    parameter, renamed apart from the record fields of the same names. *)
Variable userMessage : string.
Variable sessionId : string.
Variable promptVariant : string.
(** [process.env.ENABLE_CUSTOMER_MCP === "true"] *)
Variable ENABLE_CUSTOMER_MCP : bool.
(** The value of [getCustomerMcpEndpoint]; [None] is [null]. *)
Variable discoveredEndpoint : option string.

(** [stream.sendMessage(ev)] *)
Definition sendMessage (ev : JsVal) : M unit :=
  perform (SendMessage ev) (fun _ => Returned tt).

Fixpoint sendMessages (evs : list JsVal) : M unit :=
  match evs with
  | [] => ret tt
  | ev :: rest => sendMessage ev ;;; sendMessages rest
  end.

(** [ENABLE_CUSTOMER_MCP === "true" && customerMcpEndpoint] *)
Definition customer_mcp_enabled : bool :=
  ENABLE_CUSTOMER_MCP &&
  match discoveredEndpoint with
  | Some e => nonempty e
  | None => false
  end.

(** Lines 172-189: catalog discovery. *)
Definition connect_servers : M unit :=
  try_catch
    (storefrontMcpTools <- connectToStorefrontServer env ;;
     customerMcpTools <- (if customer_mcp_enabled
                          then connectToCustomerServer env
                          else ret []) ;;
     console LogLevel ("Connected to MCP with "
                       ++ string_of_Z (Z.of_nat (List.length storefrontMcpTools))
                       ++ " tools") ;;;
     if negb (List.length customerMcpTools =? 0)%nat then
       console LogLevel ("Connected to customer MCP with "
                         ++ string_of_Z (Z.of_nat (List.length customerMcpTools))
                         ++ " tools")
     else ret tt)
    (fun error =>
       console WarnLevel
         ("Failed to connect to MCP servers, continuing without tools: "
          ++ message error)).

(** Lines 202-213: re-hydration of one persisted message. *)
Definition hydrate (dbMessage : DbMessage) : Turn :=
  mkTurn (db_role dbMessage)
         (match JSON_parse env (db_content dbMessage) with
          | inl v => v
          | inr _ => JStr (db_content dbMessage)
          end).

(** [onText] *)
Definition onText (textDelta : string) : M unit :=
  sendMessage (event "chunk" [("chunk", JStr textDelta)]).

(** [onMessage].  The save is started and not awaited: the session never
    observes how it settles.  A rejection is logged by the handler of lines
    242-244 at some later time, after the callback has returned; the trace,
    which orders what the session itself does, holds the call alone. *)
Definition onMessage (msg : Turn) (l : Locals) : M Locals :=
  perform (SaveMessage sessionId (role msg) (JSON_stringify env (content msg)))
          (fun _ => Returned tt) ;;;
  sendMessage (event "message_complete" []) ;;;
  ret (mkLocals (conversationHistory l ++ [mkTurn (role msg) (content msg)])%list
                (productsToDisplay l)).

(** [onToolUse] *)
Definition onToolUse (c : ToolUse) (l : Locals) : M Locals :=
  sendMessage
    (event "tool_use"
       [("tool_use_message",
         JStr ("Calling tool: " ++ tu_name c ++ " with arguments: "
               ++ JSON_stringify env (tu_input c)))]) ;;;
  toolUseResponse <- callTool env (tu_name c) (tu_input c) ;;
  isError <- lift (member toolUseResponse "error") ;;
  l' <- (if truthy isError then
           r <- perform (HandleToolError toolUseResponse (tu_name c) (tu_id c))
                        (fun t => handleToolError env t toolUseResponse (tu_name c)
                                    (tu_id c) (conversationHistory l) sessionId) ;;
           sendMessages (snd r) ;;;
           ret (mkLocals (fst r) (productsToDisplay l))
         else
           r <- perform (HandleToolSuccess toolUseResponse (tu_name c) (tu_id c))
                        (fun t => handleToolSuccess env t toolUseResponse (tu_name c)
                                    (tu_id c) (conversationHistory l)
                                    (productsToDisplay l) sessionId) ;;
           ret (mkLocals (fst r) (snd r))) ;;
  sendMessage (event "new_message" []) ;;;
  ret l'.

(** [onContentBlock] *)
Definition onContentBlock (contentBlock : list (string * JsVal)) : M unit :=
  if strict_eq_str (lookup_field "type" contentBlock) "text" then
    sendMessage (event "content_block_complete"
                       [("content_block", JObj contentBlock)])
  else ret tt.

Definition run_callback (cb : Callback) (l : Locals) : M Locals :=
  match cb with
  | OnText textDelta => onText textDelta ;;; ret l
  | OnMessage msg => onMessage msg l
  | OnToolUse c => onToolUse c l
  | OnContentBlock contentBlock => onContentBlock contentBlock ;;; ret l
  end.

Fixpoint run_callbacks (cbs : list Callback) (l : Locals) : M Locals :=
  match cbs with
  | [] => ret l
  | cb :: rest => l' <- run_callback cb l ;; run_callbacks rest l'
  end.

(** Lines 219-304: one [await claudeService.streamConversation(...)].  The
    provider invokes the callbacks of its script in order; a callback that
    throws ends the call with that error. *)
Definition iteration (l : Locals) : M (FinalMessage * Locals) :=
  fun w =>
    let req := mkLlmRequest (conversationHistory l) promptVariant (tools (client w)) in
    let script := streamConversation env (trace w) req in
    (perform (StreamConversation req script) (fun _ => Returned tt) ;;;
     l' <- run_callbacks (callbacks script) l ;;
     finalMessage <- lift (final script) ;;
     ret (finalMessage, l')) w.

(** [finalMessage.stop_reason !== "end_turn"] *)
Definition continues (stop : option string) : bool :=
  match stop with
  | Some s => negb (s =? "end_turn")
  | None => true
  end.

(** Lines 218-305: the [while] loop, at most [fuel] iterations.  [None]
    means that the loop is still running after [fuel] iterations. *)
Fixpoint conversation_loop (fuel : nat) (stop : option string) (l : Locals)
         (w : World) : option (Completion Locals * World) :=
  if continues stop then
    match fuel with
    | O => None
    | S fuel' =>
        match iteration l w with
        | (Returned (finalMessage, l'), w') =>
            conversation_loop fuel' (stop_reason finalMessage) l' w'
        | (Threw e, w') => Some (Threw e, w')
        end
    end
  else Some (Returned l, w).

(** Lines 307-316. *)
Definition finish (l : Locals) : M unit :=
  sendMessage (event "end_turn" []) ;;;
  if negb (List.length (productsToDisplay l) =? 0)%nat then
    sendMessage (event "product_results" [("products", JArr (productsToDisplay l))])
  else ret tt.

(** Lines 216-316: the first [finalMessage] is the user message, which has
    no [stop_reason]. *)
Definition converse (fuel : nat) (l : Locals) (w : World)
  : option (Completion unit * World) :=
  match conversation_loop fuel None l w with
  | None => None
  | Some (Returned l', w') => Some (finish l' w')
  | Some (Threw e, w') => Some (Threw e, w')
  end.

(** Lines 167-213. *)
Definition prepare : M Locals :=
  sendMessage (event "id" [("conversation_id", JStr sessionId)]) ;;;
  connect_servers ;;;
  perform (SaveMessage sessionId "user" userMessage)
          (fun t => saveMessage env t sessionId "user" userMessage) ;;;
  dbMessages <- perform (GetConversationHistory sessionId)
                        (fun t => getConversationHistory env t sessionId) ;;
  ret (mkLocals (map hydrate dbMessages) []).

(** Lines 167-321, on the client built on line 165. *)
Definition handleChatSession (fuel : nat) (w : World)
  : option (Completion unit * World) :=
  match prepare w with
  | (Returned l, w') => converse fuel l w'
  | (Threw e, w') => Some (Threw e, w')
  end.

End Chat.

(** * Vocabulary of the properties *)

(** ** Traces *)

Definition is_token_lookup (e : Effect) : bool :=
  match e with GetCustomerToken _ => true | _ => false end.

Definition is_llm_call (e : Effect) : bool :=
  match e with StreamConversation _ _ => true | _ => false end.

(** The event types sent on the stream, in order. *)
Fixpoint sent_types (t : list Effect) : list JsVal :=
  match t with
  | [] => []
  | SendMessage ev :: rest => prop ev "type" :: sent_types rest
  | _ :: rest => sent_types rest
  end.

Definition count_sent (type : string) (t : list Effect) : nat :=
  List.length (filter (fun v => strict_eq_str v type) (sent_types t)).

Definition count_effects (p : Effect -> bool) (t : list Effect) : nat :=
  List.length (filter p t).

(** The requests sent over the network, in order. *)
Fixpoint fetched (t : list Effect) : list Request :=
  match t with
  | [] => []
  | Fetch req :: rest => req :: fetched rest
  | _ :: rest => fetched rest
  end.

(** The effects that the MCP client itself can perform. *)
Definition client_effect (e : Effect) : bool :=
  match e with
  | Fetch _ | GetCustomerToken _ | GenerateAuthUrl _ _ | Console _ _ => true
  | _ => false
  end.

(** A [tools/call] request for [toolName] sent to [target]. *)
Definition calls_tool (target toolName : string) (toolArgs : JsVal)
           (req : Request) : Prop :=
  endpoint req = target /\
  http_method req = "POST" /\
  prop (body req) "method" = JStr "tools/call" /\
  prop (body req) "params" = call_params toolName toolArgs.

(** ** The JSON-RPC call *)

(** What [_makeJsonRpcRequest] completes with, as a function of what
    [fetch] answered. *)
Definition rpc_result (env : Env) (answer : Completion Response) : Completion JsVal :=
  match answer with
  | Threw e => Threw e
  | Returned res =>
      match text res with
      | Threw e => Threw e
      | Returned body =>
          if ok res then
            match JSON_parse env body with
            | inl v => Returned v
            | inr msg => Threw (SyntaxError msg)
            end
          else Threw (request_failed res body)
      end
  end.

(** What it writes to the console. *)
Definition rpc_log (env : Env) (answer : Completion Response) : list Effect :=
  match answer with
  | Returned res =>
      match text res with
      | Returned body =>
          if ok res then
            match JSON_parse env body with
            | inl _ => []
            | inr _ => [Console ErrorLevel "MCP response not JSON"]
            end
          else []
      | Threw _ => []
      end
  | Threw _ => []
  end.

Definition rpc_request (env : Env) (t : list Effect) (endpoint method : string)
           (params : JsVal) (headers : list (string * string)) : Request :=
  mkRequest endpoint "POST" headers (rpc_body method (Date_now env t) params).


(** [dbToken?.accessToken], with [""] for a missing row. *)
Definition found_token (dbToken : option DbToken) : string :=
  match dbToken with
  | Some d => accessToken d
  | None => ""
  end.

(** ** Console lines and error normalization of [callCustomerTool] *)

Definition unauthorized_log : Effect :=
  Console LogLevel "Unauthorized, generating authorization URL for customer".

Definition calling_customer_log : Effect :=
  Console LogLevel "Calling customer tool".

Definition calling_error_log (toolName : string) : Effect :=
  Console ErrorLevel ("Error calling tool " ++ toolName ++ ":").

(** What [callCustomerTool] makes of the completion of its outer [try]
    block. *)
Definition normalize (toolName : string) (r : Completion JsVal * World)
  : Completion JsVal * World :=
  match r with
  | (Returned v, w') => (Returned v, w')
  | (Threw e, w') =>
      (Returned (internal_error toolName e),
       mkWorld (client w') (trace w' ++ [calling_error_log toolName])%list)
  end.

Definition calling_storefront_log : Effect :=
  Console LogLevel "Calling storefront tool".

(** ** Catalog discovery *)

Inductive Backend : Type := CustomerBackend | StorefrontBackend.

Definition same_backend (a b : Backend) : bool :=
  match a, b with
  | CustomerBackend, CustomerBackend | StorefrontBackend, StorefrontBackend => true
  | _, _ => false
  end.

Definition connect (env : Env) (b : Backend) : M (list Tool) :=
  match b with
  | CustomerBackend => connectToCustomerServer env
  | StorefrontBackend => connectToStorefrontServer env
  end.

(** The per-backend catalog field. *)
Definition catalog_of (b : Backend) (c : MCPClient) : list Tool :=
  match b with
  | CustomerBackend => customerTools c
  | StorefrontBackend => storefrontTools c
  end.

(** A caller that connects to the listed backends in order on one client,
    going on after a connect that threw.  It records how each call
    completed. *)
Fixpoint connect_each (env : Env) (bs : list Backend) (w : World)
  : list (Backend * Completion (list Tool)) * World :=
  match bs with
  | [] => ([], w)
  | b :: rest =>
      let (r, w1) := connect env b w in
      let (calls, w2) := connect_each env rest w1 in
      ((b, r) :: calls, w2)
  end.

(** The catalogs returned by the calls that succeeded, in call order. *)
Fixpoint returned_catalogs (calls : list (Backend * Completion (list Tool)))
  : list (list Tool) :=
  match calls with
  | [] => []
  | (_, Returned catalog) :: rest => catalog :: returned_catalogs rest
  | (_, Threw _) :: rest => returned_catalogs rest
  end.

(** The catalog most recently returned for backend [b], or [current] when
    no call for [b] succeeded. *)
Fixpoint latest_catalog (b : Backend) (calls : list (Backend * Completion (list Tool)))
         (current : list Tool) : list Tool :=
  match calls with
  | [] => current
  | (b', Returned catalog) :: rest =>
      latest_catalog b rest (if same_backend b b' then catalog else current)
  | (_, Threw _) :: rest => latest_catalog b rest current
  end.

(** [tool.inputSchema || tool.input_schema] *)
Definition schema_of (tool : JsVal) : JsVal :=
  js_or (prop tool "inputSchema") (prop tool "input_schema").

(** The descriptor that stands for an advertised tool in a catalog. *)
Definition descriptor_of (tool : JsVal) : Tool :=
  mkTool (prop tool "name") (prop tool "description") (schema_of tool).

(** The endpoint of a backend. *)
Definition endpoint_of (b : Backend) (c : MCPClient) : string :=
  match b with
  | CustomerBackend => customerMcpEndpoint c
  | StorefrontBackend => storefrontMcpEndpoint c
  end.

(** The server at [target] answers every [tools/list] request with a 2xx
    response whose body parses to an envelope that holds the array
    [advertised] under [result.tools], none of its elements being [null] or
    [undefined]. *)
Definition lists_tools (env : Env) (target : string) (advertised : list JsVal) : Prop :=
  exists res text_body response,
    (forall t req,
        endpoint req = target ->
        prop (body req) "method" = JStr "tools/list" ->
        fetch env t req = Returned res) /\
    text res = Returned text_body /\
    ok res = true /\
    JSON_parse env text_body = inl response /\
    prop (prop response "result") "tools" = JArr advertised /\
    forallb (fun tool => negb (nullish tool)) advertised = true.

(** The fields of the client that no connect call writes. *)
Definition same_address (a b : MCPClient) : Prop :=
  conversationId a = conversationId b /\
  storefrontMcpEndpoint a = storefrontMcpEndpoint b /\
  customerMcpEndpoint a = customerMcpEndpoint b.

(** What one connect call does to the catalogs of the client. *)
Definition connect_effect (b : Backend) (before : MCPClient)
           (r : Completion (list Tool) * World) : Prop :=
  match r with
  | (Returned catalog, w') =>
      tools (client w') = (tools before ++ catalog)%list /\
      catalog_of b (client w') = catalog /\
      (forall b', same_backend b' b = false ->
                  catalog_of b' (client w') = catalog_of b' before) /\
      exists response,
        _formatToolsData (tools_of_response response) = Returned catalog
  | (Threw _, w') =>
      tools (client w') = tools before /\
      forall b', catalog_of b' (client w') = catalog_of b' before
  end.

(** ** The conversation *)

(** A computation that appends to the trace only effects satisfying [P]. *)
Definition emits {A} (P : Effect -> bool) (m : M A) : Prop :=
  forall w, exists d,
    trace (snd (m w)) = (trace w ++ d)%list /\ forallb P d = true.

Definition not_llm_call (e : Effect) : bool := negb (is_llm_call e).

(** What the callbacks other than [onToolUse] can append: a save, a console
    line, or one of the events [chunk], [message_complete],
    [content_block_complete]. *)
Definition plain_effect (e : Effect) : bool :=
  match e with
  | SaveMessage _ _ _ | Console _ _ => true
  | SendMessage ev =>
      strict_eq_str (prop ev "type") "chunk"
      || strict_eq_str (prop ev "type") "message_complete"
      || strict_eq_str (prop ev "type") "content_block_complete"
  | _ => false
  end.

Definition is_tool_use (cb : Callback) : bool :=
  match cb with OnToolUse _ => true | _ => false end.

(** The LLM calls of a trace, in order: the request sent, and the script
    the provider followed. *)
Fixpoint llm_calls (t : list Effect) : list (LlmRequest * LlmScript) :=
  match t with
  | [] => []
  | StreamConversation req script :: rest => (req, script) :: llm_calls rest
  | _ :: rest => llm_calls rest
  end.





(** ** Scenarios

    Concrete collaborators and clients on which the properties below are
    exercised. *)

Definition storefront_url : string := "https://demo.myshopify.com/api/mcp".
Definition customer_url : string :=
  "https://demo.account.myshopify.com/customer/api/mcp".

Definition tool_named (n : string) : Tool := mkTool (JStr n) (JStr "") (JObj []).

Definition customer_catalog : list Tool :=
  [tool_named "get_orders"; tool_named "lookup_order"].

Definition storefront_catalog : list Tool :=
  [tool_named "search_shop_catalog"; tool_named "lookup_order"].

(** A connected client: both catalogs advertise [lookup_order]. *)
Definition connected_client (token : string) : MCPClient :=
  mkClient "conv-1" "shop-1" storefront_url customer_url token
           (storefront_catalog ++ customer_catalog)
           customer_catalog storefront_catalog.

Definition connected (token : string) : World :=
  mkWorld (connected_client token) [].

Definition respond (status : Z) (reason body : string) : Completion Response :=
  Returned (mkResponse status reason (Returned body) None).

Definition quote : string := String (ascii_of_nat 34) "".

(** The body [{"result":{"tools":[{"name":n}]}}]. *)
Definition catalog_json (n : string) : string :=
  "{" ++ quote ++ "result" ++ quote ++ ":{" ++ quote ++ "tools" ++ quote
  ++ ":[{" ++ quote ++ "name" ++ quote ++ ":" ++ quote ++ n ++ quote ++ "}]}}".

Definition catalog_value (n : string) : JsVal :=
  JObj [("result", JObj [("tools", JArr [JObj [("name", JStr n)]])])].

(** [JSON.parse] on the few bodies the scenarios use. *)
Definition parse_known (body : string) : JsVal + string :=
  if body =? "null" then inl JNull
  else if body =? "{}" then inl (JObj [])
  else if body =? catalog_json "get_orders" then inl (catalog_value "get_orders")
  else if body =? catalog_json "search_shop_catalog"
       then inl (catalog_value "search_shop_catalog")
  else inr "Unexpected token in JSON at position 0".

Definition text_turn : LlmScript :=
  mkScript [OnText "Hello"; OnContentBlock [("type", JStr "text"); ("text", JStr "Hello")];
            OnMessage (mkTurn "assistant" (JArr [JObj [("type", JStr "text")]]))]
           (Returned (mkFinal "assistant" (JArr [JObj [("type", JStr "text")]])
                              (Some "end_turn"))).

Definition scenario (network : Request -> Completion Response)
           (db : Completion (option DbToken))
           (llm : LlmRequest -> LlmScript) : Env :=
  mkEnv (fun _ => network)
        (fun _ _ => db)
        (fun _ conv shop =>
           Returned (mkAuthResponse ("https://auth.example/authorize?c=" ++ conv
                                     ++ "&s=" ++ shop)))
        (fun _ => 1700000000000%Z)
        parse_known
        (fun _ => "{}")
        (fun _ => llm)
        (fun _ _ _ _ => Returned tt)
        (fun _ _ => Returned [])
        (fun _ _ _ _ history _ => Returned (history, []))
        (fun _ _ _ _ history products _ => Returned (history, products)).

Definition unauthorized : Request -> Completion Response :=
  fun _ => respond 401 "Unauthorized" "token required".

Definition offline : Request -> Completion Response :=
  fun _ => Threw (TypeError "fetch failed").

Fixpoint repeat_string (n : nat) (s : string) : string :=
  match n with
  | O => ""
  | S n' => s ++ repeat_string n' s
  end.

(** A body of 200 characters followed by [tail]. *)
Definition long_body (tail : string) : string := repeat_string 200 "x" ++ tail.

(** U+00E9, two bytes and one code unit; U+1F600, four bytes and the
    surrogate pair D83D DE00; and D83D alone. *)
Definition e_acute : string :=
  String (ascii_of_nat 195) (String (ascii_of_nat 169) EmptyString).

Definition grinning_face : string :=
  String (ascii_of_nat 240)
    (String (ascii_of_nat 159)
       (String (ascii_of_nat 152) (String (ascii_of_nat 128) EmptyString))).

Definition lone_D83D : string :=
  String (ascii_of_nat 237)
    (String (ascii_of_nat 160) (String (ascii_of_nat 189) EmptyString)).

Definition server_error (body : string) : Request -> Completion Response :=
  fun _ => respond 500 "Internal Server Error" body.

Definition login_page : Request -> Completion Response :=
  fun _ => respond 200 "OK" "<html>Enter store password</html>".

(** The storefront endpoint is unreachable while the customer endpoint
    advertises [get_orders]. *)
Definition storefront_down : Request -> Completion Response :=
  fun req =>
    if endpoint req =? customer_url
    then respond 200 "OK" (catalog_json "get_orders")
    else Threw (TypeError "fetch failed").

(** Both endpoints advertise one tool each. *)
Definition both_up : Request -> Completion Response :=
  fun req =>
    if endpoint req =? customer_url
    then respond 200 "OK" (catalog_json "get_orders")
    else respond 200 "OK" (catalog_json "search_shop_catalog").

(** Both endpoints advertise the same tool name. *)
Definition same_name : Request -> Completion Response :=
  fun _ => respond 200 "OK" (catalog_json "get_orders").

Definition fresh : World :=
  mkWorld (new_MCPClient "conv-1" "shop-1" storefront_url customer_url) [].

Definition warn_line (error : JsError) : Effect :=
  Console WarnLevel
    ("Failed to connect to MCP servers, continuing without tools: " ++ message error).

(** The environments of the scenarios: the network behaviour varies, the
    token table is empty unless said otherwise, and the provider answers
    with one final text turn. *)
Definition offline_env : Env := scenario offline (Returned None) (fun _ => text_turn).
Definition unauthorized_env : Env :=
  scenario unauthorized (Returned None) (fun _ => text_turn).
Definition stored_token_env : Env :=
  scenario unauthorized (Returned (Some (mkDbToken "shpat_1"))) (fun _ => text_turn).
Definition storefront_down_env : Env :=
  scenario storefront_down (Returned None) (fun _ => text_turn).
Definition both_up_env : Env := scenario both_up (Returned None) (fun _ => text_turn).
Definition same_name_env : Env := scenario same_name (Returned None) (fun _ => text_turn).
Definition login_page_env : Env :=
  scenario login_page (Returned None) (fun _ => text_turn).
Definition server_error_env (body : string) : Env :=
  scenario (server_error body) (Returned None) (fun _ => text_turn).

(** * The rest of the two files *)

(** ** Strings as the source matches them *)

(** Lower case of an ASCII letter; every other byte is left alone, as in a
    regular expression with the [i] flag and no [u] flag. *)
Definition lower (c : ascii) : ascii :=
  let n := nat_of_ascii c in
  if ((65 <=? n) && (n <=? 90))%nat then ascii_of_nat (n + 32) else c.

Fixpoint eqb_ci (a b : string) : bool :=
  match a, b with
  | EmptyString, EmptyString => true
  | String x a', String y b' => Ascii.eqb (lower x) (lower y) && eqb_ci a' b'
  | _, _ => false
  end.

(** [new RegExp("^" + p, "i").test(s)] for a literal [p]. *)
Definition starts_with_ci (p s : string) : bool :=
  eqb_ci (substring 0 (String.length p) s) p.

(** [new RegExp(p + "$", "i").test(s)] for a literal [p]. *)
Definition ends_with_ci (p s : string) : bool :=
  (String.length p <=? String.length s)%nat &&
  eqb_ci (substring (String.length s - String.length p) (String.length p) s) p.

(** [s.replace(new RegExp(p + "$", "i"), r)] for literals [p] and [r]. *)
Definition replace_suffix_ci (p r s : string) : string :=
  if ends_with_ci p s
  then substring 0 (String.length s - String.length p) s ++ r
  else s.

(** [s.includes(needle)] *)
Fixpoint includes (needle s : string) : bool :=
  if prefix needle s then true
  else match s with
       | EmptyString => false
       | String _ rest => includes needle rest
       end.

(** [s.replace(/\/+$/, "")] *)
Fixpoint strip_trailing_slashes (s : string) : string :=
  match s with
  | EmptyString => EmptyString
  | String c rest =>
      let rest' := strip_trailing_slashes rest in
      if (rest' =? "") && Ascii.eqb c "/" then EmptyString else String c rest'
  end.

(** [a || b] where both are a string, [null] or [undefined]. *)
Definition or_else (a b : option string) : option string :=
  match a with
  | Some s => if nonempty s then a else b
  | None => b
  end.

(** [a || d] where [d] is a string. *)
Definition or_default (a : option string) (d : string) : string :=
  match a with
  | Some s => if nonempty s then s else d
  | None => d
  end.

(** ** The constructor of [MCPClient], lines 17-51 *)

Section Construction.

(** [new URL(u).hostname], which throws on an invalid URL. *)
Variable URL_hostname : string -> Completion string.
(** [process.env.STOREFRONT_BASE_URL] *)
Variable STOREFRONT_BASE_URL : option string.

(** [/^https?:\/\//i.test(s)] *)
Definition hasProtocol (s : string) : bool :=
  starts_with_ci "http://" s || starts_with_ci "https://" s.

(** Lines 30-33. *)
Definition storefrontBase (shopDomain : string) : string :=
  or_default (match STOREFRONT_BASE_URL with
              | Some b => Some (strip_trailing_slashes b)
              | None => None
              end)
             ("https://" ++ shopDomain).

(** Lines 39-42. *)
Definition accountHost (shopDomain : string) : string :=
  replace_suffix_ci ".myshopify.com" ".account.myshopify.com" shopDomain.

(** The whole constructor.  [this.shopDomain] is read by the constructor
    alone and is not kept in [MCPClient]. *)
Definition MCPClient_constructor (hostUrlOrDomain conversationId shopId : string)
           (customerMcpEndpoint : option string) : Completion MCPClient :=
  match (if hasProtocol hostUrlOrDomain
         then URL_hostname hostUrlOrDomain
         else Returned hostUrlOrDomain) with
  | Threw e => Threw e
  | Returned shopDomain =>
      Returned
        (new_MCPClient conversationId shopId
           (storefrontBase shopDomain ++ "/api/mcp")
           (or_default customerMcpEndpoint
                       ("https://" ++ accountHost shopDomain ++ "/customer/api/mcp")))
  end.

End Construction.

(** ** Requests and responses of the route *)

(** A request, as the route reads it: its method, the query parameters of
    its URL in order, its [headers.get] and the completion of [json()]. *)
Record HttpRequest : Type := mkHttpRequest {
  request_method : string;
  query : list (string * string);
  header : string -> option string;
  request_json : Completion JsVal
}.

(** [url.searchParams.get(k)] *)
Fixpoint searchParams_get (k : string) (q : list (string * string)) : option string :=
  match q with
  | [] => None
  | (k', v) :: rest => if k' =? k then Some v else searchParams_get k rest
  end.

(** [url.searchParams.has(k)] *)
Definition searchParams_has (k : string) (q : list (string * string)) : bool :=
  match searchParams_get k q with
  | Some _ => true
  | None => false
  end.

(** What a response carries: nothing, a JSON value, the persisted messages
    of a conversation, or the event stream of a chat session started with
    the given message, conversation id and prompt type. *)
Inductive ResponseBody : Type :=
| NoBody
| JsonBody (v : JsVal)
| MessagesBody (dbMessages : list DbMessage)
| SessionStream (userMessage conversation promptType : JsVal).

Record HttpResponse : Type := mkHttpResponse {
  response_status : Z;
  response_headers : list (string * string);
  response_body : ResponseBody
}.

Fixpoint header_value (k : string) (hs : list (string * string)) : option string :=
  match hs with
  | [] => None
  | (k', v) :: rest => if k' =? k then Some v else header_value k rest
  end.

(** The constants of [AppConfig] that the route reads. *)
Record AppConfig : Type := mkAppConfig {
  apiUnsupported : string;
  missingMessage : string;
  defaultPromptType : string
}.

(** ** [getCorsHeaders] and [getSseHeaders] *)

Definition getCorsHeaders (request : HttpRequest) : list (string * string) :=
  [("Access-Control-Allow-Origin", or_default (header request "Origin") "*");
   ("Access-Control-Allow-Methods", "GET, POST, OPTIONS");
   ("Access-Control-Allow-Headers",
    or_default (header request "Access-Control-Request-Headers") "Content-Type, Accept");
   ("Access-Control-Allow-Credentials", "true");
   ("Access-Control-Max-Age", "86400")].

Definition getSseHeaders (request : HttpRequest) : list (string * string) :=
  [("Content-Type", "text/event-stream");
   ("Cache-Control", "no-cache");
   ("Connection", "keep-alive");
   ("Access-Control-Allow-Credentials", "true");
   ("Access-Control-Allow-Origin", or_default (header request "Origin") "*");
   ("Access-Control-Allow-Methods", "GET,OPTIONS,POST");
   ("Access-Control-Allow-Headers",
    "X-CSRF-Token, X-Requested-With, Accept, Accept-Version, Content-Length, "
    ++ "Content-MD5, Content-Type, Date, X-Api-Version")].

(** ** [resolveShopDomain] *)

Section ShopDomain.

Variable URL_hostname : string -> Completion string.
(** [process.env.MYSHOPIFY_DOMAIN] *)
Variable MYSHOPIFY_DOMAIN : option string.

Definition missing_shop_domain : JsError :=
  Error "Missing shop domain (expected ?shop, X-Shopify-Shop-Domain, or MYSHOPIFY_DOMAIN).".

(** Lines 29-32: the first of the three sources that is not empty. *)
Definition requested_shop (request : HttpRequest) : option string :=
  or_else (searchParams_get "shop" (query request))
          (or_else (header request "X-Shopify-Shop-Domain") MYSHOPIFY_DOMAIN).

Definition resolveShopDomain (request : HttpRequest) : Completion string :=
  match requested_shop request with
  | None => Threw missing_shop_domain
  | Some shop =>
      if negb (nonempty shop) then Threw missing_shop_domain
      else
        match (if includes "://" shop then URL_hostname shop else Returned shop) with
        | Threw e => Threw e
        | Returned shop' =>
            if negb (ends_with_ci ".myshopify.com" shop')
            then Threw (Error ("Invalid shop domain for Shopify SDK: " ++ shop'))
            else Returned shop'
        end
  end.

End ShopDomain.

(** ** [loader], [action] and the two request handlers *)

Section Routes.

Variable env : Env.
Variable config : AppConfig.

(** The route layer performs effects on a trace alone: it has no client. *)
Definition Route (A : Type) : Type := list Effect -> Completion A * list Effect.

(** [json(data, { status, headers })] of Remix. *)
Definition json_response (data : JsVal) (status : Z) (hs : list (string * string))
  : HttpResponse :=
  mkHttpResponse status hs (JsonBody data).

Definition handleHistoryRequest (request : HttpRequest) (conversation : string)
  : Route HttpResponse :=
  fun t =>
    (match getConversationHistory env t conversation with
     | Returned dbMessages =>
         Returned (mkHttpResponse 200 (getCorsHeaders request) (MessagesBody dbMessages))
     | Threw e => Threw e
     end,
     (t ++ [GetConversationHistory conversation])%list).

(** Lines 103-130: the [try] block. *)
Definition chat_request_body (request : HttpRequest) (now : Z) : Completion HttpResponse :=
  match request_json request with
  | Threw e => Threw e
  | Returned body =>
      match member body "message" with
      | Threw e => Threw e
      | Returned userMessage =>
          if negb (truthy userMessage) then
            Returned (mkHttpResponse 400 (getSseHeaders request)
                        (JsonBody (JObj [("error", JStr (missingMessage config))])))
          else
            Returned
              (mkHttpResponse 200 (getSseHeaders request)
                 (SessionStream userMessage
                    (js_or (prop body "conversation_id") (JStr (string_of_Z now)))
                    (js_or (prop body "prompt_type") (JStr (defaultPromptType config)))))
      end
  end.

Definition chat_error_log : Effect :=
  Console ErrorLevel "Error in chat request handler:".

Definition handleChatRequest (request : HttpRequest) : Route HttpResponse :=
  fun t =>
    match chat_request_body request (Date_now env t) with
    | Returned response => (Returned response, t)
    | Threw error =>
        (Returned (json_response (JObj [("error", JStr (message error))]) 500
                                 (getCorsHeaders request)),
         (t ++ [chat_error_log])%list)
    end.

Definition loader (request : HttpRequest) : Route HttpResponse :=
  if request_method request =? "OPTIONS" then
    fun t => (Returned (mkHttpResponse 204 (getCorsHeaders request) NoBody), t)
  else if searchParams_has "history" (query request)
          && searchParams_has "conversation_id" (query request) then
    handleHistoryRequest request
      (match searchParams_get "conversation_id" (query request) with
       | Some c => c
       | None => ""
       end)
  else if negb (searchParams_has "history" (query request))
          && match header request "Accept" with
             | Some a => a =? "text/event-stream"
             | None => false
             end then
    handleChatRequest request
  else
    fun t =>
      (Returned (json_response (JObj [("error", JStr (apiUnsupported config))]) 400
                               (getCorsHeaders request)), t).

Definition action (request : HttpRequest) : Route HttpResponse :=
  handleChatRequest request.

End Routes.

(** ** [getCustomerMcpEndpoint] *)

(** The effects of endpoint discovery. *)
Inductive SetupEffect : Type :=
| GetCustomerAccountUrl (conv : string)
| ShopQuery (shopDomain : string)
| StoreCustomerAccountUrl (conv : string) (accountUrl : JsVal)
| SetupConsole (line : string).

(** The collaborators of endpoint discovery: the two account-URL functions
    of [db.server], and the Storefront API, whose answer is the completion
    of [unauthenticated.storefront], [storefront.graphql] and
    [response.json()] taken together. *)
Record SetupEnv : Type := mkSetupEnv {
  getCustomerAccountUrl : list SetupEffect -> string -> Completion (option string);
  shop_query : list SetupEffect -> string -> Completion JsVal;
  storeCustomerAccountUrl : list SetupEffect -> string -> JsVal -> Completion unit
}.

(** [v?.k] *)
Definition opt_prop (v : JsVal) (k : string) : JsVal :=
  if nullish v then JUndefined else prop v k.

Definition mcp_path (accountUrl : string) : string :=
  strip_trailing_slashes accountUrl ++ "/customer/api/mcp".

Section EndpointDiscovery.

Variable setup : SetupEnv.

(** Lines 328-355: the [try] block. *)
Definition discover_endpoint (shopDomain conversation : string) (t : list SetupEffect)
  : Completion string * list SetupEffect :=
  let t1 := (t ++ [GetCustomerAccountUrl conversation])%list in
  match getCustomerAccountUrl setup t conversation with
  | Threw e => (Threw e, t1)
  | Returned existingUrl =>
      if nonempty (or_default existingUrl "") then
        (Returned (mcp_path (or_default existingUrl "")), t1)
      else
        let t2 := (t1 ++ [ShopQuery shopDomain])%list in
        match shop_query setup t1 shopDomain with
        | Threw e => (Threw e, t2)
        | Returned body =>
            let customerAccountUrl :=
              opt_prop (opt_prop (opt_prop body "data") "shop") "customerAccountUrl" in
            if negb (truthy customerAccountUrl) then
              (Threw (Error "customerAccountUrl not available (is Customer Accounts enabled?)"),
               t2)
            else
              let t3 := (t2 ++ [StoreCustomerAccountUrl conversation customerAccountUrl])%list in
              match storeCustomerAccountUrl setup t2 conversation customerAccountUrl with
              | Threw e => (Threw e, t3)
              | Returned _ =>
                  match customerAccountUrl with
                  | JStr accountUrl => (Returned (mcp_path accountUrl), t3)
                  | _ => (Threw (TypeError "customerAccountUrl.replace is not a function"),
                          t3)
                  end
              end
        end
  end.

(** [None] is [null]. *)
Definition getCustomerMcpEndpoint (shopDomain conversation : string)
           (t : list SetupEffect) : option string * list SetupEffect :=
  match discover_endpoint shopDomain conversation t with
  | (Returned e, t') => (Some e, t')
  | (Threw _, t') =>
      (None, (t' ++ [SetupConsole "Error getting customer MCP endpoint:"])%list)
  end.

End EndpointDiscovery.

(** ** The start of [handleChatSession], lines 153-165 *)

Section SessionStart.

Variable URL_hostname : string -> Completion string.
Variable MYSHOPIFY_DOMAIN : option string.
Variable STOREFRONT_BASE_URL : option string.
Variable setup : SetupEnv.

(** Lines 158-165: the client of the session and the discovered customer
    endpoint, or the error thrown on the way. *)
Definition open_session (request : HttpRequest) (conversation : string)
           (t : list SetupEffect)
  : Completion (MCPClient * option string) * list SetupEffect :=
  match resolveShopDomain URL_hostname MYSHOPIFY_DOMAIN request with
  | Threw e => (Threw e, t)
  | Returned shopDomain =>
      let shopId := or_default (header request "X-Shopify-Shop-Id") "unknown" in
      let (customerMcpEndpoint, t') :=
        getCustomerMcpEndpoint setup shopDomain conversation t in
      (match MCPClient_constructor URL_hostname STOREFRONT_BASE_URL
               shopDomain conversation shopId customerMcpEndpoint with
       | Returned mcpClient => Returned (mcpClient, customerMcpEndpoint)
       | Threw e => Threw e
       end, t')
  end.

Variable env : Env.
Variable ENABLE_CUSTOMER_MCP : bool.

(** The whole of [handleChatSession]: the setup effects, and the run of
    lines 167-321 on the client built, when the setup did not throw.  The
    two service factories of lines 154-155 are taken to return. *)
Definition handleChatSession_request (request : HttpRequest)
           (userMessage conversation promptType : string) (fuel : nat)
  : option (Completion unit * list Effect) * list SetupEffect :=
  match open_session request conversation [] with
  | (Threw e, t) => (Some (Threw e, []), t)
  | (Returned (mcpClient, customerMcpEndpoint), t) =>
      (match handleChatSession env userMessage conversation promptType
               ENABLE_CUSTOMER_MCP customerMcpEndpoint fuel (mkWorld mcpClient []) with
       | Some (r, w) => Some (r, trace w)
       | None => None
       end, t)
  end.

End SessionStart.

(** The response carries the event stream of a session. *)
Definition is_session_stream (r : HttpResponse) : bool :=
  match response_body r with
  | SessionStream _ _ _ => true
  | _ => false
  end.

(** ** Scenarios of the route and of the session start *)

Definition no_headers : string -> option string := fun _ => None.

Definition one_header (k v : string) : string -> option string :=
  fun k' => if k' =? k then Some v else None.

(** [new URL(u).hostname] on the one URL the scenarios use. *)
Definition hostname_stub (u : string) : Completion string :=
  if u =? "https://demo.myshopify.com/" then Returned "demo.myshopify.com"
  else Threw (TypeError "Invalid URL").

Definition shop_request (shop : string) (h : string -> option string) : HttpRequest :=
  mkHttpRequest "POST" [("shop", shop)] h (Returned (JObj [("message", JStr "hi")])).

Definition account_body (accountUrl : JsVal) : JsVal :=
  JObj [("data", JObj [("shop", JObj [("customerAccountUrl", accountUrl)])])].

(** Endpoint discovery with a given stored URL and a given Storefront API
    answer; storing succeeds. *)
Definition setup_scenario (stored : option string) (answer : Completion JsVal)
  : SetupEnv :=
  mkSetupEnv (fun _ _ => Returned stored) (fun _ _ => answer)
             (fun _ _ _ => Returned tt).

Definition demo_config : AppConfig :=
  mkAppConfig "This endpoint only supports server-sent events (SSE) requests or history requests."
              "Message is required" "standardAssistant".

(** A chat request with the given JSON body, and a history request that
    also asks for an event stream. *)
Definition post_request (body : Completion JsVal) : HttpRequest :=
  mkHttpRequest "POST" [] (one_header "Origin" "https://demo.myshopify.com") body.

Definition history_request : HttpRequest :=
  mkHttpRequest "GET" [("history", "true"); ("conversation_id", "conv-1")]
                (one_header "Accept" "text/event-stream") (Threw (SyntaxError "no body")).

(** ** More vocabulary of the client *)

Definition is_auth_url (e : Effect) : bool :=
  match e with GenerateAuthUrl _ _ => true | _ => false end.

(** The catalogs and the fixed fields of two clients agree. *)
Definition same_but_token (a b : MCPClient) : Prop :=
  conversationId a = conversationId b /\
  shopId a = shopId b /\
  storefrontMcpEndpoint a = storefrontMcpEndpoint b /\
  customerMcpEndpoint a = customerMcpEndpoint b /\
  tools a = tools b /\
  customerTools a = customerTools b /\
  storefrontTools a = storefrontTools b.

Definition connect_failed_log : Effect :=
  Console ErrorLevel "Failed to connect to MCP server: ".

(** The effects [d] hold one request, sent to [target] with the content
    type as its only header, no token lookup and no authorization URL. *)
Definition anonymous (target : string) (d : list Effect) : Prop :=
  map endpoint (fetched d) = [target] /\
  map headers (fetched d) = [[("Content-Type", "application/json")]] /\
  filter is_token_lookup d = [] /\
  filter is_auth_url d = [].

(** ** More vocabulary of the session *)

(** The turns that the [onMessage] callbacks of a script append, in order. *)
Fixpoint completed_turns (cbs : list Callback) : list Turn :=
  match cbs with
  | [] => []
  | OnMessage msg :: rest => mkTurn (role msg) (content msg) :: completed_turns rest
  | _ :: rest => completed_turns rest
  end.

Definition any_effect (e : Effect) : bool := true.

Definition is_tool_service (e : Effect) : bool :=
  match e with
  | HandleToolError _ _ _ | HandleToolSuccess _ _ _ => true
  | _ => false
  end.

Definition id_event (conversation : string) : Effect :=
  SendMessage (event "id" [("conversation_id", JStr conversation)]).

Definition end_turn_event : Effect := SendMessage (event "end_turn" []).

Definition product_results_event (products : list JsVal) : Effect :=
  SendMessage (event "product_results" [("products", JArr products)]).

(** A provider that asks for one tool and then ends the turn. *)
Definition tool_turn (toolName : string) : LlmScript :=
  mkScript [OnText "Let me look"; OnToolUse (mkToolUse toolName (JObj []) "toolu_1")]
           (Returned (mkFinal "assistant" (JArr []) (Some "tool_use"))).

(** Persistence is down: saving a message throws. *)
Definition save_fails_env : Env :=
  mkEnv (fun _ => offline) (fun _ _ => Returned None)
        (fun _ _ _ => Threw (Error "no auth")) (fun _ => 0%Z) parse_known (fun _ => "{}")
        (fun _ _ => text_turn)
        (fun _ _ _ _ => Threw (Error "database is locked"))
        (fun _ _ => Returned [mkDbMessage "user" "hi"])
        (fun _ _ _ _ history _ => Returned (history, []))
        (fun _ _ _ _ history products _ => Returned (history, products)).

Definition tool_turn_env (toolName : string) : Env :=
  scenario both_up (Returned None) (fun _ => tool_turn toolName).






(** The account server refuses every request and the authorization
    service is down. *)
Definition no_auth_url_env : Env :=
  mkEnv (fun _ => unauthorized) (fun _ _ => Returned None)
        (fun _ _ _ => Threw (Error "auth service down")) (fun _ => 0%Z)
        parse_known (fun _ => "{}") (fun _ _ => text_turn)
        (fun _ _ _ _ => Returned tt) (fun _ _ => Returned [])
        (fun _ _ _ _ history _ => Returned (history, []))
        (fun _ _ _ _ history products _ => Returned (history, products)).

(** A conversation with two stored rows: plain text, and a JSON body. *)
Definition replay_env : Env :=
  mkEnv (fun _ => offline) (fun _ _ => Returned None)
        (fun _ _ _ => Threw (Error "no auth")) (fun _ => 0%Z)
        parse_known (fun _ => "{}") (fun _ _ => text_turn)
        (fun _ _ _ _ => Returned tt)
        (fun _ _ => Returned [mkDbMessage "user" "hi"; mkDbMessage "assistant" "{}"])
        (fun _ _ _ _ history _ => Returned (history, []))
        (fun _ _ _ _ history products _ => Returned (history, products)).

(** * Properties *)

Unset Implicit Arguments.

(** Unfold the monad operations and compute. *)
Ltac run_m :=
  unfold try_catch, bind, ret, throw, lift, this, update, perform, console in *;
  simpl in *.

(** Exhibit the effects appended to a trace. *)
Ltac trace_ex :=
  rewrite <- ?app_assoc; simpl; eexists; split; [reflexivity|].

Section ClientFacts.

Variable env : Env.

Lemma advertises_In (catalog : list Tool) (toolName : string) :
  advertises catalog toolName = true <-> In (JStr toolName) (map name catalog).
Proof.
  unfold advertises. rewrite existsb_exists, in_map_iff. split.
  - intros [tool [Hin Heq]]. exists tool. split; [|exact Hin].
    destruct (name tool); simpl in Heq; try discriminate.
    apply String.eqb_eq in Heq. now subst.
  - intros [tool [Hname Hin]]. exists tool. split; [exact Hin|].
    rewrite Hname. simpl. apply String.eqb_refl.
Qed.

Lemma advertises_not_In (catalog : list Tool) (toolName : string) :
  advertises catalog toolName = false <-> ~ In (JStr toolName) (map name catalog).
Proof.
  rewrite <- advertises_In.
  destruct (advertises catalog toolName); split; congruence.
Qed.

Lemma makeJsonRpcRequest_run endpoint method params headers (w : World) :
  let req := rpc_request env (trace w) endpoint method params headers in
  let answer := fetch env (trace w) req in
  _makeJsonRpcRequest env endpoint method params headers w =
  (rpc_result env answer,
   mkWorld (client w) (trace w ++ Fetch req :: rpc_log env answer)%list).
Proof.
  unfold _makeJsonRpcRequest, rpc_request, rpc_result, rpc_log. run_m.
  destruct (fetch env (trace w) _) as [res|e]; [|reflexivity].
  destruct (text res) as [body|e]; [|reflexivity].
  destruct (ok res); simpl; [|reflexivity].
  destruct (JSON_parse env body); simpl; [reflexivity|].
  now rewrite <- app_assoc.
Qed.

End ClientFacts.

Section DispatchFacts.

Variable env : Env.

(** The run of the persisted-token lookup, by what the database answers. *)
Lemma lookup_token_run (c : MCPClient) (w : World) :
  lookup_token env c w =
  match getCustomerToken env (trace w) (conversationId c) with
  | Threw e =>
      (Threw e, mkWorld (client w) (trace w ++ [GetCustomerToken (conversationId c)])%list)
  | Returned (Some d) =>
      if nonempty (accessToken d) then
        (Returned (accessToken d),
         mkWorld (set_customerAccessToken (accessToken d) (client w))
                 (trace w ++ [GetCustomerToken (conversationId c)])%list)
      else
        (Returned "",
         mkWorld (client w)
                 (trace w ++ [GetCustomerToken (conversationId c);
                              Console LogLevel "No token in database for conversation:"])%list)
  | Returned None =>
      (Returned "",
       mkWorld (client w)
               (trace w ++ [GetCustomerToken (conversationId c);
                            Console LogLevel "No token in database for conversation:"])%list)
  end.
Proof.
  unfold lookup_token. run_m.
  destruct (getCustomerToken env (trace w) (conversationId c)) as [[d|]|e];
    try reflexivity.
  - destruct (nonempty (accessToken d)); simpl; [reflexivity|].
    now rewrite <- app_assoc.
  - simpl. now rewrite <- app_assoc.
Qed.

Lemma try_catch_returns {A} (body : M A) (handler : JsError -> M A) :
  (forall e w, exists a, fst (handler e w) = Returned a) ->
  forall w, exists a, fst (try_catch body handler w) = Returned a.
Proof.
  intros Hh w. unfold try_catch.
  destruct (body w) as [[a|e] w']; [now exists a|apply Hh].
Qed.

(** [callCustomerTool] has no way out but [return]. *)
Lemma callCustomerTool_returns toolName toolArgs (w : World) :
  exists v, fst (callCustomerTool env toolName toolArgs w) = Returned v.
Proof.
  unfold callCustomerTool. apply try_catch_returns.
  intros e w'. run_m. eexists. reflexivity.
Qed.

(** The run of the inner [try]/[catch] of [callCustomerTool], by what the
    network and the authorization-URL generator answer. *)
Lemma call_or_authorize_run c toolName toolArgs tok (w : World) :
  let req := rpc_request env (trace w) (customerMcpEndpoint c) "tools/call"
                         (call_params toolName toolArgs) (auth_headers tok) in
  let answer := fetch env (trace w) req in
  let t1 := (trace w ++ Fetch req :: rpc_log env answer)%list in
  call_or_authorize env c toolName toolArgs tok w =
  match rpc_result env answer with
  | Returned response =>
      match member response "result" with
      | Returned r => (Returned (js_or r response), mkWorld (client w) t1)
      | Threw e => (Threw e, mkWorld (client w) t1)
      end
  | Threw e =>
      if status_is e 401 then
        (match generateAuthUrl env (t1 ++ [unauthorized_log])%list
                               (conversationId c) (shopId c) with
         | Returned a =>
             Returned (error_result "auth_required" (auth_required_message (url a)))
         | Threw e' => Threw e'
         end,
         mkWorld (client w)
                 (t1 ++ [unauthorized_log;
                         GenerateAuthUrl (conversationId c) (shopId c)])%list)
      else (Threw e, mkWorld (client w) t1)
  end.
Proof.
  intros req answer t1. unfold call_or_authorize, try_catch, bind at 1.
  rewrite makeJsonRpcRequest_run. fold req answer t1.
  destruct (rpc_result env answer) as [response|e].
  - unfold result_or_self. run_m. unfold member.
    destruct (nullish response); reflexivity.
  - destruct (status_is e 401); [|reflexivity]. run_m.
    rewrite <- !app_assoc. simpl.
    destruct (generateAuthUrl env _ _ _); reflexivity.
Qed.

Lemma callCustomerTool_run toolName toolArgs (w : World) :
  let w0 := mkWorld (client w) (trace w ++ [calling_customer_log])%list in
  callCustomerTool env toolName toolArgs w =
  normalize toolName
    (match resolve_token env (client w) w0 with
     | (Returned tok, w1) => call_or_authorize env (client w) toolName toolArgs tok w1
     | (Threw e, w1) => (Threw e, w1)
     end).
Proof.
  intros w0. unfold callCustomerTool, normalize, w0, calling_customer_log. run_m.
  destruct (resolve_token env (client w) _) as [[tok|e] w1]; [|reflexivity].
  destruct (call_or_authorize env (client w) toolName toolArgs tok w1) as [[v|e] w2];
    reflexivity.
Qed.

Lemma callTool_customer toolName toolArgs (w : World) :
  In (JStr toolName) (map name (customerTools (client w))) ->
  callTool env toolName toolArgs w = callCustomerTool env toolName toolArgs w.
Proof.
  intros Hin. apply advertises_In in Hin.
  unfold callTool at 1. unfold bind, this. simpl. now rewrite Hin.
Qed.

Lemma callTool_storefront toolName toolArgs (w : World) :
  ~ In (JStr toolName) (map name (customerTools (client w))) ->
  In (JStr toolName) (map name (storefrontTools (client w))) ->
  callTool env toolName toolArgs w = callStorefrontTool env toolName toolArgs w.
Proof.
  intros Hout Hin. apply advertises_not_In in Hout. apply advertises_In in Hin.
  unfold callTool at 1. unfold bind, this. simpl. now rewrite Hout, Hin.
Qed.

End DispatchFacts.

Section TraceFacts.

Variable env : Env.

Lemma fetched_app (a b : list Effect) : fetched (a ++ b) = (fetched a ++ fetched b)%list.
Proof.
  induction a as [|e a IH]; [reflexivity|].
  destruct e; simpl; now rewrite IH.
Qed.

Lemma sent_types_app (a b : list Effect) :
  sent_types (a ++ b) = (sent_types a ++ sent_types b)%list.
Proof.
  induction a as [|e a IH]; [reflexivity|].
  destruct e; simpl; now rewrite IH.
Qed.

Lemma count_sent_app type (a b : list Effect) :
  count_sent type (a ++ b) = count_sent type a + count_sent type b.
Proof.
  unfold count_sent. now rewrite sent_types_app, filter_app, length_app.
Qed.


Lemma rpc_log_client answer : forallb client_effect (rpc_log env answer) = true.
Proof.
  unfold rpc_log. destruct answer as [res|]; [|reflexivity].
  destruct (text res); [|reflexivity]. destruct (ok res); [|reflexivity].
  destruct (JSON_parse env a); reflexivity.
Qed.

Lemma rpc_log_fetched answer : fetched (rpc_log env answer) = [].
Proof.
  unfold rpc_log. destruct answer as [res|]; [|reflexivity].
  destruct (text res); [|reflexivity]. destruct (ok res); [|reflexivity].
  destruct (JSON_parse env a); reflexivity.
Qed.

Lemma rpc_log_lookups answer : filter is_token_lookup (rpc_log env answer) = [].
Proof.
  unfold rpc_log. destruct answer as [res|]; [|reflexivity].
  destruct (text res); [|reflexivity]. destruct (ok res); [|reflexivity].
  destruct (JSON_parse env a); reflexivity.
Qed.

Lemma client_effects_not_sent (d : list Effect) :
  forallb client_effect d = true -> sent_types d = [].
Proof.
  induction d as [|e d IH]; [reflexivity|]. simpl.
  intros H. apply andb_prop in H as [He Hd].
  destruct e; simpl in *; try discriminate; auto.
Qed.

End TraceFacts.

Section DispatchTraces.

Variable env : Env.

(** The token phase sends nothing over the network and reads the database
    only when no token is cached. *)
Lemma resolve_token_trace (c : MCPClient) (w : World) :
  exists d,
    trace (snd (resolve_token env c w)) = (trace w ++ d)%list /\
    forallb client_effect d = true /\
    fetched d = [] /\
    filter is_token_lookup d =
      (if nonempty (customerAccessToken c) then []
       else [GetCustomerToken (conversationId c)]).
Proof.
  unfold resolve_token. destruct (nonempty (customerAccessToken c)); simpl.
  - exists []. unfold ret. simpl. now rewrite app_nil_r.
  - rewrite lookup_token_run.
    destruct (getCustomerToken env (trace w) (conversationId c)) as [[d|]|e].
    + destruct (nonempty (accessToken d)); trace_ex; auto.
    + trace_ex; auto.
    + trace_ex; auto.
Qed.

(** The request phase sends exactly one request, to the customer endpoint,
    and never reads the database. *)
Lemma call_or_authorize_trace c toolName toolArgs tok (w : World) :
  exists d,
    trace (snd (call_or_authorize env c toolName toolArgs tok w)) = (trace w ++ d)%list /\
    forallb client_effect d = true /\
    fetched d = [rpc_request env (trace w) (customerMcpEndpoint c) "tools/call"
                             (call_params toolName toolArgs) (auth_headers tok)] /\
    filter is_token_lookup d = [] /\
    client (snd (call_or_authorize env c toolName toolArgs tok w)) = client w.
Proof.
  rewrite call_or_authorize_run.
  set (req := rpc_request _ _ _ _ _ _).
  set (answer := fetch env (trace w) req).
  pose proof (rpc_log_client env answer) as Hc.
  pose proof (rpc_log_fetched env answer) as Hf.
  pose proof (rpc_log_lookups env answer) as Hl.
  destruct (rpc_result env answer) as [response|e].
  - destruct (member response "result"); simpl; eexists; (split; [reflexivity|]);
      simpl; rewrite Hc, Hf, Hl; auto.
  - destruct (status_is e 401); simpl.
    + eexists. split; [rewrite <- app_assoc; reflexivity|]. simpl.
      rewrite forallb_app, fetched_app, filter_app, Hc, Hf, Hl. auto.
    + eexists. split; [reflexivity|]. simpl. rewrite Hc, Hf, Hl. auto.
Qed.

Lemma resolve_token_cached (c : MCPClient) (w : World) :
  nonempty (customerAccessToken c) = true ->
  resolve_token env c w = (Returned (customerAccessToken c), w).
Proof. intros H. unfold resolve_token. now rewrite H. Qed.

Lemma calls_tool_rpc_request t target toolName toolArgs hs :
  calls_tool target toolName toolArgs
             (rpc_request env t target "tools/call" (call_params toolName toolArgs) hs).
Proof. repeat split. Qed.

(** A customer tool call sends one [tools/call] request to the customer
    endpoint, or none when the token phase failed, and reads the database
    at most once. *)
Lemma callCustomerTool_trace toolName toolArgs (w : World) :
  let w0 := mkWorld (client w) (trace w ++ [calling_customer_log])%list in
  exists d,
    trace (snd (callCustomerTool env toolName toolArgs w)) = (trace w ++ d)%list /\
    forallb client_effect d = true /\
    fetched d =
      match resolve_token env (client w) w0 with
      | (Returned tok, w1) =>
          [rpc_request env (trace w1) (customerMcpEndpoint (client w)) "tools/call"
                       (call_params toolName toolArgs) (auth_headers tok)]
      | (Threw _, _) => []
      end /\
    filter is_token_lookup d =
      (if nonempty (customerAccessToken (client w)) then []
       else [GetCustomerToken (conversationId (client w))]) /\
    client (snd (callCustomerTool env toolName toolArgs w)) =
      client (snd (resolve_token env (client w) w0)).
Proof.
  intros w0. rewrite callCustomerTool_run. fold w0.
  destruct (resolve_token_trace (client w) w0) as (d1 & Ht1 & Hc1 & Hf1 & Hl1).
  destruct (resolve_token env (client w) w0) as [[tok|e] w1]; simpl in Ht1.
  - destruct (call_or_authorize_trace (client w) toolName toolArgs tok w1)
      as (d2 & Ht2 & Hc2 & Hf2 & Hl2 & Hcl).
    destruct (call_or_authorize env (client w) toolName toolArgs tok w1)
      as [[v|e] w2]; simpl in *; rewrite Ht2, Ht1; unfold w0; simpl;
      rewrite <- ?app_assoc; simpl; (eexists; split; [reflexivity|]); simpl;
      rewrite ?forallb_app, ?fetched_app, ?filter_app; simpl;
      rewrite ?forallb_app, ?fetched_app, ?filter_app; simpl;
      rewrite Hc1, Hc2, Hf1, Hf2, Hl1, Hl2; simpl;
      rewrite ?app_nil_r; repeat split; auto;
      now rewrite Ht1, <- app_assoc.
  - simpl. rewrite Ht1. unfold w0. simpl. rewrite <- ?app_assoc. simpl.
    eexists. split; [reflexivity|]. simpl.
    rewrite ?forallb_app, ?fetched_app, ?filter_app. simpl.
    rewrite Hc1, Hf1, Hl1, ?app_nil_r. repeat split; auto.
Qed.

(** When the database answers, the token phase completes. *)
Lemma resolve_token_completes (c : MCPClient) (w : World) :
  (exists r, getCustomerToken env (trace w) (conversationId c) = Returned r) ->
  exists tok w1, resolve_token env c w = (Returned tok, w1).
Proof.
  intros [r Hr]. unfold resolve_token.
  destruct (nonempty (customerAccessToken c)); simpl.
  - unfold ret. eauto.
  - rewrite lookup_token_run, Hr. destruct r as [d|]; [|eauto].
    destruct (nonempty (accessToken d)); eauto.
Qed.

(** The run of [callStorefrontTool], by what the network answers: every
    failure is logged and thrown again. *)
Lemma callStorefrontTool_run toolName toolArgs (w : World) :
  let t0 := (trace w ++ [calling_storefront_log])%list in
  let req := rpc_request env t0 (storefrontMcpEndpoint (client w)) "tools/call"
                         (call_params toolName toolArgs) json_headers in
  let answer := fetch env t0 req in
  let t1 := (t0 ++ Fetch req :: rpc_log env answer)%list in
  callStorefrontTool env toolName toolArgs w =
  match rpc_result env answer with
  | Returned response =>
      match member response "result" with
      | Returned r => (Returned (js_or r response), mkWorld (client w) t1)
      | Threw e =>
          (Threw e, mkWorld (client w) (t1 ++ [calling_error_log toolName])%list)
      end
  | Threw e => (Threw e, mkWorld (client w) (t1 ++ [calling_error_log toolName])%list)
  end.
Proof.
  intros t0 req answer t1.
  unfold callStorefrontTool, try_catch, bind at 1, console at 1, perform at 1.
  unfold bind at 1, this at 1. cbn [client trace fst snd].
  unfold bind at 1.
  rewrite makeJsonRpcRequest_run. cbn [client trace].
  fold calling_storefront_log. fold t0. fold req. fold answer. fold t1.
  destruct (rpc_result env answer) as [response|e].
  - unfold result_or_self, member. run_m.
    destruct (nullish response); reflexivity.
  - reflexivity.
Qed.

Lemma callStorefrontTool_trace toolName toolArgs (w : World) :
  exists d,
    trace (snd (callStorefrontTool env toolName toolArgs w)) = (trace w ++ d)%list /\
    forallb client_effect d = true.
Proof.
  rewrite callStorefrontTool_run.
  set (t0 := (trace w ++ _)%list). set (req := rpc_request _ _ _ _ _ _).
  set (answer := fetch env t0 req).
  pose proof (rpc_log_client env answer) as Hc.
  destruct (rpc_result env answer) as [response|e];
    [destruct (member response "result")|]; simpl; unfold t0;
    rewrite <- ?app_assoc; simpl; (eexists; split; [reflexivity|]); simpl;
    rewrite ?forallb_app, Hc; reflexivity.
Qed.

(** Dispatch performs client effects only: it never calls the LLM and
    never writes to the stream. *)
Lemma callTool_trace toolName toolArgs (w : World) :
  exists d,
    trace (snd (callTool env toolName toolArgs w)) = (trace w ++ d)%list /\
    forallb client_effect d = true.
Proof.
  unfold callTool, bind, this. simpl.
  destruct (advertises (customerTools (client w)) toolName).
  - destruct (callCustomerTool_trace toolName toolArgs w) as (d & Ht & Hc & _ & _ & _).
    now exists d.
  - destruct (advertises (storefrontTools (client w)) toolName).
    + apply callStorefrontTool_trace.
    + exists []. unfold throw. simpl. now rewrite app_nil_r.
Qed.

End DispatchTraces.

Section Recovery.

Variable env : Env.


Lemma unauthorized_response (res : Response) (body : string) :
  res_status res = 401%Z -> text res = Returned body ->
  rpc_result env (Returned res) = Threw (request_failed res body) /\
  status_is (request_failed res body) 401 = true.
Proof.
  intros Hs Ht. unfold rpc_result, ok, status_is. rewrite Ht, Hs. simpl.
  now rewrite Hs.
Qed.

(** A 401 answer turns into the authorization link when the generator
    yields one. *)
Lemma call_or_authorize_unauthorized c toolName toolArgs tok (w : World) res body authUrl :
  (forall t req, endpoint req = customerMcpEndpoint c -> fetch env t req = Returned res) ->
  res_status res = 401%Z -> text res = Returned body ->
  (forall t, generateAuthUrl env t (conversationId c) (shopId c)
             = Returned (mkAuthResponse authUrl)) ->
  exists w',
    call_or_authorize env c toolName toolArgs tok w =
      (Returned (error_result "auth_required" (auth_required_message authUrl)), w') /\
    In (GenerateAuthUrl (conversationId c) (shopId c)) (trace w').
Proof.
  intros Hf Hs Ht Hg. rewrite call_or_authorize_run.
  rewrite Hf by reflexivity.
  destruct (unauthorized_response res body Hs Ht) as [Hr H401].
  rewrite Hr, H401, Hg. eexists. split; [reflexivity|].
  simpl. apply in_or_app. right. simpl. auto.
Qed.

Lemma normalize_threw toolName (r : Completion JsVal * World) e :
  fst r = Threw e -> fst (normalize toolName r) = Returned (internal_error toolName e).
Proof.
  destruct r as [[v'|e'] w']; simpl; congruence.
Qed.

End Recovery.

(** * Dispatch *)

Section Dispatch.

Variable env : Env.

(** C4.  A tool name that neither catalog advertises makes [callTool] throw
    an error naming the tool, and leaves the world as it was: no request is
    sent, no effect of any kind is performed. *)
Theorem callTool_unknown_tool toolName toolArgs (w : World) :
  ~ In (JStr toolName) (map name (customerTools (client w))) ->
  ~ In (JStr toolName) (map name (storefrontTools (client w))) ->
  callTool env toolName toolArgs w =
    (Threw (Error ("Tool " ++ toolName ++ " not found")), w) /\
  fetched (trace (snd (callTool env toolName toolArgs w))) = fetched (trace w).
Proof.
  intros Hc Hs. apply advertises_not_In in Hc. apply advertises_not_In in Hs.
  assert (callTool env toolName toolArgs w =
          (Threw (Error ("Tool " ++ toolName ++ " not found")), w)) as Hrun.
  { unfold callTool, bind, this, throw. simpl. now rewrite Hc, Hs. }
  now rewrite Hrun.
Qed.

(** C2.  A tool name advertised by both catalogs is dispatched to
    [callCustomerTool]: every request sent goes to the customer endpoint as
    a [tools/call] for that tool, none goes to a different storefront
    endpoint, and one request is sent whenever the token phase completes. *)
Theorem callTool_collision_goes_to_customer toolName toolArgs (w : World) :
  In (JStr toolName) (map name (customerTools (client w))) ->
  In (JStr toolName) (map name (storefrontTools (client w))) ->
  callTool env toolName toolArgs w = callCustomerTool env toolName toolArgs w /\
  exists d,
    trace (snd (callTool env toolName toolArgs w)) = (trace w ++ d)%list /\
    Forall (calls_tool (customerMcpEndpoint (client w)) toolName toolArgs) (fetched d) /\
    (storefrontMcpEndpoint (client w) <> customerMcpEndpoint (client w) ->
     Forall (fun req => endpoint req <> storefrontMcpEndpoint (client w)) (fetched d)) /\
    ((forall t, exists r,
         getCustomerToken env t (conversationId (client w)) = Returned r) ->
     List.length (fetched d) = 1).
Proof.
  intros Hc _. split; [now apply callTool_customer|].
  rewrite callTool_customer by assumption.
  destruct (callCustomerTool_trace env toolName toolArgs w) as (d & Ht & _ & Hf & _ & _).
  exists d. split; [exact Ht|].
  set (w0 := mkWorld _ _) in Hf.
  assert (Forall (calls_tool (customerMcpEndpoint (client w)) toolName toolArgs)
                 (fetched d)) as Hcalls.
  { rewrite Hf. destruct (resolve_token env (client w) w0) as [[tok|e] w1];
      [|constructor].
    constructor; [apply calls_tool_rpc_request|constructor]. }
  split; [exact Hcalls|]. split.
  - intros Hne. eapply Forall_impl; [|exact Hcalls].
    intros req [Hep _]. congruence.
  - intros Hdb. rewrite Hf.
    destruct (resolve_token_completes env (client w) w0 (Hdb _)) as (tok & w1 & Hr).
    now rewrite Hr.
Qed.

(** C1.  For a tool of the customer catalog, [callTool] always returns.
    When the customer endpoint answers 401 to the [tools/call] request and
    the generator, asked for this conversation and shop, yields a URL, the
    value returned is the [auth_required] error whose [data] embeds that
    URL. *)
Theorem callTool_unauthorized_asks_for_authorization toolName toolArgs (w : World) :
  In (JStr toolName) (map name (customerTools (client w))) ->
  (exists v, fst (callTool env toolName toolArgs w) = Returned v) /\
  (forall res body authUrl,
      (forall t, exists r,
          getCustomerToken env t (conversationId (client w)) = Returned r) ->
      (forall t req, endpoint req = customerMcpEndpoint (client w) ->
                     fetch env t req = Returned res) ->
      res_status res = 401%Z ->
      text res = Returned body ->
      (forall t, generateAuthUrl env t (conversationId (client w)) (shopId (client w))
                 = Returned (mkAuthResponse authUrl)) ->
      fst (callTool env toolName toolArgs w) =
        Returned (error_result "auth_required"
                    ("You need to authorize the app to access your customer data. "
                     ++ "[Click here to authorize](" ++ authUrl ++ ")")) /\
      In (GenerateAuthUrl (conversationId (client w)) (shopId (client w)))
         (trace (snd (callTool env toolName toolArgs w)))).
Proof.
  intros Hc. rewrite callTool_customer by assumption.
  split; [apply callCustomerTool_returns|].
  intros res body authUrl Hdb Hf Hs Ht Hg.
  rewrite callCustomerTool_run. set (w0 := mkWorld _ _).
  destruct (resolve_token_completes env (client w) w0 (Hdb _)) as (tok & w1 & Hr).
  rewrite Hr.
  destruct (call_or_authorize_unauthorized env (client w) toolName toolArgs tok w1
              res body authUrl Hf Hs Ht Hg) as (w' & Hrun & Hin).
  rewrite Hrun. simpl. split; [reflexivity|exact Hin].
Qed.


End Dispatch.

Lemma callTool_unknown_tool_witness :
  callTool offline_env "delete_everything" JNull (connected "") =
    (Threw (Error "Tool delete_everything not found"), connected "") /\
  fetched (trace (snd (callTool offline_env "delete_everything" JNull (connected "")))) = [].
Proof.
  apply (callTool_unknown_tool offline_env "delete_everything" JNull (connected ""));
    simpl; intuition discriminate.
Defined.

Lemma callTool_collision_goes_to_customer_witness :
  callTool unauthorized_env "lookup_order" JNull (connected "") =
  callCustomerTool unauthorized_env "lookup_order" JNull (connected "").
Proof.
  apply (callTool_collision_goes_to_customer
           unauthorized_env "lookup_order" JNull (connected ""));
    simpl; auto.
Defined.

Lemma callTool_unauthorized_asks_for_authorization_witness :
  fst (callTool unauthorized_env "get_orders" JNull (connected "")) =
  Returned (error_result "auth_required"
              ("You need to authorize the app to access your customer data. "
               ++ "[Click here to authorize]("
               ++ "https://auth.example/authorize?c=conv-1&s=shop-1" ++ ")")).
Proof.
  refine (proj1 (proj2 (callTool_unauthorized_asks_for_authorization
                          unauthorized_env "get_orders" JNull (connected "") _)
                       (mkResponse 401 "Unauthorized" (Returned "token required") None)
                       "token required"
                       "https://auth.example/authorize?c=conv-1&s=shop-1"
                       _ _ _ _ _)).
  - simpl. auto.
  - intros t. exists None. reflexivity.
  - intros t req _. reflexivity.
  - reflexivity.
  - reflexivity.
  - intros t. reflexivity.
Defined.



(** * Slices of a string *)

(** On ASCII text a code unit is a byte. *)
Lemma slice0_ascii (n : nat) (s : string) :
  all_ascii s = true -> slice0 n s = substring 0 n s.
Proof.
  unfold slice0. revert n. induction s as [|c s IH]; intros n Hs.
  - now destruct n.
  - simpl in Hs. apply andb_prop in Hs as [Hc Hs].
    destruct n as [|n]; [reflexivity|].
    cbn [take_units substring]. unfold utf8_width.
    apply Nat.ltb_lt in Hc.
    assert ((nat_of_ascii c <? 192)%nat = true) as -> by (apply Nat.ltb_lt; lia).
    cbn [Nat.eqb Nat.sub]. now rewrite IH.
Qed.

Lemma code_units_high_surrogate (b0 b1 b2 : ascii) :
  code_units (high_surrogate b0 b1 b2) = 1.
Proof.
  unfold high_surrogate.
  set (u := (nat_of_ascii b0 mod 8 * 256 + nat_of_ascii b1 mod 64 * 4
             + nat_of_ascii b2 mod 64 / 16 - 64)%nat).
  assert (u / 64 < 32)%nat as Hhi.
  { apply Nat.Div0.div_lt_upper_bound.
    pose proof (Nat.mod_upper_bound (nat_of_ascii b0) 8 ltac:(discriminate)).
    pose proof (Nat.mod_upper_bound (nat_of_ascii b1) 64 ltac:(discriminate)).
    pose proof (Nat.mod_upper_bound (nat_of_ascii b2) 64 ltac:(discriminate)).
    assert (nat_of_ascii b2 mod 64 / 16 < 4)%nat
      by (apply Nat.Div0.div_lt_upper_bound; lia).
    unfold u. lia. }
  pose proof (Nat.mod_upper_bound u 64 ltac:(discriminate)) as Hlo.
  cbn [code_units]. unfold utf8_width.
  rewrite !nat_ascii_embedding by lia.
  assert ((160 + u / 64 <? 128)%nat = false) as -> by (apply Nat.ltb_ge; lia).
  assert ((192 <=? 160 + u / 64)%nat = false) as -> by (apply Nat.leb_gt; lia).
  assert ((128 + u mod 64 <? 128)%nat = false) as -> by (apply Nat.ltb_ge; lia).
  assert ((192 <=? 128 + u mod 64)%nat = false) as -> by (apply Nat.leb_gt; lia).
  reflexivity.
Qed.

(** A slice of a whole string has [n] code units, or all of them. *)
Lemma take_units_code_units (s : string) : forall n pending,
  well_formed_from pending s = true ->
  code_units (take_units n pending s) = Nat.min n (code_units s).
Proof.
  induction s as [|c s IH]; intros n pending Hwf.
  - simpl. now rewrite Nat.min_0_r.
  - destruct pending as [|p].
    + cbn [well_formed_from] in Hwf. apply andb_prop in Hwf as [Hlead Hwf].
      destruct n as [|n]; [reflexivity|].
      cbn [take_units code_units]. rewrite Hlead.
      destruct (utf8_width c =? 4)%nat eqn:Hw.
      * apply Nat.eqb_eq in Hw. rewrite Hw in Hwf. cbn [Nat.sub] in Hwf.
        destruct n as [|n].
        -- destruct s as [|b1 [|b2 s]]; try discriminate.
           ++ simpl in Hwf. rewrite !andb_false_r in Hwf. discriminate.
           ++ rewrite code_units_high_surrogate. reflexivity.
        -- cbn [code_units]. rewrite Hlead, Hw. cbn [Nat.eqb].
           rewrite (IH n 3 Hwf). lia.
      * cbn [code_units]. rewrite Hlead, Hw. rewrite (IH n _ Hwf). lia.
    + cbn [well_formed_from] in Hwf. apply andb_prop in Hwf as [Hcont Hwf].
      apply andb_prop in Hcont as [Hlo Hhi].
      apply Nat.leb_le in Hlo. apply Nat.ltb_lt in Hhi.
      cbn [take_units code_units].
      assert ((nat_of_ascii c <? 128)%nat = false) as -> by (apply Nat.ltb_ge; lia).
      assert ((192 <=? nat_of_ascii c)%nat = false) as -> by (apply Nat.leb_gt; lia).
      cbn [orb Nat.add]. now apply IH.
Qed.

Lemma slice0_code_units (n : nat) (s : string) :
  well_formed s = true -> code_units (slice0 n s) = Nat.min n (code_units s).
Proof. apply take_units_code_units. Qed.

(** Characters of two bytes count once each: 150 of them are kept whole,
    300 bytes.  A character of four bytes counts twice, and a cut between
    its two code units keeps the first. *)
Lemma slice0_counts_code_units :
  slice0 200 (repeat_string 150 e_acute) = repeat_string 150 e_acute /\
  code_units (repeat_string 150 e_acute) = 150 /\
  String.length (repeat_string 150 e_acute) = 300 /\
  slice0 2 (grinning_face ++ "x") = grinning_face /\
  slice0 1 (grinning_face ++ "x") = lone_D83D /\
  code_units (grinning_face ++ "x") = 3.
Proof. repeat split; vm_compute; reflexivity. Qed.

(** * The JSON-RPC call *)

Section BackendClient.

Variable env : Env.

(** C5, as the code has it.  A response outside 200..299 makes the call
    throw an error whose [status] is the response status and whose message
    holds the status, the status text and the first 200 UTF-16 code units
    of the body, [text.slice(0, 200)].  A response inside 200..299 whose
    body [JSON.parse] rejects makes the call throw the parser's
    [SyntaxError], which has no [status]: the two failures are told apart
    by that property.  Neither returns. *)
Theorem makeJsonRpcRequest_failures endpoint method params headers (w : World) res body :
  fetch env (trace w) (rpc_request env (trace w) endpoint method params headers)
    = Returned res ->
  text res = Returned body ->
  ((res_status res < 200 \/ 299 < res_status res)%Z ->
   exists err,
     fst (_makeJsonRpcRequest env endpoint method params headers w) = Threw err /\
     status err = Some (res_status res) /\
     message err = "Request failed: " ++ string_of_Z (res_status res) ++ " "
                   ++ statusText res ++ " â€” " ++ slice0 200 body) /\
  ((200 <= res_status res <= 299)%Z ->
   forall msg, JSON_parse env body = inr msg ->
   exists err,
     fst (_makeJsonRpcRequest env endpoint method params headers w) = Threw err /\
     status err = None /\
     err_name err = "SyntaxError" /\
     message err = msg).
Proof.
  intros Hf Ht. rewrite makeJsonRpcRequest_run. cbn [fst]. rewrite Hf.
  unfold rpc_result. rewrite Ht. split.
  - intros Hs. assert (ok res = false) as ->.
    { unfold ok. destruct Hs; [apply andb_false_intro1|apply andb_false_intro2];
        apply Z.leb_gt; assumption. }
    eexists. split; [reflexivity|]. split; reflexivity.
  - intros [Hlo Hhi] msg Hp. assert (ok res = true) as ->.
    { unfold ok. apply andb_true_intro. split; apply Z.leb_le; assumption. }
    rewrite Hp. eexists. split; [reflexivity|]. repeat split.
Qed.

End BackendClient.

(** Two different bodies of more than 200 characters give the same error:
    the error does not carry the body. *)
Lemma makeJsonRpcRequest_forgets_long_body :
  long_body "first" <> long_body "second" /\
  fst (_makeJsonRpcRequest
         (server_error_env (long_body "first"))
         storefront_url "tools/list" (JObj []) json_headers (connected "")) =
  fst (_makeJsonRpcRequest
         (server_error_env (long_body "second"))
         storefront_url "tools/list" (JObj []) json_headers (connected "")).
Proof. split; [vm_compute; discriminate|vm_compute; reflexivity]. Qed.

Lemma makeJsonRpcRequest_failures_witness :
  (exists err,
      fst (_makeJsonRpcRequest
             (server_error_env "boom")
         storefront_url "tools/list" (JObj []) json_headers (connected ""))
        = Threw err /\
      status err = Some 500%Z) /\
  (exists err,
      fst (_makeJsonRpcRequest login_page_env storefront_url "tools/list" (JObj [])
                               json_headers (connected ""))
        = Threw err /\
      status err = None).
Proof.
  split.
  - destruct (proj1 (makeJsonRpcRequest_failures
                       (server_error_env "boom")
         storefront_url "tools/list" (JObj []) json_headers (connected "")
                       (mkResponse 500 "Internal Server Error" (Returned "boom") None)
                       "boom" eq_refl eq_refl))
      as (err & Hrun & Hstatus & _); [right; reflexivity|].
    exists err. split; assumption.
  - assert (200 <= 200 <= 299)%Z as Hrange by lia.
    destruct (proj2 (makeJsonRpcRequest_failures
                       login_page_env storefront_url "tools/list" (JObj []) json_headers
                       (connected "")
                       (mkResponse 200 "OK" (Returned "<html>Enter store password</html>")
                                   None)
                       "<html>Enter store password</html>" eq_refl eq_refl)
                    Hrange
                    "Unexpected token in JSON at position 0" eq_refl)
      as (err & Hrun & Hstatus & _).
    exists err. split; assumption.
Defined.

(** * Credential resolution *)

Section Credentials.

Variable env : Env.

Lemma resolve_token_found (c : MCPClient) (w : World) tok :
  nonempty (customerAccessToken c) = false ->
  nonempty tok = true ->
  getCustomerToken env (trace w) (conversationId c) = Returned (Some (mkDbToken tok)) ->
  resolve_token env c w =
    (Returned tok,
     mkWorld (set_customerAccessToken tok (client w))
             (trace w ++ [GetCustomerToken (conversationId c)])%list).
Proof.
  intros Hn Ht Hdb. unfold resolve_token. rewrite Hn. simpl.
  rewrite lookup_token_run, Hdb. simpl. now rewrite Ht.
Qed.

Lemma resolve_token_missing (c : MCPClient) (w : World) r :
  nonempty (customerAccessToken c) = false ->
  found_token r = "" ->
  getCustomerToken env (trace w) (conversationId c) = Returned r ->
  exists w1, resolve_token env c w = (Returned "", w1) /\ client w1 = client w.
Proof.
  intros Hn Hr Hdb. unfold resolve_token. rewrite Hn. simpl.
  rewrite lookup_token_run, Hdb. destruct r as [d|]; [|eauto].
  simpl in Hr. rewrite Hr. simpl. eauto.
Qed.

(** A connect that finds a token in the table stores it on the client,
    whether or not the catalog request then succeeds. *)
Lemma connectToCustomerServer_stores_token (w : World) tok :
  nonempty (conversationId (client w)) = true ->
  nonempty tok = true ->
  (forall t, getCustomerToken env t (conversationId (client w))
             = Returned (Some (mkDbToken tok))) ->
  customerAccessToken (client (snd (connectToCustomerServer env w))) = tok.
Proof.
  intros Hconv Htok Hdb. unfold connectToCustomerServer. run_m.
  rewrite Hconv, lookup_token_run, Hdb. simpl. rewrite Htok. simpl.
  rewrite makeJsonRpcRequest_run. cbn [client trace].
  destruct (rpc_result env _) as [response|e];
    [destruct (_formatToolsData (tools_of_response response))|]; reflexivity.
Qed.

(** C8.  A customer tool call with a cached token does not read the token
    table and sends the cached token.  Without a cached token it reads the
    table once, for the conversation id; a token found there is stored on
    the client, sent as [Authorization: Bearer], and later calls on that
    client read the table no more; when none is found the request carries
    no [Authorization] header and a 401 answer becomes the
    [auth_required] result.  A connect that finds a token stores it in the
    same field. *)
Theorem callCustomerTool_resolves_token_lazily toolName toolArgs (w : World) :
  exists d,
    trace (snd (callCustomerTool env toolName toolArgs w)) = (trace w ++ d)%list /\
    (nonempty (customerAccessToken (client w)) = true ->
     filter is_token_lookup d = [] /\
     customerAccessToken (client (snd (callCustomerTool env toolName toolArgs w)))
       = customerAccessToken (client w) /\
     exists req,
       fetched d = [req] /\
       headers req = [("Content-Type", "application/json");
                      ("Authorization", "Bearer " ++ customerAccessToken (client w))]) /\
    (nonempty (customerAccessToken (client w)) = false ->
     filter is_token_lookup d = [GetCustomerToken (conversationId (client w))] /\
     (forall tok,
         nonempty tok = true ->
         (forall t, getCustomerToken env t (conversationId (client w))
                    = Returned (Some (mkDbToken tok))) ->
         customerAccessToken (client (snd (callCustomerTool env toolName toolArgs w)))
           = tok /\
         (exists req,
             fetched d = [req] /\
             headers req = [("Content-Type", "application/json");
                            ("Authorization", "Bearer " ++ tok)]) /\
         (forall toolName' toolArgs',
             exists d',
               trace (snd (callCustomerTool env toolName' toolArgs'
                             (snd (callCustomerTool env toolName toolArgs w))))
                 = (trace (snd (callCustomerTool env toolName toolArgs w)) ++ d')%list /\
               filter is_token_lookup d' = [])) /\
     (forall r,
         found_token r = "" ->
         (forall t, getCustomerToken env t (conversationId (client w)) = Returned r) ->
         (exists req,
             fetched d = [req] /\
             headers req = [("Content-Type", "application/json")]) /\
         (forall res body authUrl,
             (forall t req, endpoint req = customerMcpEndpoint (client w) ->
                            fetch env t req = Returned res) ->
             res_status res = 401%Z ->
             text res = Returned body ->
             (forall t, generateAuthUrl env t (conversationId (client w))
                                        (shopId (client w))
                        = Returned (mkAuthResponse authUrl)) ->
             fst (callCustomerTool env toolName toolArgs w) =
               Returned (error_result "auth_required" (auth_required_message authUrl))))) /\
    (forall tok,
        nonempty (conversationId (client w)) = true ->
        nonempty tok = true ->
        (forall t, getCustomerToken env t (conversationId (client w))
                   = Returned (Some (mkDbToken tok))) ->
        customerAccessToken (client (snd (connectToCustomerServer env w))) = tok).
Proof.
  destruct (callCustomerTool_trace env toolName toolArgs w)
    as (d & Ht & _ & Hf & Hl & Hcl).
  set (w0 := mkWorld (client w) (trace w ++ [calling_customer_log])%list) in *.
  exists d. split; [exact Ht|].
  split; [|split; [|apply connectToCustomerServer_stores_token]].
  - intros Hcached. rewrite Hcached in Hl. split; [exact Hl|].
    rewrite resolve_token_cached in Hf, Hcl by assumption.
    split; [now rewrite Hcl|]. eexists. split; [exact Hf|].
    unfold rpc_request, auth_headers. simpl. now rewrite Hcached.
  - intros Hnone. rewrite Hnone in Hl. split; [exact Hl|]. split.
    + intros tok Htok Hdb.
      rewrite (resolve_token_found (client w) w0 tok Hnone Htok (Hdb _)) in Hf, Hcl.
      simpl in Hcl. split; [now rewrite Hcl|]. split.
      * eexists. split; [exact Hf|].
        unfold rpc_request, auth_headers. simpl. now rewrite Htok.
      * intros toolName' toolArgs'.
        destruct (callCustomerTool_trace env toolName' toolArgs'
                    (snd (callCustomerTool env toolName toolArgs w)))
          as (d' & Ht' & _ & _ & Hl' & _).
        exists d'. split; [exact Ht'|].
        rewrite Hcl in Hl'. simpl in Hl'. now rewrite Htok in Hl'.
    + intros r Hr Hdb.
      destruct (resolve_token_missing (client w) w0 r Hnone Hr (Hdb _))
        as (w1 & Hres & Hc1).
      rewrite Hres in Hf. split.
      * eexists. split; [exact Hf|]. reflexivity.
      * intros res body authUrl Hfetch Hs Htext Hg.
        rewrite callCustomerTool_run. fold w0. rewrite Hres.
        destruct (call_or_authorize_unauthorized env (client w) toolName toolArgs ""
                    w1 res body authUrl Hfetch Hs Htext Hg) as (w' & Hrun & _).
        now rewrite Hrun.
Qed.

End Credentials.

Lemma callCustomerTool_resolves_token_lazily_witness :
  customerAccessToken
    (client (snd (callCustomerTool stored_token_env "get_orders" JNull (connected ""))))
    = "shpat_1" /\
  fst (callCustomerTool unauthorized_env "get_orders" JNull (connected "")) =
    Returned (error_result "auth_required"
                (auth_required_message
                   "https://auth.example/authorize?c=conv-1&s=shop-1")).
Proof.
  split.
  - destruct (callCustomerTool_resolves_token_lazily
                stored_token_env "get_orders" JNull (connected ""))
      as (d & _ & _ & Hnone & _).
    destruct (Hnone eq_refl) as (_ & Hfound & _).
    exact (proj1 (Hfound "shpat_1" eq_refl (fun _ => eq_refl))).
  - destruct (callCustomerTool_resolves_token_lazily
                unauthorized_env "get_orders" JNull (connected ""))
      as (d & _ & _ & Hnone & _).
    destruct (Hnone eq_refl) as (_ & _ & Hmissing).
    destruct (Hmissing None eq_refl (fun _ => eq_refl)) as (_ & H401).
    exact (H401 (mkResponse 401 "Unauthorized" (Returned "token required") None)
                "token required" "https://auth.example/authorize?c=conv-1&s=shop-1"
                (fun _ _ _ => eq_refl) eq_refl eq_refl (fun _ => eq_refl)).
Defined.

(** * Catalogs *)

Section Catalogs.

Variable env : Env.

Lemma map_tools_shape (l : list JsVal) (ts : list Tool) :
  map_tools l = Returned ts ->
  List.length ts = List.length l /\
  map name ts = map (fun tool => prop tool "name") l /\
  map description ts = map (fun tool => prop tool "description") l /\
  map input_schema ts = map schema_of l.
Proof.
  revert ts. induction l as [|tool l IH]; intros ts; simpl.
  - intros [= <-]. repeat split.
  - unfold format_tool. destruct (nullish tool); [discriminate|].
    destruct (map_tools l) as [ts'|e]; [|discriminate].
    intros [= <-]. destruct (IH ts' eq_refl) as (Hlen & Hn & Hd & Hs).
    simpl. now rewrite Hlen, Hn, Hd, Hs.
Qed.

Lemma formatToolsData_shape (toolsData : JsVal) (ts : list Tool) :
  _formatToolsData toolsData = Returned ts ->
  exists l,
    toolsData = JArr l /\
    List.length ts = List.length l /\
    map name ts = map (fun tool => prop tool "name") l /\
    map description ts = map (fun tool => prop tool "description") l /\
    map input_schema ts = map schema_of l.
Proof.
  destruct toolsData; simpl; try discriminate.
  intros H. exists elems. split; [reflexivity|]. now apply map_tools_shape.
Qed.

Lemma connectToStorefrontServer_effect (w : World) :
  connect_effect StorefrontBackend (client w) (connectToStorefrontServer env w).
Proof.
  unfold connectToStorefrontServer, try_catch, bind at 1, this at 1.
  unfold bind at 1, console at 1, perform at 1. unfold bind at 1.
  rewrite makeJsonRpcRequest_run. cbn [client trace].
  destruct (rpc_result env _) as [response|e].
  - run_m. destruct (_formatToolsData (tools_of_response response)) as [ts|e] eqn:Hfmt.
    + simpl. repeat split; eauto.
      intros [|]; simpl; congruence.
    + simpl. auto.
  - run_m. auto.
Qed.

Lemma lookup_token_catalogs (c : MCPClient) (w : World) :
  tools (client (snd (lookup_token env c w))) = tools (client w) /\
  forall b, catalog_of b (client (snd (lookup_token env c w))) = catalog_of b (client w).
Proof.
  rewrite lookup_token_run.
  destruct (getCustomerToken env (trace w) (conversationId c)) as [[d|]|e];
    [destruct (nonempty (accessToken d))| |]; simpl; split; auto; intros [|]; auto.
Qed.

Lemma connectToCustomerServer_effect (w : World) :
  connect_effect CustomerBackend (client w) (connectToCustomerServer env w).
Proof.
  unfold connectToCustomerServer. run_m.
  destruct (nonempty (conversationId (client w))).
  - rewrite lookup_token_run. simpl.
    destruct (getCustomerToken env _ _) as [[d|]|e];
      [destruct (nonempty (accessToken d))| |]; simpl.
    all: try (rewrite makeJsonRpcRequest_run; cbn [client trace];
              destruct (rpc_result env _) as [response|e'];
              [destruct (_formatToolsData (tools_of_response response))
                 as [ts|e''] eqn:Hfmt|]).
    all: simpl; repeat split; eauto; try (intros [|]; simpl; congruence).
  - rewrite makeJsonRpcRequest_run; cbn [client trace].
    destruct (rpc_result env _) as [response|e'];
      [destruct (_formatToolsData (tools_of_response response))
         as [ts|e''] eqn:Hfmt|].
    all: simpl; repeat split; eauto; try (intros [|]; simpl; congruence).
Qed.

Lemma connect_effect_holds (b : Backend) (w : World) :
  connect_effect b (client w) (connect env b w).
Proof.
  destruct b; [apply connectToCustomerServer_effect|apply connectToStorefrontServer_effect].
Qed.

(** The state of the catalogs after a sequence of connect calls. *)
Lemma connect_each_catalogs (bs : list Backend) (w : World) :
  map fst (fst (connect_each env bs w)) = bs /\
  tools (client (snd (connect_each env bs w))) =
    (tools (client w) ++ List.concat (returned_catalogs (fst (connect_each env bs w))))%list /\
  (forall b,
      catalog_of b (client (snd (connect_each env bs w))) =
      latest_catalog b (fst (connect_each env bs w)) (catalog_of b (client w))) /\
  Forall (fun catalog =>
            exists response,
              _formatToolsData (tools_of_response response) = Returned catalog)
         (returned_catalogs (fst (connect_each env bs w))).
Proof.
  revert w. induction bs as [|b bs IH]; intros w; simpl.
  - rewrite app_nil_r. repeat split; auto.
  - pose proof (connect_effect_holds b w) as Hb.
    destruct (connect env b w) as [[catalog|e] w1]; simpl in Hb;
      destruct (IH w1) as (Hfst & Htools & Hcat & Hfmt);
      destruct (connect_each env bs w1) as [calls w2]; simpl in *.
    + destruct Hb as (Ht & Hown & Hother & Hresp).
      split; [now rewrite Hfst|]. split; [now rewrite Htools, Ht, <- app_assoc|].
      split; [|now constructor].
      intros b'. rewrite Hcat. f_equal.
      destruct (same_backend b' b) eqn:Hsame.
      * destruct b', b; simpl in Hsame; try discriminate; exact Hown.
      * now apply Hother.
    + destruct Hb as (Ht & Hsame).
      split; [now rewrite Hfst|]. split; [now rewrite Htools, Ht|].
      split; [|exact Hfmt]. intros b'. now rewrite Hcat, Hsame.
Qed.

(** C10.  After any sequence of connect calls on one client, the merged
    list is what it was before followed by the catalogs that the successful
    calls returned, in call order, while each per-backend field holds the
    catalog most recently returned for that backend.  Nothing is removed or
    reordered, and connecting twice to one backend appends its tools
    twice. *)
Theorem connect_calls_accumulate (bs : list Backend) (w : World) :
  tools (client (snd (connect_each env bs w))) =
    (tools (client w) ++ List.concat (returned_catalogs (fst (connect_each env bs w))))%list /\
  (forall b,
      catalog_of b (client (snd (connect_each env bs w))) =
      latest_catalog b (fst (connect_each env bs w)) (catalog_of b (client w))) /\
  (forall b catalog1 catalog2 w1 w2,
      connect env b w = (Returned catalog1, w1) ->
      connect env b w1 = (Returned catalog2, w2) ->
      tools (client w2) = (tools (client w) ++ catalog1 ++ catalog2)%list /\
      catalog_of b (client w2) = catalog2).
Proof.
  destruct (connect_each_catalogs bs w) as (_ & Htools & Hcat & _).
  split; [exact Htools|]. split; [exact Hcat|].
  intros b catalog1 catalog2 w1 w2 H1 H2.
  pose proof (connect_effect_holds b w) as E1. rewrite H1 in E1.
  pose proof (connect_effect_holds b w1) as E2. rewrite H2 in E2.
  simpl in E1, E2. destruct E1 as (T1 & _). destruct E2 as (T2 & C2 & _).
  split; [now rewrite T2, T1, <- app_assoc|exact C2].
Qed.

(** The run of [connectToCustomerServer], by what the database and the
    network answer. *)
Lemma connectToCustomerServer_run (w : World) :
  let w0 := mkWorld (client w)
              (trace w ++ [Console LogLevel ("Connecting to MCP server at "
                                             ++ customerMcpEndpoint (client w))])%list in
  connectToCustomerServer env w =
  match (if nonempty (conversationId (client w))
         then lookup_token env (client w) w0
         else (Returned "", w0)) with
  | (Threw e, w1) =>
      (Threw e, mkWorld (client w1) (trace w1 ++ [connect_failed_log])%list)
  | (Returned _, w1) =>
      let req := rpc_request env (trace w1) (customerMcpEndpoint (client w1))
                   "tools/list" (JObj []) (auth_headers (customerAccessToken (client w1))) in
      let answer := fetch env (trace w1) req in
      let t2 := (trace w1 ++ Fetch req :: rpc_log env answer)%list in
      match rpc_result env answer with
      | Threw e => (Threw e, mkWorld (client w1) (t2 ++ [connect_failed_log])%list)
      | Returned response =>
          match _formatToolsData (tools_of_response response) with
          | Threw e => (Threw e, mkWorld (client w1) (t2 ++ [connect_failed_log])%list)
          | Returned ts =>
              (Returned ts,
               mkWorld (set_tools (tools (client w1) ++ ts)%list
                                  (set_customerTools ts (client w1))) t2)
          end
      end
  end.
Proof.
  intros w0. unfold w0, connectToCustomerServer. run_m.
  destruct (nonempty (conversationId (client w))).
  - rewrite !lookup_token_run.
    destruct (getCustomerToken env _ _) as [[d|]|e];
      [destruct (nonempty (accessToken d))| |]; simpl; try reflexivity;
      rewrite makeJsonRpcRequest_run; unfold rpc_request; simpl;
      (destruct (rpc_result env _) as [response|e']; [|reflexivity]);
      destruct (_formatToolsData (tools_of_response response)); reflexivity.
  - rewrite makeJsonRpcRequest_run; unfold rpc_request; simpl.
    destruct (rpc_result env _) as [response|e']; [|reflexivity].
    destruct (_formatToolsData (tools_of_response response)); reflexivity.
Qed.

Lemma map_tools_descriptors (l : list JsVal) :
  forallb (fun tool => negb (nullish tool)) l = true ->
  map_tools l = Returned (map descriptor_of l).
Proof.
  induction l as [|tool l IH]; [reflexivity|]. simpl.
  intros H. apply andb_prop in H as [Htool Hl].
  unfold format_tool. destruct (nullish tool); [discriminate|].
  now rewrite (IH Hl).
Qed.

Lemma listed_tools_of_response (response : JsVal) (l : list JsVal) :
  prop (prop response "result") "tools" = JArr l ->
  tools_of_response response = JArr l.
Proof.
  intros H. unfold tools_of_response. rewrite H.
  destruct response; try discriminate.
  simpl in *. destruct (lookup_field "result" fields); try discriminate.
  reflexivity.
Qed.

(** The catalog request of either backend, answered as [lists_tools] says. *)
Lemma listed_catalog target advertised (t : list Effect) hs :
  lists_tools env target advertised ->
  let answer := fetch env t (rpc_request env t target "tools/list" (JObj []) hs) in
  rpc_log env answer = [] /\
  exists response,
    rpc_result env answer = Returned response /\
    _formatToolsData (tools_of_response response) = Returned (map descriptor_of advertised).
Proof.
  intros (res & text_body & response & Hfetch & Htext & Hok & Hparse & Hlist & Hnn) answer.
  unfold answer. rewrite Hfetch by reflexivity.
  unfold rpc_log, rpc_result. rewrite Htext, Hok, Hparse.
  split; [reflexivity|]. exists response. split; [reflexivity|].
  rewrite (listed_tools_of_response _ _ Hlist). simpl.
  now apply map_tools_descriptors.
Qed.

Lemma connect_lists (b : Backend) (w : World) advertised :
  lists_tools env (endpoint_of b (client w)) advertised ->
  (forall t, exists r, getCustomerToken env t (conversationId (client w)) = Returned r) ->
  exists w',
    connect env b w = (Returned (map descriptor_of advertised), w') /\
    same_address (client w') (client w).
Proof.
  intros Hlist Hdb. destruct b; simpl in *.
  - rewrite connectToCustomerServer_run. cbv zeta.
    set (w0 := mkWorld _ _).
    assert (exists tok w1,
               (if nonempty (conversationId (client w))
                then lookup_token env (client w) w0
                else (Returned "", w0)) = (Returned tok, w1) /\
               same_address (client w1) (client w)) as (tok & w1 & -> & Hsame).
    { destruct (nonempty (conversationId (client w))).
      - rewrite lookup_token_run. destruct (Hdb (trace w0)) as [r ->].
        destruct r as [d|]; [destruct (nonempty (accessToken d))|];
          do 2 eexists; (split; [reflexivity|]); repeat split.
      - do 2 eexists. split; [reflexivity|]. repeat split. }
    destruct Hsame as (Hconv & Hst & Hcu). rewrite <- Hcu in Hlist.
    destruct (listed_catalog _ _ (trace w1)
                (auth_headers (customerAccessToken (client w1))) Hlist)
      as (Hlog & response & -> & ->).
    eexists. split; [reflexivity|]. simpl. repeat split; assumption.
  - unfold connectToStorefrontServer, try_catch, bind at 1, this at 1.
    unfold bind at 1, console at 1, perform at 1. unfold bind at 1.
    rewrite makeJsonRpcRequest_run. cbn [client trace].
    destruct (listed_catalog _ _
                (trace w ++ [Console LogLevel ("Connecting to MCP server at "
                                               ++ storefrontMcpEndpoint (client w))])%list
                json_headers Hlist) as (Hlog & response & Hres & Hfmt).
    cbv zeta in Hlog, Hres. rewrite Hres. run_m. rewrite Hfmt. simpl.
    eexists. split; [reflexivity|]. repeat split.
Qed.

Lemma connect_each_lists (advertised : Backend -> list JsVal) (bs : list Backend) :
  forall w : World,
    (forall b, In b bs -> lists_tools env (endpoint_of b (client w)) (advertised b)) ->
    (forall t, exists r, getCustomerToken env t (conversationId (client w)) = Returned r) ->
    returned_catalogs (fst (connect_each env bs w))
      = map (fun b => map descriptor_of (advertised b)) bs.
Proof.
  induction bs as [|b bs IH]; intros w Hlist Hdb; [reflexivity|]. simpl.
  destruct (connect_lists b w _ (Hlist b (or_introl eq_refl)) Hdb)
    as (w1 & Hrun & Hconv & Hst & Hcu).
  rewrite Hrun.
  assert (returned_catalogs (fst (connect_each env bs w1))
          = map (fun b => map descriptor_of (advertised b)) bs) as Hrest.
  { apply IH.
    - intros b' Hin. specialize (Hlist b' (or_intror Hin)).
      destruct b'; simpl in *; congruence.
    - intros t. rewrite Hconv. apply Hdb. }
  destruct (connect_each env bs w1) as [calls w2]. simpl in *. now rewrite Hrest.
Qed.

(** C9.  On a new client, after connecting at most once to each backend,
    the merged list is the concatenation of the returned catalogs, so its
    size is the sum of their sizes and of the two per-backend fields: no
    name is dropped, whether or not the catalogs share names.  When each
    backend answers its [tools/list] request with an array of tools, the
    catalog returned for it has one descriptor for each element of that
    array, in the order of the array, with [name] and [description] as
    advertised and [input_schema] read from [inputSchema] or else from
    [input_schema]; the merged list then has as many tools as the arrays
    together. *)
Theorem merged_catalog_size conv shop storefront customer (t : list Effect)
        (bs : list Backend) :
  NoDup bs ->
  let run := connect_each env bs (mkWorld (new_MCPClient conv shop storefront customer) t) in
  tools (client (snd run)) = List.concat (returned_catalogs (fst run)) /\
  List.length (tools (client (snd run))) =
    list_sum (map (@List.length Tool) (returned_catalogs (fst run))) /\
  List.length (tools (client (snd run))) =
    List.length (customerTools (client (snd run))) +
    List.length (storefrontTools (client (snd run))) /\
  (forall advertised : Backend -> list JsVal,
      (forall b, In b bs ->
                 lists_tools env (endpoint_of b (new_MCPClient conv shop storefront customer))
                             (advertised b)) ->
      (forall t', exists r, getCustomerToken env t' conv = Returned r) ->
      returned_catalogs (fst run) =
        map (fun b =>
               map (fun tool =>
                      mkTool (prop tool "name") (prop tool "description")
                             (js_or (prop tool "inputSchema") (prop tool "input_schema")))
                   (advertised b)) bs /\
      List.length (tools (client (snd run))) =
        list_sum (map (fun b => List.length (advertised b)) bs)).
Proof.
  intros Hnodup run.
  destruct (connect_each_catalogs bs (mkWorld (new_MCPClient conv shop storefront customer) t))
    as (Hfst & Htools & Hcat & Hfmt).
  fold run in Hfst, Htools, Hcat, Hfmt. simpl in Htools.
  pose proof (Hcat CustomerBackend) as Hc. pose proof (Hcat StorefrontBackend) as Hs.
  simpl in Hc, Hs.
  assert (List.length (tools (client (snd run))) =
          list_sum (map (@List.length Tool) (returned_catalogs (fst run)))) as Hsum.
  { rewrite Htools. clear. induction (returned_catalogs (fst run)) as [|c cs IH];
      [reflexivity|]. simpl. now rewrite length_app, IH. }
  split; [exact Htools|]. split; [exact Hsum|]. split.
  - rewrite Htools, Hc, Hs. clear Htools Hc Hs Hcat Hfmt Hsum.
    destruct (fst run) as [|[b1 r1] [|[b2 r2] [|[b3 r3] calls]]]; simpl in Hfst.
    + reflexivity.
    + destruct r1; simpl; rewrite ?app_nil_r; destruct b1; simpl; lia.
    + subst bs. inversion Hnodup as [|? ? Hnotin _]; subst.
      destruct b1, b2; simpl in Hnotin; try (exfalso; tauto);
        destruct r1, r2; simpl; rewrite ?app_nil_r, ?length_app; simpl; lia.
    + subst bs. exfalso.
      inversion Hnodup as [|? ? N1 Hrest]; subst.
      inversion Hrest as [|? ? N2 _]; subst.
      destruct b1, b2, b3; simpl in N1, N2; tauto.
  - intros advertised Hlist Hdb.
    pose proof (connect_each_lists advertised bs
                  (mkWorld (new_MCPClient conv shop storefront customer) t) Hlist Hdb)
      as Hret.
    fold run in Hret. split; [exact Hret|].
    rewrite Hsum, Hret, map_map. f_equal. apply map_ext. intros b.
    apply length_map.
Qed.

End Catalogs.

(** Both backends advertise [get_orders]: the merged list holds it twice. *)
Lemma merged_catalog_size_witness :
  let c :=
    client (snd (connect_each same_name_env [StorefrontBackend; CustomerBackend] fresh)) in
  List.length (tools c) =
    List.length (customerTools c) + List.length (storefrontTools c) /\
  List.length (tools c) = 2.
Proof.
  cbv zeta.
  assert (NoDup [StorefrontBackend; CustomerBackend]) as Hnodup.
  { repeat constructor; simpl; intuition discriminate. }
  destruct (merged_catalog_size same_name_env "conv-1" "shop-1" storefront_url customer_url
                                [] [StorefrontBackend; CustomerBackend] Hnodup)
    as (_ & _ & Hfields & Hlisted).
  split; [exact Hfields|].
  refine (proj2 (Hlisted (fun _ => [JObj [("name", JStr "get_orders")]]) _ _)).
  - intros b _.
    exists (mkResponse 200 "OK" (Returned (catalog_json "get_orders")) None),
           (catalog_json "get_orders"), (catalog_value "get_orders").
    repeat split; reflexivity.
  - intros t'. exists None. reflexivity.
Defined.

(** Connecting twice to the storefront backend lists its tool twice. *)
Lemma connect_calls_accumulate_witness :
  let c :=
    client (snd (connect_each both_up_env [StorefrontBackend; StorefrontBackend] fresh)) in
  tools c = [mkTool (JStr "search_shop_catalog") JUndefined JUndefined;
             mkTool (JStr "search_shop_catalog") JUndefined JUndefined] /\
  storefrontTools c = [mkTool (JStr "search_shop_catalog") JUndefined JUndefined].
Proof.
  cbv zeta.
  destruct (connect_calls_accumulate
              both_up_env [StorefrontBackend; StorefrontBackend] fresh)
    as (Htools & Hcat & _).
  split; [exact Htools|exact (Hcat StorefrontBackend)].
Defined.

(** * Effects of the callbacks *)

Section Emits.

Variable env : Env.

Lemma emits_ret {A} P (a : A) : emits P (ret a).
Proof. intros w. exists []. simpl. now rewrite app_nil_r. Qed.

Lemma emits_throw {A} P e : emits P (@throw A e).
Proof. intros w. exists []. simpl. now rewrite app_nil_r. Qed.

Lemma emits_lift {A} P (c : Completion A) : emits P (lift c).
Proof. intros w. exists []. simpl. now rewrite app_nil_r. Qed.

Lemma emits_this P : emits P this.
Proof. intros w. exists []. simpl. now rewrite app_nil_r. Qed.

Lemma emits_update P f : emits P (update f).
Proof. intros w. exists []. simpl. now rewrite app_nil_r. Qed.

Lemma emits_perform {A} (P : Effect -> bool) e (answer : list Effect -> Completion A) :
  P e = true -> emits P (perform e answer).
Proof. intros He w. exists [e]. simpl. now rewrite He. Qed.

Lemma emits_bind {A B} P (m : M A) (k : A -> M B) :
  emits P m -> (forall a, emits P (k a)) -> emits P (bind m k).
Proof.
  intros Hm Hk w. unfold bind. destruct (Hm w) as (d1 & Ht1 & Hp1).
  destruct (m w) as [[a|e] w1]; simpl in *.
  - destruct (Hk a w1) as (d2 & Ht2 & Hp2). exists (d1 ++ d2)%list.
    now rewrite Ht2, Ht1, app_assoc, forallb_app, Hp1, Hp2.
  - now exists d1.
Qed.

Lemma emits_try_catch {A} P (body : M A) (handler : JsError -> M A) :
  emits P body -> (forall e, emits P (handler e)) -> emits P (try_catch body handler).
Proof.
  intros Hm Hk w. unfold try_catch. destruct (Hm w) as (d1 & Ht1 & Hp1).
  destruct (body w) as [[a|e] w1]; simpl in *.
  - now exists d1.
  - destruct (Hk e w1) as (d2 & Ht2 & Hp2). exists (d1 ++ d2)%list.
    now rewrite Ht2, Ht1, app_assoc, forallb_app, Hp1, Hp2.
Qed.

Lemma emits_weaken {A} (P Q : Effect -> bool) (m : M A) :
  (forall e, P e = true -> Q e = true) -> emits P m -> emits Q m.
Proof.
  intros HPQ Hm w. destruct (Hm w) as (d & Ht & Hp). exists d. split; [exact Ht|].
  rewrite forallb_forall in *. auto.
Qed.

Lemma callTool_emits toolName toolArgs :
  emits client_effect (callTool env toolName toolArgs).
Proof. intros w. apply callTool_trace. Qed.

Lemma sendMessages_emits P (evs : list JsVal) :
  (forall ev, P (SendMessage ev) = true) -> emits P (sendMessages evs).
Proof.
  intros HP. induction evs as [|ev evs IH]; simpl.
  - apply emits_ret.
  - apply emits_bind; [apply emits_perform, HP|intros _; exact IH].
Qed.

End Emits.

(** * The conversation loop *)

Section Loop.

Variable env : Env.
Variable sessionId : string.
Variable promptVariant : string.

Lemma llm_calls_app (a b : list Effect) :
  llm_calls (a ++ b) = (llm_calls a ++ llm_calls b)%list.
Proof.
  induction a as [|e a IH]; [reflexivity|].
  destruct e; simpl; now rewrite IH.
Qed.

Lemma no_llm_calls (d : list Effect) :
  forallb not_llm_call d = true ->
  llm_calls d = [] /\ count_effects is_llm_call d = 0.
Proof.
  unfold count_effects. induction d as [|e d IH]; [auto|]. simpl.
  intros H. apply andb_prop in H as [He Hd]. destruct (IH Hd) as [IH1 IH2].
  destruct e; simpl in *; try discriminate; auto.
Qed.


Lemma client_effect_not_llm e : client_effect e = true -> not_llm_call e = true.
Proof. destruct e; simpl; auto; discriminate. Qed.

Lemma plain_effect_not_llm e : plain_effect e = true -> not_llm_call e = true.
Proof. destruct e; simpl; auto; discriminate. Qed.


Lemma onToolUse_emits c l : emits not_llm_call (onToolUse env sessionId c l).
Proof.
  unfold onToolUse.
  apply emits_bind; [now apply emits_perform|intros _].
  apply emits_bind;
    [eapply emits_weaken; [apply client_effect_not_llm|apply callTool_emits]|].
  intros toolUseResponse. apply emits_bind; [apply emits_lift|intros isError].
  apply emits_bind.
  - destruct (truthy isError).
    + apply emits_bind; [now apply emits_perform|intros r].
      apply emits_bind; [now apply sendMessages_emits|intros _; apply emits_ret].
    + apply emits_bind; [now apply emits_perform|intros r; apply emits_ret].
  - intros l'. apply emits_bind; [now apply emits_perform|intros _; apply emits_ret].
Qed.

Lemma onText_emits textDelta : emits plain_effect (onText textDelta).
Proof. now apply emits_perform. Qed.

Lemma onMessage_emits msg l : emits plain_effect (onMessage env sessionId msg l).
Proof.
  unfold onMessage. apply emits_bind; [now apply emits_perform|].
  intros _. apply emits_bind; [now apply emits_perform|intros _; apply emits_ret].
Qed.

Lemma onContentBlock_emits contentBlock : emits plain_effect (onContentBlock contentBlock).
Proof.
  unfold onContentBlock. destruct (strict_eq_str _ _); [|apply emits_ret].
  now apply emits_perform.
Qed.

Lemma run_callback_emits cb l : emits not_llm_call (run_callback env sessionId cb l).
Proof.
  destruct cb; simpl.
  - eapply emits_weaken; [apply plain_effect_not_llm|].
    apply emits_bind; [apply onText_emits|intros _; apply emits_ret].
  - eapply emits_weaken; [apply plain_effect_not_llm|apply onMessage_emits].
  - apply onToolUse_emits.
  - eapply emits_weaken; [apply plain_effect_not_llm|].
    apply emits_bind; [apply onContentBlock_emits|intros _; apply emits_ret].
Qed.

Lemma run_callbacks_emits cbs l : emits not_llm_call (run_callbacks env sessionId cbs l).
Proof.
  revert l. induction cbs as [|cb cbs IH]; intros l; simpl.
  - apply emits_ret.
  - apply emits_bind; [apply run_callback_emits|intros l'; apply IH].
Qed.


(** One pass through the loop body, by what the provider answers. *)
Lemma iteration_run l (w : World) :
  let req := mkLlmRequest (conversationHistory l) promptVariant (tools (client w)) in
  let script := streamConversation env (trace w) req in
  let w0 := mkWorld (client w) (trace w ++ [StreamConversation req script])%list in
  iteration env sessionId promptVariant l w =
  match run_callbacks env sessionId (callbacks script) l w0 with
  | (Returned l', w1) =>
      (match final script with
       | Returned finalMessage => Returned (finalMessage, l')
       | Threw e => Threw e
       end, w1)
  | (Threw e, w1) => (Threw e, w1)
  end.
Proof.
  intros req script w0. unfold iteration. run_m. fold req script w0.
  destruct (run_callbacks env sessionId (callbacks script) l w0) as [[l'|e] w1];
    [|reflexivity].
  destruct (final script); reflexivity.
Qed.

(** The loop body calls the LLM once, with the history and the merged
    catalog of the client as they stand. *)
Lemma iteration_calls l (w : World) :
  let req := mkLlmRequest (conversationHistory l) promptVariant (tools (client w)) in
  exists d,
    trace (snd (iteration env sessionId promptVariant l w)) = (trace w ++ d)%list /\
    llm_calls d = [(req, streamConversation env (trace w) req)].
Proof.
  intros req. rewrite iteration_run. fold req.
  set (script := streamConversation env (trace w) req).
  set (w0 := mkWorld _ _).
  destruct (run_callbacks_emits (callbacks script) l w0) as (d & Ht & Hd).
  apply no_llm_calls in Hd as [Hd _].
  exists (StreamConversation req script :: d).
  destruct (run_callbacks env sessionId (callbacks script) l w0) as [[l'|e] w1];
    simpl in *; rewrite Ht, <- app_assoc; simpl; now rewrite Hd.
Qed.










End Loop.



(** * Catalog discovery in a session *)

Section Discovery.

Variable env : Env.
Variable userMessage : string.
Variable sessionId : string.
Variable promptVariant : string.
Variable ENABLE_CUSTOMER_MCP : bool.
Variable discoveredEndpoint : option string.

#[local] Abbreviation enabled :=
  (customer_mcp_enabled ENABLE_CUSTOMER_MCP discoveredEndpoint).
#[local] Abbreviation discover :=
  (connect_servers env ENABLE_CUSTOMER_MCP discoveredEndpoint).

Lemma makeJsonRpcRequest_emits endpoint method params headers :
  emits client_effect (_makeJsonRpcRequest env endpoint method params headers).
Proof.
  intros w. rewrite makeJsonRpcRequest_run. eexists. split; [reflexivity|].
  simpl. apply rpc_log_client.
Qed.

Lemma connectToStorefrontServer_emits :
  emits client_effect (connectToStorefrontServer env).
Proof.
  unfold connectToStorefrontServer. apply emits_try_catch.
  - apply emits_bind; [apply emits_this|intros c].
    apply emits_bind; [now apply emits_perform|intros _].
    apply emits_bind; [apply makeJsonRpcRequest_emits|intros response].
    apply emits_bind; [apply emits_lift|intros ts].
    apply emits_bind; [apply emits_update|intros _].
    apply emits_bind; [apply emits_update|intros _].
    apply emits_ret.
  - intros e. apply emits_bind; [now apply emits_perform|intros _; apply emits_throw].
Qed.

Lemma lookup_token_emits c : emits client_effect (lookup_token env c).
Proof.
  intros w. rewrite lookup_token_run.
  destruct (getCustomerToken env (trace w) (conversationId c)) as [[d|]|e];
    [destruct (nonempty (accessToken d))| |]; simpl; eexists; split;
    reflexivity.
Qed.

Lemma connectToCustomerServer_emits :
  emits client_effect (connectToCustomerServer env).
Proof.
  unfold connectToCustomerServer. apply emits_try_catch.
  - apply emits_bind; [apply emits_this|intros c].
    apply emits_bind; [now apply emits_perform|intros _].
    apply emits_bind.
    { destruct (nonempty (conversationId c)); [|apply emits_ret].
      apply emits_bind; [apply lookup_token_emits|intros _; apply emits_ret]. }
    intros _. apply emits_bind; [apply emits_this|intros c'].
    apply emits_bind; [apply makeJsonRpcRequest_emits|intros response].
    apply emits_bind; [apply emits_lift|intros ts].
    apply emits_bind; [apply emits_update|intros _].
    apply emits_bind; [apply emits_update|intros _].
    apply emits_ret.
  - intros e. apply emits_bind; [now apply emits_perform|intros _; apply emits_throw].
Qed.

Lemma connect_servers_emits : emits client_effect discover.
Proof.
  unfold connect_servers. apply emits_try_catch.
  - apply emits_bind; [apply connectToStorefrontServer_emits|intros st].
    apply emits_bind.
    { destruct enabled; [apply connectToCustomerServer_emits|apply emits_ret]. }
    intros cu. apply emits_bind; [now apply emits_perform|intros _].
    destruct (negb _); [now apply emits_perform|apply emits_ret].
  - intros e. now apply emits_perform.
Qed.

(** The run of the discovery block, by how the two connects complete. *)
Lemma connect_servers_run (w : World) :
  exists w',
    discover w = (Returned tt, w') /\
    match connectToStorefrontServer env w with
    | (Threw e, w1) =>
        client w' = client w1 /\ trace w' = (trace w1 ++ [warn_line e])%list
    | (Returned _, w1) =>
        if enabled then
          match connectToCustomerServer env w1 with
          | (Threw e, w2) =>
              client w' = client w2 /\ trace w' = (trace w2 ++ [warn_line e])%list
          | (Returned _, w2) => client w' = client w2
          end
        else client w' = client w1
    end.
Proof.
  unfold connect_servers, try_catch, bind at 1.
  destruct (connectToStorefrontServer env w) as [[st|e] w1].
  - unfold bind at 1. destruct enabled.
    + destruct (connectToCustomerServer env w1) as [[cu|e] w2].
      * run_m. destruct (negb _); simpl; eexists; split; reflexivity.
      * run_m. eexists. split; [reflexivity|]. split; reflexivity.
    + run_m. eexists. split; reflexivity.
  - run_m. eexists. split; [reflexivity|]. split; reflexivity.
Qed.

Lemma prepare_run (w : World) l w' :
  prepare env userMessage sessionId ENABLE_CUSTOMER_MCP discoveredEndpoint w
    = (Returned l, w') ->
  client w' =
    client (snd (discover
                   (mkWorld (client w)
                            (trace w ++ [SendMessage
                                           (event "id" [("conversation_id",
                                                         JStr sessionId)])])%list))).
Proof.
  unfold prepare. unfold bind at 1, sendMessage at 1, perform at 1.
  set (w0 := mkWorld _ _). cbn [fst snd]. unfold bind at 1.
  destruct (connect_servers_run w0) as (w1 & Hrun & _). rewrite Hrun. simpl.
  run_m. destruct (saveMessage env (trace w1) sessionId "user" userMessage);
    [|discriminate].
  destruct (getConversationHistory env _ sessionId); [|discriminate].
  now intros [= _ <-].
Qed.

Lemma prepare_returns (w : World) :
  (forall t, saveMessage env t sessionId "user" userMessage = Returned tt) ->
  (forall t, exists dbMessages,
        getConversationHistory env t sessionId = Returned dbMessages) ->
  exists l w',
    prepare env userMessage sessionId ENABLE_CUSTOMER_MCP discoveredEndpoint w
      = (Returned l, w').
Proof.
  intros Hsave Hget.
  unfold prepare. unfold bind at 1, sendMessage at 1, perform at 1.
  set (w0 := mkWorld _ _). cbn [fst snd]. unfold bind at 1.
  destruct (connect_servers_run w0) as (w1 & Hrun & _). rewrite Hrun.
  run_m. rewrite Hsave.
  destruct (Hget (trace w1 ++ [SaveMessage sessionId "user" userMessage])%list)
    as [dbMessages ->].
  eauto.
Qed.

(** C6, as the code has it.  The discovery block never throws and sends
    nothing to the stream.  Discovery is sequential, storefront first: when
    the storefront connect fails the customer connect is not attempted, a
    warning goes to the console and the merged catalog is left as it was;
    when the storefront connect succeeds and the customer connect is
    disabled or fails, the merged catalog gains the storefront catalog
    alone.  Each LLM call of the session is made with the merged catalog of
    the client, and the session reaches the loop whenever persistence
    answers. *)
Theorem discovery_failure_is_not_fatal (w : World) :
  (exists w', discover w = (Returned tt, w')) /\
  (exists d, trace (snd (discover w)) = (trace w ++ d)%list /\ sent_types d = []) /\
  (forall e w1,
      connectToStorefrontServer env w = (Threw e, w1) ->
      tools (client (snd (discover w))) = tools (client w) /\
      trace (snd (discover w)) = (trace w1 ++ [warn_line e])%list) /\
  (forall storefrontMcpTools w1,
      connectToStorefrontServer env w = (Returned storefrontMcpTools, w1) ->
      (enabled = false ->
       tools (client (snd (discover w))) = (tools (client w) ++ storefrontMcpTools)%list) /\
      (enabled = true ->
       forall e w2,
         connectToCustomerServer env w1 = (Threw e, w2) ->
         tools (client (snd (discover w))) = (tools (client w) ++ storefrontMcpTools)%list /\
         trace (snd (discover w)) = (trace w2 ++ [warn_line e])%list) /\
      (enabled = true ->
       forall customerMcpTools w2,
         connectToCustomerServer env w1 = (Returned customerMcpTools, w2) ->
         tools (client (snd (discover w))) =
           (tools (client w) ++ storefrontMcpTools ++ customerMcpTools)%list)) /\
  (forall l w',
      prepare env userMessage sessionId ENABLE_CUSTOMER_MCP discoveredEndpoint w
        = (Returned l, w') ->
      let discovered :=
        client (snd (discover
                       (mkWorld (client w)
                          (trace w ++ [SendMessage
                                         (event "id" [("conversation_id",
                                                       JStr sessionId)])])%list))) in
      client w' = discovered /\
      exists d,
        trace (snd (iteration env sessionId promptVariant l w')) = (trace w' ++ d)%list /\
        map (fun call => llm_tools (fst call)) (llm_calls d) = [tools discovered]) /\
  ((forall t, saveMessage env t sessionId "user" userMessage = Returned tt) ->
   (forall t, exists dbMessages,
         getConversationHistory env t sessionId = Returned dbMessages) ->
   exists l w',
     prepare env userMessage sessionId ENABLE_CUSTOMER_MCP discoveredEndpoint w
       = (Returned l, w')).
Proof.
  destruct (connect_servers_run w) as (w' & Hrun & Hcase).
  split; [now exists w'|]. split.
  { destruct (connect_servers_emits w) as (d & Ht & Hd). exists d.
    split; [exact Ht|]. now apply client_effects_not_sent. }
  rewrite Hrun. cbn [snd]. split; [|split; [|split]].
  - intros e w1 Hst. rewrite Hst in Hcase. destruct Hcase as [Hc Ht].
    pose proof (connect_effect_holds env StorefrontBackend w) as Heff.
    simpl in Heff. rewrite Hst in Heff. simpl in Heff.
    split; [rewrite Hc; apply Heff|exact Ht].
  - intros st w1 Hst. rewrite Hst in Hcase.
    pose proof (connect_effect_holds env StorefrontBackend w) as Heff.
    simpl in Heff. rewrite Hst in Heff. simpl in Heff. destruct Heff as (Htools & _).
    split; [|split].
    + intros Hoff. rewrite Hoff in Hcase. now rewrite Hcase.
    + intros Hon e w2 Hcu. rewrite Hon, Hcu in Hcase. destruct Hcase as [Hc Ht].
      pose proof (connect_effect_holds env CustomerBackend w1) as Heff.
      simpl in Heff. rewrite Hcu in Heff. simpl in Heff. destruct Heff as (Htools2 & _).
      split; [congruence|exact Ht].
    + intros Hon cu w2 Hcu. rewrite Hon, Hcu in Hcase.
      pose proof (connect_effect_holds env CustomerBackend w1) as Heff.
      simpl in Heff. rewrite Hcu in Heff. simpl in Heff. destruct Heff as (Htools2 & _).
      now rewrite Hcase, Htools2, Htools, <- app_assoc.
  - intros l w2 Hprep.
    pose proof (prepare_run w l w2 Hprep) as Hcl.
    split; [exact Hcl|].
    destruct (iteration_calls env sessionId promptVariant l w2) as (d & Ht & Hcalls).
    exists d. split; [exact Ht|]. rewrite Hcalls. simpl. now rewrite Hcl.
  - apply prepare_returns.
Qed.

End Discovery.

(** With the storefront endpoint down, the customer endpoint is healthy
    (connecting to it would return its catalog) and enabled, yet the session
    never queries it and calls the LLM with an empty catalog. *)
Lemma storefront_failure_hides_customer_catalog :
  fst (connectToCustomerServer storefront_down_env fresh)
    = Returned [mkTool (JStr "get_orders") JUndefined JUndefined] /\
  exists w',
    handleChatSession storefront_down_env "find me red shoes" "conv-1" "standard" true
                      (Some customer_url)
                      1 fresh = Some (Returned tt, w') /\
    map (fun call => llm_tools (fst call)) (llm_calls (trace w')) = [[]] /\
    map endpoint (fetched (trace w')) = [storefront_url].
Proof.
  split; [vm_compute; reflexivity|].
  eexists. split; [vm_compute; reflexivity|]. split; vm_compute; reflexivity.
Qed.

Lemma discovery_failure_is_not_fatal_witness :
  tools (client (snd (connect_servers storefront_down_env true (Some customer_url)
                                      fresh))) = [] /\
  exists l w',
    prepare storefront_down_env "find me red shoes" "conv-1" true (Some customer_url) fresh
      = (Returned l, w').
Proof.
  pose proof (discovery_failure_is_not_fatal
                storefront_down_env "find me red shoes" "conv-1" "standard" true
                (Some customer_url) fresh)
    as (_ & _ & Hdown & _ & _ & Hprep).
  split.
  - exact (proj1 (Hdown (TypeError "fetch failed") _ eq_refl)).
  - apply Hprep.
    + intros t. reflexivity.
    + intros t. exists []. reflexivity.
Defined.


(** * Strings *)

Section StringFacts.

Lemma lower_idempotent c : lower (lower c) = lower c.
Proof.
  unfold lower.
  destruct ((65 <=? nat_of_ascii c) && (nat_of_ascii c <=? 90))%nat eqn:Hup;
    [|now rewrite Hup].
  apply andb_prop in Hup as [Hlo Hhi].
  apply Nat.leb_le in Hlo. apply Nat.leb_le in Hhi.
  rewrite nat_ascii_embedding by lia.
  destruct ((65 <=? nat_of_ascii c + 32) && (nat_of_ascii c + 32 <=? 90))%nat eqn:H2;
    [|reflexivity].
  apply andb_prop in H2 as [_ H2]. apply Nat.leb_le in H2. lia.
Qed.

Lemma eqb_ci_refl s : eqb_ci s s = true.
Proof.
  induction s as [|c s IH]; [reflexivity|]. simpl.
  now rewrite Ascii.eqb_refl, IH.
Qed.

Lemma eqb_ci_length a : forall b, eqb_ci a b = true -> String.length a = String.length b.
Proof.
  induction a as [|x a IH]; intros [|y b]; simpl; try discriminate; auto.
  intros H. apply andb_prop in H as [_ H]. f_equal. auto.
Qed.

Lemma length_append a b : String.length (a ++ b) = String.length a + String.length b.
Proof. induction a as [|c a IH]; simpl; auto. Qed.

Lemma substring_all s : substring 0 (String.length s) s = s.
Proof. induction s as [|c s IH]; simpl; [reflexivity|now rewrite IH]. Qed.

Lemma substring_prefix a b : substring 0 (String.length a) (a ++ b) = a.
Proof.
  induction a as [|c a IH]; simpl.
  - destruct b; reflexivity.
  - now rewrite IH.
Qed.

Lemma substring_suffix a b :
  substring (String.length a) (String.length b) (a ++ b) = b.
Proof.
  induction a as [|c a IH]; simpl; [apply substring_all|exact IH].
Qed.

Lemma substring_split n : forall s,
  n <= String.length s ->
  s = substring 0 n s ++ substring n (String.length s - n) s.
Proof.
  induction n as [|n IH]; intros s Hn.
  - simpl. rewrite Nat.sub_0_r, substring_all. destruct s; reflexivity.
  - destruct s as [|c s]; simpl in *; [lia|].
    rewrite <- IH by lia. reflexivity.
Qed.

Lemma substring_length n : forall m s,
  n + m <= String.length s -> String.length (substring n m s) = m.
Proof.
  induction n as [|n IH]; intros m s H.
  - revert s H. induction m as [|m IHm]; intros s H.
    + destruct s; reflexivity.
    + destruct s as [|c s]; simpl in *; [lia|]. rewrite IHm by lia. reflexivity.
  - destruct s as [|c s]; simpl in *; [lia|]. apply IH. lia.
Qed.

(** A string ends with [p], ignoring ASCII case, exactly when it is some
    string followed by a spelling of [p]. *)
Lemma ends_with_ci_split p s :
  ends_with_ci p s = true <->
  exists x sfx, s = x ++ sfx /\ eqb_ci sfx p = true.
Proof.
  unfold ends_with_ci. split.
  - intros H. apply andb_prop in H as [Hlen Heq]. apply Nat.leb_le in Hlen.
    exists (substring 0 (String.length s - String.length p) s),
           (substring (String.length s - String.length p) (String.length p) s).
    split; [|exact Heq].
    rewrite (substring_split (String.length s - String.length p) s) at 1 by lia.
    do 2 f_equal. lia.
  - intros (x & sfx & -> & Heq).
    pose proof (eqb_ci_length _ _ Heq) as Hl.
    rewrite length_append, <- Hl.
    replace (String.length x + String.length sfx - String.length sfx)
      with (String.length x) by lia.
    rewrite substring_suffix, Heq.
    apply andb_true_intro. split; [apply Nat.leb_le; lia|reflexivity].
Qed.

Lemma replace_suffix_ci_match p r x sfx :
  eqb_ci sfx p = true -> replace_suffix_ci p r (x ++ sfx) = x ++ r.
Proof.
  intros Heq. unfold replace_suffix_ci.
  assert (ends_with_ci p (x ++ sfx) = true) as -> by (apply ends_with_ci_split; eauto).
  pose proof (eqb_ci_length _ _ Heq) as Hl.
  rewrite length_append, <- Hl.
  replace (String.length x + String.length sfx - String.length sfx)
    with (String.length x) by lia.
  now rewrite substring_prefix.
Qed.

Lemma strip_trailing_slashes_slash s :
  strip_trailing_slashes (s ++ "/") = strip_trailing_slashes s.
Proof.
  induction s as [|c s IH]; [reflexivity|]. simpl. now rewrite IH.
Qed.

Lemma strip_trailing_slashes_no_slash s x :
  strip_trailing_slashes s <> x ++ "/".
Proof.
  revert x. induction s as [|c s IH]; intros x; simpl.
  - destruct x; discriminate.
  - destruct (strip_trailing_slashes s =? "") eqn:He.
    + apply String.eqb_eq in He. rewrite He in *. simpl.
      destruct (Ascii.eqb c "/") eqn:Hc.
      * destruct x; discriminate.
      * destruct x as [|c' [|c'' x]]; simpl; try discriminate.
        intros [= -> ]. now rewrite Ascii.eqb_refl in Hc.
    + simpl. destruct x as [|c' x]; simpl.
      * intros [= _ H]. rewrite H in He. discriminate.
      * intros [= _ H]. exact (IH x H).
Qed.

Lemma strip_trailing_slashes_idempotent s :
  strip_trailing_slashes (strip_trailing_slashes s) = strip_trailing_slashes s.
Proof.
  induction s as [|c s IH]; [reflexivity|]. simpl.
  destruct (strip_trailing_slashes s =? "") eqn:He.
  - apply String.eqb_eq in He. rewrite He. simpl.
    destruct (Ascii.eqb c "/") eqn:Hc; simpl; [reflexivity|now rewrite Hc].
  - simpl. rewrite IH, He. reflexivity.
Qed.

Lemma prefix_includes needle s : prefix needle s = true -> includes needle s = true.
Proof. intros H. destruct s; cbn [includes]; now rewrite H. Qed.

Lemma includes_tail needle c s :
  includes needle s = true -> includes needle (String c s) = true.
Proof. intros H. cbn [includes]. destruct (prefix needle (String c s)); auto. Qed.

End StringFacts.

Lemma append_assoc (a b c : string) : (a ++ b) ++ c = a ++ b ++ c.
Proof. induction a as [|x a IH]; simpl; [reflexivity|now rewrite IH]. Qed.

Lemma lower_colon c : lower c = ":"%char -> c = ":"%char.
Proof.
  destruct c as [[] [] [] [] [] [] [] []]; vm_compute; intros H;
    try reflexivity; discriminate.
Qed.

Lemma lower_slash c : lower c = "/"%char -> c = "/"%char.
Proof.
  destruct c as [[] [] [] [] [] [] [] []]; vm_compute; intros H;
    try reflexivity; discriminate.
Qed.

(** A string with a protocol prefix contains [://]. *)
Lemma hasProtocol_includes s : hasProtocol s = true -> includes "://" s = true.
Proof.
  unfold hasProtocol, starts_with_ci. intros H.
  apply orb_prop in H as [H|H].
  - destruct s as [|c1 [|c2 [|c3 [|c4 [|c5 [|c6 [|c7 s]]]]]]]; simpl in H;
      try discriminate; rewrite ?andb_false_r in H; try discriminate.
    repeat (apply andb_prop in H as [? H]).
    repeat match goal with
           | E : Ascii.eqb _ _ = true |- _ => apply Ascii.eqb_eq in E
           end.
    change (lower ":") with ":"%char in *. change (lower "/") with "/"%char in *.
    repeat match goal with
           | E : lower _ = ":"%char |- _ => apply lower_colon in E
           | E : lower _ = "/"%char |- _ => apply lower_slash in E
           end.
    subst. do 4 apply includes_tail. apply prefix_includes.
    apply prefix_correct. simpl. destruct s; reflexivity.
  - destruct s as [|c1 [|c2 [|c3 [|c4 [|c5 [|c6 [|c7 [|c8 s]]]]]]]]; simpl in H;
      try discriminate; rewrite ?andb_false_r in H; try discriminate.
    repeat (apply andb_prop in H as [? H]).
    repeat match goal with
           | E : Ascii.eqb _ _ = true |- _ => apply Ascii.eqb_eq in E
           end.
    change (lower ":") with ":"%char in *. change (lower "/") with "/"%char in *.
    repeat match goal with
           | E : lower _ = ":"%char |- _ => apply lower_colon in E
           | E : lower _ = "/"%char |- _ => apply lower_slash in E
           end.
    subst. do 5 apply includes_tail. apply prefix_includes.
    apply prefix_correct. simpl. destruct s; reflexivity.
Qed.

(** * The constructor *)

Section ConstructorFacts.

Variable URL_hostname : string -> Completion string.
Variable STOREFRONT_BASE_URL : option string.

(** X1.  For a host name without protocol that ends with a spelling of
    [.myshopify.com] in any case, the default customer endpoint is on the
    account subdomain: the suffix is replaced by [.account.myshopify.com].
    A host that does not end so is used as it is.  A non-empty explicit
    endpoint is used verbatim, and the new client has no token and empty
    catalogs. *)
Theorem constructor_customer_endpoint host conv shop :
  hasProtocol host = false ->
  (forall x sfx,
      host = x ++ sfx -> eqb_ci sfx ".myshopify.com" = true ->
      exists c,
        MCPClient_constructor URL_hostname STOREFRONT_BASE_URL host conv shop None
          = Returned c /\
        customerMcpEndpoint c =
          "https://" ++ x ++ ".account.myshopify.com" ++ "/customer/api/mcp") /\
  (ends_with_ci ".myshopify.com" host = false ->
   exists c,
     MCPClient_constructor URL_hostname STOREFRONT_BASE_URL host conv shop None
       = Returned c /\
     customerMcpEndpoint c = "https://" ++ host ++ "/customer/api/mcp") /\
  (forall explicit,
      nonempty explicit = true ->
      exists c,
        MCPClient_constructor URL_hostname STOREFRONT_BASE_URL host conv shop
                              (Some explicit) = Returned c /\
        customerMcpEndpoint c = explicit /\
        customerAccessToken c = "" /\
        tools c = [] /\ customerTools c = [] /\ storefrontTools c = []).
Proof.
  intros Hp. unfold MCPClient_constructor. rewrite Hp. split; [|split].
  - intros x sfx -> Hsfx. eexists. split; [reflexivity|]. simpl.
    unfold accountHost. rewrite (replace_suffix_ci_match _ _ x sfx Hsfx).
    now rewrite append_assoc.
  - intros Hno. eexists. split; [reflexivity|]. simpl.
    unfold accountHost, replace_suffix_ci. now rewrite Hno.
  - intros explicit He. eexists. split; [reflexivity|]. simpl.
    rewrite He. repeat split.
Qed.

(** X2.  Trailing slashes of [STOREFRONT_BASE_URL] do not reach the
    storefront endpoint: the endpoint is the base without them followed by
    [/api/mcp], the part before [/api/mcp] never ends with a slash, and one
    more trailing slash in the variable changes nothing.  A base that is
    unset or made of slashes alone falls back to [https://<host>]. *)
Theorem constructor_storefront_endpoint host conv shop explicit :
  hasProtocol host = false ->
  exists c,
    MCPClient_constructor URL_hostname STOREFRONT_BASE_URL host conv shop explicit
      = Returned c /\
    storefrontMcpEndpoint c =
      (match STOREFRONT_BASE_URL with
       | Some b => if nonempty (strip_trailing_slashes b)
                   then strip_trailing_slashes b
                   else "https://" ++ host
       | None => "https://" ++ host
       end) ++ "/api/mcp" /\
    (forall b, STOREFRONT_BASE_URL = Some b ->
               nonempty (strip_trailing_slashes b) = true ->
               forall x, storefrontMcpEndpoint c <> (x ++ "/") ++ "/api/mcp") /\
    (forall b, STOREFRONT_BASE_URL = Some b ->
               MCPClient_constructor URL_hostname (Some (b ++ "/")) host conv shop explicit
               = Returned c).
Proof.
  intros Hp. unfold MCPClient_constructor. rewrite Hp.
  eexists. split; [reflexivity|]. simpl. split; [|split].
  - unfold storefrontBase, or_default. destruct STOREFRONT_BASE_URL; reflexivity.
  - intros b -> Hne x. unfold storefrontBase, or_default. rewrite Hne.
    intros H.
    assert (forall a b' c', a ++ c' = b' ++ c' -> a = b') as Hcancel.
    { intros a. induction a as [|ch a IH]; intros [|ch' b'] c' E; simpl in *.
      - reflexivity.
      - exfalso. assert (String.length c' = String.length (String ch' (b' ++ c')))
          as Hl by (now rewrite <- E). simpl in Hl. rewrite length_append in Hl. lia.
      - exfalso. assert (String.length (String ch (a ++ c')) = String.length c')
          as Hl by (now rewrite E). simpl in Hl. rewrite length_append in Hl. lia.
      - injection E as -> E. f_equal. eauto. }
    apply Hcancel in H. exact (strip_trailing_slashes_no_slash b x H).
  - intros b ->. unfold storefrontBase. now rewrite strip_trailing_slashes_slash.
Qed.

End ConstructorFacts.

Lemma constructor_customer_endpoint_witness :
  exists c,
    MCPClient_constructor (fun _ => Threw (TypeError "Invalid URL")) None
                          "Nice-Demo.MyShopify.COM" "conv-1" "shop-1" None
      = Returned c /\
    customerMcpEndpoint c
      = "https://Nice-Demo.account.myshopify.com/customer/api/mcp".
Proof.
  exact (proj1 (constructor_customer_endpoint
                  (fun _ => Threw (TypeError "Invalid URL")) None
                  "Nice-Demo.MyShopify.COM" "conv-1" "shop-1" eq_refl)
               "Nice-Demo" ".MyShopify.COM" eq_refl eq_refl).
Defined.

Lemma constructor_storefront_endpoint_witness :
  exists c,
    MCPClient_constructor (fun _ => Threw (TypeError "Invalid URL"))
                          (Some "https://shop.example.com//")
                          "demo.myshopify.com" "conv-1" "shop-1" None
      = Returned c /\
    storefrontMcpEndpoint c = "https://shop.example.com/api/mcp".
Proof.
  destruct (constructor_storefront_endpoint
              (fun _ => Threw (TypeError "Invalid URL"))
              (Some "https://shop.example.com//")
              "demo.myshopify.com" "conv-1" "shop-1" None eq_refl)
    as (c & Hc & Hep & _).
  exists c. split; [exact Hc|exact Hep].
Defined.

(** * The shop domain *)

Section ShopDomainFacts.

Variable URL_hostname : string -> Completion string.
Variable MYSHOPIFY_DOMAIN : option string.

Lemma resolveShopDomain_suffix request shopDomain :
  resolveShopDomain URL_hostname MYSHOPIFY_DOMAIN request = Returned shopDomain ->
  ends_with_ci ".myshopify.com" shopDomain = true.
Proof.
  unfold resolveShopDomain.
  destruct (requested_shop MYSHOPIFY_DOMAIN request) as [shop|]; [|discriminate].
  destruct (nonempty shop); simpl; [|discriminate].
  destruct (if includes "://" shop then URL_hostname shop else Returned shop)
    as [h|e]; [|discriminate].
  destruct (ends_with_ci ".myshopify.com" h) eqn:Hend; simpl; [|discriminate].
  now intros [= <-].
Qed.

(** X3.  Whatever [resolveShopDomain] returns ends with [.myshopify.com]
    in some case, and so is not empty; a requested shop without [://] is
    returned as it was given, in its own case. *)
Theorem resolveShopDomain_returns_myshopify request shopDomain :
  resolveShopDomain URL_hostname MYSHOPIFY_DOMAIN request = Returned shopDomain ->
  (exists x sfx, shopDomain = x ++ sfx /\ eqb_ci sfx ".myshopify.com" = true) /\
  shopDomain <> "" /\
  (forall shop,
      requested_shop MYSHOPIFY_DOMAIN request = Some shop ->
      includes "://" shop = false -> shopDomain = shop).
Proof.
  unfold resolveShopDomain.
  destruct (requested_shop MYSHOPIFY_DOMAIN request) as [shop|]; [|discriminate].
  destruct (nonempty shop); simpl; [|discriminate].
  destruct (if includes "://" shop then URL_hostname shop else Returned shop)
    as [h|e] eqn:Hh; [|discriminate].
  destruct (ends_with_ci ".myshopify.com" h) eqn:Hend; simpl; [|discriminate].
  intros [= <-]. split; [now apply ends_with_ci_split|]. split.
  - intros ->. discriminate.
  - intros shop' [= <-] Hno. rewrite Hno in Hh. congruence.
Qed.

(** X4.  The [shop] query parameter, when not empty, decides alone: a
    parameter that is not a myshopify domain is rejected whatever the
    header and the environment hold, and the header is read only when the
    parameter is absent or empty.  With all three sources absent or empty
    the missing-domain error is thrown. *)
Theorem resolveShopDomain_precedence request :
  (forall shop,
      searchParams_get "shop" (query request) = Some shop ->
      nonempty shop = true ->
      includes "://" shop = false ->
      resolveShopDomain URL_hostname MYSHOPIFY_DOMAIN request =
        if ends_with_ci ".myshopify.com" shop then Returned shop
        else Threw (Error ("Invalid shop domain for Shopify SDK: " ++ shop))) /\
  (or_default (searchParams_get "shop" (query request)) "" = "" ->
   forall shop,
     header request "X-Shopify-Shop-Domain" = Some shop ->
     nonempty shop = true ->
     includes "://" shop = false ->
     resolveShopDomain URL_hostname MYSHOPIFY_DOMAIN request =
       if ends_with_ci ".myshopify.com" shop then Returned shop
       else Threw (Error ("Invalid shop domain for Shopify SDK: " ++ shop))) /\
  (or_default (searchParams_get "shop" (query request)) "" = "" ->
   or_default (header request "X-Shopify-Shop-Domain") "" = "" ->
   or_default MYSHOPIFY_DOMAIN "" = "" ->
   resolveShopDomain URL_hostname MYSHOPIFY_DOMAIN request = Threw missing_shop_domain).
Proof.
  unfold resolveShopDomain, requested_shop. split; [|split].
  - intros shop -> Hne Hno. unfold or_else at 1. rewrite !Hne. simpl. rewrite Hno.
    destruct (ends_with_ci ".myshopify.com" shop); reflexivity.
  - intros Hparam shop -> Hne Hno.
    assert (or_else (searchParams_get "shop" (query request))
                    (or_else (Some shop) MYSHOPIFY_DOMAIN) = Some shop) as ->.
    { unfold or_else at 2. rewrite Hne. unfold or_else, or_default in *.
      destruct (searchParams_get "shop" (query request)) as [p|]; [|reflexivity].
      destruct (nonempty p) eqn:Hp; [|reflexivity].
      subst p. discriminate. }
    rewrite Hne. simpl. rewrite Hno.
    destruct (ends_with_ci ".myshopify.com" shop); reflexivity.
  - intros Hp Hh He. unfold or_else, or_default in *.
    destruct (searchParams_get "shop" (query request)) as [p|];
      [destruct (nonempty p) eqn:E1; [subst p; discriminate|]|];
      (destruct (header request "X-Shopify-Shop-Domain") as [h|];
       [destruct (nonempty h) eqn:E2; [subst h; discriminate|]|]);
      (destruct MYSHOPIFY_DOMAIN as [m|];
       [destruct (nonempty m) eqn:E3; [subst m; discriminate|]|]);
      try rewrite E3; reflexivity.
Qed.

(** A resolved domain has no protocol prefix when host names have none. *)
Lemma resolveShopDomain_no_protocol request shopDomain :
  (forall u h, URL_hostname u = Returned h -> includes "://" h = false) ->
  resolveShopDomain URL_hostname MYSHOPIFY_DOMAIN request = Returned shopDomain ->
  hasProtocol shopDomain = false.
Proof.
  intros Hhost. unfold resolveShopDomain.
  destruct (requested_shop MYSHOPIFY_DOMAIN request) as [shop|]; [|discriminate].
  destruct (nonempty shop); simpl; [|discriminate].
  destruct (includes "://" shop) eqn:Hinc.
  - destruct (URL_hostname shop) as [h|e] eqn:Hu; [|discriminate].
    destruct (ends_with_ci ".myshopify.com" h); simpl; [|discriminate].
    intros [= <-]. specialize (Hhost _ _ Hu).
    destruct (hasProtocol h) eqn:Hp; [|reflexivity].
    apply hasProtocol_includes in Hp. congruence.
  - destruct (ends_with_ci ".myshopify.com" shop); simpl; [|discriminate].
    intros [= <-]. destruct (hasProtocol shop) eqn:Hp; [|reflexivity].
    apply hasProtocol_includes in Hp. congruence.
Qed.

End ShopDomainFacts.

Lemma resolveShopDomain_returns_myshopify_witness :
  exists x sfx,
    "Demo.MyShopify.com" = x ++ sfx /\ eqb_ci sfx ".myshopify.com" = true.
Proof.
  exact (proj1 (resolveShopDomain_returns_myshopify
                  hostname_stub None (shop_request "Demo.MyShopify.com" no_headers)
                  "Demo.MyShopify.com" eq_refl)).
Defined.

(** A parameter that is not a myshopify domain is rejected although the
    header and the environment name one. *)
Lemma resolveShopDomain_precedence_witness :
  resolveShopDomain hostname_stub (Some "demo.myshopify.com")
    (shop_request "shop.example.com"
                  (one_header "X-Shopify-Shop-Domain" "demo.myshopify.com")) =
  Threw (Error "Invalid shop domain for Shopify SDK: shop.example.com").
Proof.
  exact (proj1 (resolveShopDomain_precedence
                  hostname_stub (Some "demo.myshopify.com")
                  (shop_request "shop.example.com"
                     (one_header "X-Shopify-Shop-Domain" "demo.myshopify.com")))
               "shop.example.com" eq_refl eq_refl eq_refl).
Defined.

(** * Endpoint discovery *)

Section EndpointFacts.

Variable setup : SetupEnv.

Lemma getCustomerMcpEndpoint_shape shopDomain conversation (t : list SetupEffect) :
  forall e,
    fst (getCustomerMcpEndpoint setup shopDomain conversation t) = Some e ->
    exists base,
      e = base ++ "/customer/api/mcp" /\ forall x, base <> x ++ "/".
Proof.
  unfold getCustomerMcpEndpoint, discover_endpoint. intros e.
  destruct (getCustomerAccountUrl setup t conversation) as [existing|]; [|discriminate].
  destruct (nonempty (or_default existing "")).
  - intros [= <-]. eexists. split; [reflexivity|].
    intros x. apply strip_trailing_slashes_no_slash.
  - destruct (shop_query setup _ shopDomain) as [body|]; [|discriminate].
    destruct (negb (truthy _)); [discriminate|].
    destruct (storeCustomerAccountUrl setup _ conversation _); [|discriminate].
    destruct (opt_prop _ _); try discriminate.
    intros [= <-]. eexists. split; [reflexivity|].
    intros x. apply strip_trailing_slashes_no_slash.
Qed.

(** X5.  [getCustomerMcpEndpoint] answers [null] or an endpoint made of a
    part that does not end with a slash followed by [/customer/api/mcp].
    With an account URL stored for the conversation it answers from that
    URL after one database read: the Storefront API is not queried and
    nothing is stored. *)
Theorem getCustomerMcpEndpoint_stored shopDomain conversation (t : list SetupEffect) :
  (forall e,
      fst (getCustomerMcpEndpoint setup shopDomain conversation t) = Some e ->
      exists base,
        e = base ++ "/customer/api/mcp" /\ forall x, base <> x ++ "/") /\
  (forall stored,
      getCustomerAccountUrl setup t conversation = Returned (Some stored) ->
      nonempty stored = true ->
      getCustomerMcpEndpoint setup shopDomain conversation t =
        (Some (strip_trailing_slashes stored ++ "/customer/api/mcp"),
         (t ++ [GetCustomerAccountUrl conversation])%list)).
Proof.
  split; [apply getCustomerMcpEndpoint_shape|].
  unfold getCustomerMcpEndpoint, discover_endpoint.
  intros stored -> Hne. unfold or_default. rewrite !Hne. reflexivity.
Qed.

(** X6.  Without a stored account URL the Storefront API is queried once.
    When it reports a non-empty account URL, that URL is stored as reported
    and the endpoint is derived from it; when storing fails the answer is
    [null] although the URL was found.  When it reports no account URL, or
    the query fails, the answer is [null] and nothing is stored. *)
Theorem getCustomerMcpEndpoint_discovers shopDomain conversation (t : list SetupEffect)
        existing :
  getCustomerAccountUrl setup t conversation = Returned existing ->
  or_default existing "" = "" ->
  let t1 := (t ++ [GetCustomerAccountUrl conversation])%list in
  let t2 := (t1 ++ [ShopQuery shopDomain])%list in
  (forall body accountUrl,
      shop_query setup t1 shopDomain = Returned body ->
      opt_prop (opt_prop (opt_prop body "data") "shop") "customerAccountUrl"
        = JStr accountUrl ->
      nonempty accountUrl = true ->
      let t3 := (t2 ++ [StoreCustomerAccountUrl conversation (JStr accountUrl)])%list in
      (storeCustomerAccountUrl setup t2 conversation (JStr accountUrl) = Returned tt ->
       getCustomerMcpEndpoint setup shopDomain conversation t =
         (Some (strip_trailing_slashes accountUrl ++ "/customer/api/mcp"), t3)) /\
      (forall e,
          storeCustomerAccountUrl setup t2 conversation (JStr accountUrl) = Threw e ->
          getCustomerMcpEndpoint setup shopDomain conversation t =
            (None, (t3 ++ [SetupConsole "Error getting customer MCP endpoint:"])%list))) /\
  (forall body,
      shop_query setup t1 shopDomain = Returned body ->
      truthy (opt_prop (opt_prop (opt_prop body "data") "shop") "customerAccountUrl")
        = false ->
      getCustomerMcpEndpoint setup shopDomain conversation t =
        (None, (t2 ++ [SetupConsole "Error getting customer MCP endpoint:"])%list)) /\
  (forall e,
      shop_query setup t1 shopDomain = Threw e ->
      getCustomerMcpEndpoint setup shopDomain conversation t =
        (None, (t2 ++ [SetupConsole "Error getting customer MCP endpoint:"])%list)).
Proof.
  intros Hget Hnone t1 t2.
  unfold getCustomerMcpEndpoint, discover_endpoint. rewrite Hget, Hnone. simpl.
  fold t1. fold t2. split; [|split].
  - intros body accountUrl Hq Hurl Hne. rewrite Hq, Hurl. simpl.
    unfold nonempty in Hne. rewrite Hne. simpl. split.
    + intros ->. reflexivity.
    + intros e ->. reflexivity.
  - intros body Hq Hfalsy. rewrite Hq, Hfalsy. reflexivity.
  - intros e ->. reflexivity.
Qed.

End EndpointFacts.

Lemma getCustomerMcpEndpoint_stored_witness :
  getCustomerMcpEndpoint
    (setup_scenario (Some "https://shopify.com/1234/account//") (Threw (Error "offline")))
    "demo.myshopify.com" "conv-1" [] =
  (Some "https://shopify.com/1234/account/customer/api/mcp",
   [GetCustomerAccountUrl "conv-1"]).
Proof.
  exact (proj2 (getCustomerMcpEndpoint_stored
                  (setup_scenario (Some "https://shopify.com/1234/account//")
                                  (Threw (Error "offline")))
                  "demo.myshopify.com" "conv-1" [])
               "https://shopify.com/1234/account//" eq_refl eq_refl).
Defined.

Lemma getCustomerMcpEndpoint_discovers_witness :
  getCustomerMcpEndpoint
    (setup_scenario None (Returned (account_body (JStr "https://shopify.com/1234/account"))))
    "demo.myshopify.com" "conv-1" [] =
  (Some "https://shopify.com/1234/account/customer/api/mcp",
   [GetCustomerAccountUrl "conv-1"; ShopQuery "demo.myshopify.com";
    StoreCustomerAccountUrl "conv-1" (JStr "https://shopify.com/1234/account")]).
Proof.
  exact (proj1 (proj1 (getCustomerMcpEndpoint_discovers
                         (setup_scenario None
                            (Returned (account_body
                                         (JStr "https://shopify.com/1234/account"))))
                         "demo.myshopify.com" "conv-1" [] None eq_refl eq_refl)
                      (account_body (JStr "https://shopify.com/1234/account"))
                      "https://shopify.com/1234/account" eq_refl eq_refl eq_refl)
               eq_refl).
Defined.

(** * The start of a session *)

Section SessionStartFacts.

Variable URL_hostname : string -> Completion string.
Variable MYSHOPIFY_DOMAIN : option string.
Variable STOREFRONT_BASE_URL : option string.
Variable setup : SetupEnv.

(** X7.  Once the shop domain is resolved, the client of the session is
    always built: host names having no [://] in them, the constructor does
    not parse a URL again.  The client carries the conversation id and the
    [X-Shopify-Shop-Id] header, or [unknown]; its customer endpoint is the
    discovered one, or, when discovery answered [null], the account
    subdomain of the resolved domain. *)
Theorem open_session_builds_client request conversation (t : list SetupEffect) shopDomain :
  (forall u h, URL_hostname u = Returned h -> includes "://" h = false) ->
  resolveShopDomain URL_hostname MYSHOPIFY_DOMAIN request = Returned shopDomain ->
  let discovery := getCustomerMcpEndpoint setup shopDomain conversation t in
  exists c,
    open_session URL_hostname MYSHOPIFY_DOMAIN STOREFRONT_BASE_URL setup
                 request conversation t
      = (Returned (c, fst discovery), snd discovery) /\
    conversationId c = conversation /\
    shopId c = or_default (header request "X-Shopify-Shop-Id") "unknown" /\
    (forall e, fst discovery = Some e -> customerMcpEndpoint c = e) /\
    (fst discovery = None ->
     exists x sfx,
       shopDomain = x ++ sfx /\ eqb_ci sfx ".myshopify.com" = true /\
       customerMcpEndpoint c =
         "https://" ++ x ++ ".account.myshopify.com" ++ "/customer/api/mcp").
Proof.
  intros Hhost Hres discovery.
  pose proof (resolveShopDomain_no_protocol _ _ _ _ Hhost Hres) as Hp.
  destruct (proj1 (ends_with_ci_split _ _) (resolveShopDomain_suffix _ _ _ _ Hres))
    as (x & sfx & Hsplit & Hsfx).
  pose proof (getCustomerMcpEndpoint_shape setup shopDomain conversation t) as Hshape.
  fold discovery in Hshape.
  unfold open_session. rewrite Hres. fold discovery.
  destruct discovery as [ep t'] eqn:Hd. simpl in *.
  unfold MCPClient_constructor. rewrite Hp. eexists. split; [reflexivity|].
  simpl. repeat split.
  - intros e ->. destruct (Hshape e eq_refl) as (base & -> & _). simpl.
    destruct base; reflexivity.
  - intros ->. exists x, sfx. repeat split; auto. simpl.
    unfold accountHost. rewrite Hsplit, (replace_suffix_ci_match _ _ x sfx Hsfx).
    now rewrite append_assoc.
Qed.

Variable env : Env.
Variable ENABLE_CUSTOMER_MCP : bool.

(** X8.  A request whose shop domain cannot be resolved ends the session
    with that error before anything else happens: no account URL is read,
    no request is sent and no event, not even [id], reaches the stream. *)
Theorem unresolved_shop_ends_session request userMessage conversation promptType fuel e :
  resolveShopDomain URL_hostname MYSHOPIFY_DOMAIN request = Threw e ->
  handleChatSession_request URL_hostname MYSHOPIFY_DOMAIN STOREFRONT_BASE_URL setup
                            env ENABLE_CUSTOMER_MCP
                            request userMessage conversation promptType fuel
    = (Some (Threw e, []), []).
Proof.
  intros H. unfold handleChatSession_request, open_session. now rewrite H.
Qed.

End SessionStartFacts.

Lemma open_session_builds_client_witness :
  exists c,
    open_session hostname_stub None None
                 (setup_scenario None (Threw (Error "offline")))
                 (shop_request "https://demo.myshopify.com/" no_headers) "conv-1" []
      = (Returned (c, None),
         [GetCustomerAccountUrl "conv-1"; ShopQuery "demo.myshopify.com";
          SetupConsole "Error getting customer MCP endpoint:"]) /\
    shopId c = "unknown".
Proof.
  destruct (open_session_builds_client
              hostname_stub None None (setup_scenario None (Threw (Error "offline")))
              (shop_request "https://demo.myshopify.com/" no_headers) "conv-1" []
              "demo.myshopify.com")
    as (c & Hrun & _ & Hshop & _).
  - intros u h. unfold hostname_stub.
    destruct (u =? "https://demo.myshopify.com/"); [|discriminate].
    now intros [= <-].
  - reflexivity.
  - exists c. split; [exact Hrun|exact Hshop].
Defined.

Lemma unresolved_shop_ends_session_witness :
  handleChatSession_request hostname_stub None None
    (setup_scenario None (Threw (Error "offline"))) offline_env true
    (shop_request "shop.example.com" no_headers) "hi" "conv-1" "standardAssistant" 3
  = (Some (Threw (Error "Invalid shop domain for Shopify SDK: shop.example.com"), []), []).
Proof.
  exact (unresolved_shop_ends_session
           hostname_stub None None (setup_scenario None (Threw (Error "offline")))
           offline_env true (shop_request "shop.example.com" no_headers)
           "hi" "conv-1" "standardAssistant" 3
           (Error "Invalid shop domain for Shopify SDK: shop.example.com") eq_refl).
Defined.

(** * The route *)

Section RouteFacts.

Variable env : Env.
Variable config : AppConfig.

(** X9.  Both header builders answer the request's [Origin], or [*] when
    it is absent or empty, so the allowed origin is never empty; both allow
    credentials in every case, with [*] too. *)
Theorem allowed_origin request :
  header_value "Access-Control-Allow-Origin" (getCorsHeaders request)
    = Some (or_default (header request "Origin") "*") /\
  header_value "Access-Control-Allow-Origin" (getSseHeaders request)
    = Some (or_default (header request "Origin") "*") /\
  or_default (header request "Origin") "*" <> "" /\
  (forall origin, header request "Origin" = Some origin -> origin <> "" ->
                  or_default (header request "Origin") "*" = origin) /\
  header_value "Access-Control-Allow-Credentials" (getCorsHeaders request) = Some "true" /\
  header_value "Access-Control-Allow-Credentials" (getSseHeaders request) = Some "true".
Proof.
  repeat split.
  - unfold or_default. destruct (header request "Origin") as [o|]; [|discriminate].
    destruct (nonempty o) eqn:Ho; [|discriminate].
    intros ->. discriminate.
  - intros origin -> Hne. unfold or_default, nonempty.
    destruct (origin =? "") eqn:He; [|reflexivity].
    apply String.eqb_eq in He. contradiction.
Qed.

(** X10.  [handleChatRequest] always answers, without reading the
    database.  A body that cannot be read or is [null] gives status 500
    with the error message and the CORS headers, after the error was
    logged; a missing or falsy [message] gives status 400 with the
    configured text; in neither case is a session started. *)
Theorem handleChatRequest_rejects request (t : list Effect) :
  (exists response d,
      handleChatRequest env config request t = (Returned response, (t ++ d)%list) /\
      (d = [] \/ d = [chat_error_log])) /\
  (forall e,
      request_json request = Threw e ->
      handleChatRequest env config request t =
        (Returned (mkHttpResponse 500 (getCorsHeaders request)
                     (JsonBody (JObj [("error", JStr (message e))]))),
         (t ++ [chat_error_log])%list)) /\
  (forall body,
      request_json request = Returned body ->
      nullish body = true ->
      exists msg,
        handleChatRequest env config request t =
          (Returned (mkHttpResponse 500 (getCorsHeaders request)
                       (JsonBody (JObj [("error", JStr msg)]))),
           (t ++ [chat_error_log])%list)) /\
  (forall body,
      request_json request = Returned body ->
      nullish body = false ->
      truthy (prop body "message") = false ->
      handleChatRequest env config request t =
        (Returned (mkHttpResponse 400 (getSseHeaders request)
                     (JsonBody (JObj [("error", JStr (missingMessage config))]))), t)).
Proof.
  unfold handleChatRequest, chat_request_body, json_response, member.
  split; [|split; [|split]].
  - destruct (request_json request) as [body|e]; [|eauto].
    destruct (nullish body); [eauto|].
    destruct (negb (truthy (prop body "message")));
      (eexists; exists []; rewrite app_nil_r; auto).
  - intros e ->. reflexivity.
  - intros body -> ->. eauto.
  - intros body -> -> ->. reflexivity.
Qed.

(** X11.  A body with a truthy [message] opens the event stream with
    status 200.  The session gets the message as it is, the body's
    [conversation_id] when truthy and otherwise the clock reading as a
    string, and the body's [prompt_type] when truthy and otherwise the
    configured default. *)
Theorem handleChatRequest_opens_stream request (t : list Effect) body :
  request_json request = Returned body ->
  nullish body = false ->
  truthy (prop body "message") = true ->
  handleChatRequest env config request t =
    (Returned
       (mkHttpResponse 200 (getSseHeaders request)
          (SessionStream
             (prop body "message")
             (if truthy (prop body "conversation_id") then prop body "conversation_id"
              else JStr (string_of_Z (Date_now env t)))
             (if truthy (prop body "prompt_type") then prop body "prompt_type"
              else JStr (defaultPromptType config)))), t).
Proof.
  intros Hb Hn Hm. unfold handleChatRequest, chat_request_body, member, js_or.
  now rewrite Hb, Hn, Hm.
Qed.

(** X12.  [loader] answers a preflight request with status 204 whatever
    else the request holds.  It opens an event stream only for a request
    that has no [history] parameter and whose [Accept] header is exactly
    [text/event-stream]; it reads the database only when both [history] and
    [conversation_id] are present, for that conversation id alone, and a
    failed read is thrown, not answered. *)
Theorem loader_routing request (t : list Effect) :
  (request_method request = "OPTIONS" ->
   loader env config request t =
     (Returned (mkHttpResponse 204 (getCorsHeaders request) NoBody), t)) /\
  (forall response t',
      loader env config request t = (Returned response, t') ->
      is_session_stream response = true ->
      request_method request <> "OPTIONS" /\
      searchParams_has "history" (query request) = false /\
      header request "Accept" = Some "text/event-stream") /\
  (exists d,
      snd (loader env config request t) = (t ++ d)%list /\
      (d = [] \/ d = [chat_error_log] \/
       exists conversation,
         request_method request <> "OPTIONS" /\
         searchParams_has "history" (query request) = true /\
         searchParams_get "conversation_id" (query request) = Some conversation /\
         d = [GetConversationHistory conversation] /\
         fst (loader env config request t) =
           match getConversationHistory env t conversation with
           | Returned dbMessages =>
               Returned (mkHttpResponse 200 (getCorsHeaders request)
                                        (MessagesBody dbMessages))
           | Threw e => Threw e
           end)).
Proof.
  unfold loader. split; [|split].
  - intros ->. reflexivity.
  - intros response t'.
    destruct (request_method request =? "OPTIONS") eqn:Hm.
    { intros [= <- _]. discriminate. }
    apply String.eqb_neq in Hm.
    destruct (searchParams_has "history" (query request)) eqn:Hh; simpl.
    + destruct (searchParams_has "conversation_id" (query request)).
      * unfold handleHistoryRequest.
        destruct (getConversationHistory env t _); [|discriminate].
        intros [= <- _]. discriminate.
      * intros [= <- _]. discriminate.
    + destruct (header request "Accept") as [a|].
      * destruct (a =? "text/event-stream") eqn:Ha.
        -- apply String.eqb_eq in Ha. subst a. auto.
        -- intros [= <- _]. discriminate.
      * intros [= <- _]. discriminate.
  - destruct (request_method request =? "OPTIONS") eqn:Hm.
    { exists []. simpl. rewrite app_nil_r. auto. }
    apply String.eqb_neq in Hm.
    destruct (searchParams_has "history" (query request)) eqn:Hh; simpl.
    + unfold searchParams_has.
      destruct (searchParams_get "conversation_id" (query request)) as [c|] eqn:Hc.
      * eexists. split; [reflexivity|]. right. right. exists c. repeat split; auto.
      * exists []. simpl. rewrite app_nil_r. auto.
    + destruct (match header request "Accept" with
                | Some a => a =? "text/event-stream"
                | None => false
                end).
      * unfold handleChatRequest.
        destruct (chat_request_body config request (Date_now env t)).
        -- exists []. simpl. rewrite app_nil_r. auto.
        -- eexists. split; [reflexivity|]. auto.
      * exists []. simpl. rewrite app_nil_r. auto.
Qed.

End RouteFacts.

Lemma allowed_origin_witness :
  header_value "Access-Control-Allow-Origin"
               (getSseHeaders (post_request (Returned JNull)))
    = Some "https://demo.myshopify.com".
Proof.
  exact (proj1 (proj2 (allowed_origin (post_request (Returned JNull))))).
Defined.

Lemma handleChatRequest_rejects_witness :
  handleChatRequest offline_env demo_config
                    (post_request (Returned (JObj [("message", JStr "")]))) [] =
  (Returned (mkHttpResponse 400
               (getSseHeaders (post_request (Returned (JObj [("message", JStr "")]))))
               (JsonBody (JObj [("error", JStr "Message is required")]))), []).
Proof.
  exact (proj2 (proj2 (proj2 (handleChatRequest_rejects
                                offline_env demo_config
                                (post_request (Returned (JObj [("message", JStr "")])))
                                [])))
               (JObj [("message", JStr "")]) eq_refl eq_refl eq_refl).
Defined.

Lemma handleChatRequest_opens_stream_witness :
  handleChatRequest offline_env demo_config
                    (post_request (Returned (JObj [("message", JStr "hi")]))) [] =
  (Returned (mkHttpResponse 200
               (getSseHeaders (post_request (Returned (JObj [("message", JStr "hi")]))))
               (SessionStream (JStr "hi") (JStr "1700000000000")
                              (JStr "standardAssistant"))), []).
Proof.
  exact (handleChatRequest_opens_stream
           offline_env demo_config
           (post_request (Returned (JObj [("message", JStr "hi")]))) []
           (JObj [("message", JStr "hi")]) eq_refl eq_refl eq_refl).
Defined.

(** A history request that asks for an event stream gets the history. *)
Lemma loader_routing_witness :
  exists d,
    snd (loader offline_env demo_config history_request []) = d /\
    d = [GetConversationHistory "conv-1"].
Proof.
  destruct (proj2 (proj2 (loader_routing offline_env demo_config history_request [])))
    as (d & Hd & _).
  exists d. split; [exact Hd|]. symmetry. exact Hd.
Defined.

(** * More on the client *)

Section ClientExtras.

Variable env : Env.

(** X13.  One call of [_makeJsonRpcRequest] sends one request, whatever
    comes back: a POST to the endpoint with the given headers whose body
    holds [jsonrpc: "2.0"], the method, the clock reading as [id] and the
    parameters.  It does not touch the client.  On a 2xx answer with a body
    that parses, it returns the parsed value and does nothing else. *)
Theorem makeJsonRpcRequest_sends_one_post target method params hs (w : World) :
  let run := _makeJsonRpcRequest env target method params hs w in
  let req := mkRequest target "POST" hs
               (JObj [("jsonrpc", JStr "2.0"); ("method", JStr method);
                      ("id", JNum (Date_now env (trace w))); ("params", params)]) in
  client (snd run) = client w /\
  (exists d, trace (snd run) = (trace w ++ d)%list /\ fetched d = [req]) /\
  (forall res body v,
      fetch env (trace w) req = Returned res ->
      text res = Returned body ->
      (200 <= res_status res <= 299)%Z ->
      JSON_parse env body = inl v ->
      run = (Returned v, mkWorld (client w) (trace w ++ [Fetch req])%list)).
Proof.
  intros run req. unfold run. rewrite makeJsonRpcRequest_run.
  change (rpc_request env (trace w) target method params hs) with req.
  split; [reflexivity|]. split.
  - eexists. split; [reflexivity|]. simpl. now rewrite rpc_log_fetched.
  - intros res body v Hf Ht [Hlo Hhi] Hp. rewrite Hf. unfold rpc_result, rpc_log.
    rewrite Ht. assert (ok res = true) as ->.
    { unfold ok. apply andb_true_intro. split; apply Z.leb_le; assumption. }
    now rewrite Hp.
Qed.

(** X14.  [_formatToolsData] returns exactly on an array none of whose
    elements is [null] or [undefined]; on anything else it throws.  A
    response without [result], or whose [result] has no [tools], is read as
    the empty array and so gives the empty catalog. *)
Theorem formatToolsData_domain (toolsData : JsVal) :
  ((exists ts, _formatToolsData toolsData = Returned ts) <->
   (exists l, toolsData = JArr l /\ forallb (fun tool => negb (nullish tool)) l = true)) /\
  (forall response,
      truthy (prop response "result") = false \/
      truthy (prop (prop response "result") "tools") = false ->
      _formatToolsData (tools_of_response response) = Returned []).
Proof.
  split.
  - split.
    + intros [ts H]. destruct toolsData; simpl in H; try discriminate.
      exists elems. split; [reflexivity|]. revert ts H.
      induction elems as [|tool l IH]; intros ts H; [reflexivity|]. simpl in *.
      unfold format_tool in H. destruct (nullish tool); [discriminate|]. simpl.
      destruct (map_tools l) as [ts'|]; [|discriminate]. eauto.
    + intros (l & -> & Hl). simpl. induction l as [|tool l IH]; [now exists []|].
      simpl in *.
      apply andb_prop in Hl as [Ht Hl]. unfold format_tool.
      apply negb_true_iff in Ht. rewrite Ht.
      destruct (IH Hl) as [ts ->]. eauto.
  - intros response H. unfold tools_of_response.
    destruct (nullish response); [reflexivity|].
    destruct H as [-> | H]; [reflexivity|].
    rewrite H, andb_false_r. reflexivity.
Qed.

Lemma rethrown {A} (body : M A) (line : Effect) (w : World) e w' :
  try_catch body (fun e => perform line (fun _ => Returned tt) ;;; throw e) w
    = (Threw e, w') ->
  exists w1, body w = (Threw e, w1) /\
             w' = mkWorld (client w1) (trace w1 ++ [line])%list.
Proof.
  unfold try_catch. destruct (body w) as [[a|e1] w1]; [discriminate|].
  run_m. intros [= <- <-]. eauto.
Qed.

(** X15.  A connect that throws changes no catalog: the merged list and
    both per-backend lists are as before.  The error was written to the
    console as the last thing the call did. *)
Theorem connect_failure_changes_nothing (b : Backend) (w : World) e w' :
  connect env b w = (Threw e, w') ->
  tools (client w') = tools (client w) /\
  customerTools (client w') = customerTools (client w) /\
  storefrontTools (client w') = storefrontTools (client w) /\
  exists t, trace w' = (t ++ [connect_failed_log])%list.
Proof.
  intros H. pose proof (connect_effect_holds env b w) as Heff.
  rewrite H in Heff. simpl in Heff. destruct Heff as [Ht Hc].
  split; [exact Ht|]. split; [exact (Hc CustomerBackend)|].
  split; [exact (Hc StorefrontBackend)|].
  destruct b; simpl in H;
    [unfold connectToCustomerServer in H|unfold connectToStorefrontServer in H];
    apply rethrown in H as (w1 & _ & ->); simpl; eauto.
Qed.

Lemma rpc_log_auth_urls answer : filter is_auth_url (rpc_log env answer) = [].
Proof.
  unfold rpc_log. destruct answer as [res|]; [|reflexivity].
  destruct (text res); [|reflexivity]. destruct (ok res); [|reflexivity].
  destruct (JSON_parse env a); reflexivity.
Qed.

Lemma connectToStorefrontServer_anonymous (w : World) :
  exists d,
    trace (snd (connectToStorefrontServer env w)) = (trace w ++ d)%list /\
    anonymous (storefrontMcpEndpoint (client w)) d.
Proof.
  unfold connectToStorefrontServer. run_m. rewrite makeJsonRpcRequest_run.
  cbn [client trace].
  set (req := rpc_request _ _ _ _ _ _). set (answer := fetch env _ req).
  pose proof (rpc_log_fetched env answer) as Hf.
  pose proof (rpc_log_lookups env answer) as Hl.
  pose proof (rpc_log_auth_urls answer) as Ha.
  destruct (rpc_result env answer) as [response|e];
    [destruct (_formatToolsData (tools_of_response response))|]; simpl;
    rewrite <- ?app_assoc; simpl; (eexists; split; [reflexivity|]);
    unfold anonymous; simpl;
    rewrite ?fetched_app, ?filter_app, ?Hf, ?Hl, ?Ha; repeat split.
Qed.

(** X16.  The storefront backend is always addressed anonymously.  Both
    [connectToStorefrontServer] and [callStorefrontTool] send one request,
    to the storefront endpoint, with [Content-Type] as its only header, and
    neither reads the token table, asks for an authorization URL or changes
    the client's token, cached or not.  A 401 answer to a storefront tool
    call is thrown as an error with status 401. *)
Theorem storefront_is_anonymous toolName toolArgs (w : World) :
  (exists d,
      trace (snd (connectToStorefrontServer env w)) = (trace w ++ d)%list /\
      anonymous (storefrontMcpEndpoint (client w)) d) /\
  customerAccessToken (client (snd (connectToStorefrontServer env w)))
    = customerAccessToken (client w) /\
  (exists d,
      trace (snd (callStorefrontTool env toolName toolArgs w)) = (trace w ++ d)%list /\
      anonymous (storefrontMcpEndpoint (client w)) d) /\
  client (snd (callStorefrontTool env toolName toolArgs w)) = client w /\
  (forall res body,
      (forall t req, endpoint req = storefrontMcpEndpoint (client w) ->
                     fetch env t req = Returned res) ->
      res_status res = 401%Z ->
      text res = Returned body ->
      exists err,
        fst (callStorefrontTool env toolName toolArgs w) = Threw err /\
        status err = Some 401%Z).
Proof.
  split; [|split; [|split; [|split]]].
  - apply connectToStorefrontServer_anonymous.
  - unfold connectToStorefrontServer. run_m. rewrite makeJsonRpcRequest_run.
    cbn [client trace].
    destruct (rpc_result env _) as [response|e];
      [destruct (_formatToolsData (tools_of_response response))|]; reflexivity.
  - rewrite callStorefrontTool_run.
    set (t0 := (trace w ++ _)%list). set (req := rpc_request _ _ _ _ _ _).
    set (answer := fetch env t0 req).
    pose proof (rpc_log_fetched env answer) as Hf.
    pose proof (rpc_log_lookups env answer) as Hl.
    pose proof (rpc_log_auth_urls answer) as Ha.
    destruct (rpc_result env answer) as [response|e];
      [destruct (member response "result")|]; simpl; unfold t0;
      rewrite <- ?app_assoc; simpl; (eexists; split; [reflexivity|]);
      unfold anonymous; simpl;
      rewrite ?fetched_app, ?filter_app, ?Hf, ?Hl, ?Ha; repeat split.
  - rewrite callStorefrontTool_run.
    destruct (rpc_result env _) as [response|e];
      [destruct (member response "result")|]; reflexivity.
  - intros res body Hfetch Hs Ht. rewrite callStorefrontTool_run.
    rewrite Hfetch by reflexivity.
    destruct (unauthorized_response env res body Hs Ht) as [-> _].
    eexists. split; [reflexivity|]. simpl. now rewrite Hs.
Qed.

(** X17.  When the customer endpoint answers 401 and the authorization-URL
    generator throws, a customer tool call returns the [internal_error]
    result carrying the generator's error message: there is no
    [auth_required] result without a URL. *)
Theorem unauthorized_without_url toolName toolArgs (w : World) res body e :
  In (JStr toolName) (map name (customerTools (client w))) ->
  (forall t, exists r, getCustomerToken env t (conversationId (client w)) = Returned r) ->
  (forall t req, endpoint req = customerMcpEndpoint (client w) ->
                 fetch env t req = Returned res) ->
  res_status res = 401%Z ->
  text res = Returned body ->
  (forall t, generateAuthUrl env t (conversationId (client w)) (shopId (client w))
             = Threw e) ->
  fst (callTool env toolName toolArgs w) =
    Returned (error_result "internal_error"
                ("Error calling tool " ++ toolName ++ ": " ++ message e)).
Proof.
  intros Hc Hdb Hf Hs Ht Hg. rewrite callTool_customer by assumption.
  rewrite callCustomerTool_run. set (w0 := mkWorld _ _).
  destruct (resolve_token_completes env (client w) w0 (Hdb _)) as (tok & w1 & Hr).
  rewrite Hr. apply normalize_threw. rewrite call_or_authorize_run.
  rewrite Hf by reflexivity.
  destruct (unauthorized_response env res body Hs Ht) as [-> ->].
  now rewrite Hg.
Qed.

(** X18.  A tool call that is answered with a 2xx JSON envelope returns
    the envelope's [result] when that is truthy and the whole envelope
    otherwise, for a tool of either backend: an envelope that holds only an
    [error] member comes back as it is, it is not thrown. *)
Theorem callTool_returns_envelope toolName toolArgs (w : World) target res body response :
  (forall t req, endpoint req = target -> fetch env t req = Returned res) ->
  text res = Returned body ->
  (200 <= res_status res <= 299)%Z ->
  JSON_parse env body = inl response ->
  nullish response = false ->
  (In (JStr toolName) (map name (customerTools (client w))) ->
   target = customerMcpEndpoint (client w) ->
   (forall t, exists r, getCustomerToken env t (conversationId (client w)) = Returned r) ->
   fst (callTool env toolName toolArgs w) =
     Returned (if truthy (prop response "result") then prop response "result"
               else response)) /\
  (~ In (JStr toolName) (map name (customerTools (client w))) ->
   In (JStr toolName) (map name (storefrontTools (client w))) ->
   target = storefrontMcpEndpoint (client w) ->
   fst (callTool env toolName toolArgs w) =
     Returned (if truthy (prop response "result") then prop response "result"
               else response)).
Proof.
  intros Hf Ht [Hlo Hhi] Hp Hn.
  assert (rpc_result env (Returned res) = Returned response) as Hrpc.
  { unfold rpc_result. rewrite Ht.
    assert (ok res = true) as ->
        by (unfold ok; apply andb_true_intro; split; apply Z.leb_le; assumption).
    now rewrite Hp. }
  split.
  - intros Hc -> Hdb. rewrite callTool_customer by assumption.
    rewrite callCustomerTool_run. set (w0 := mkWorld _ _).
    destruct (resolve_token_completes env (client w) w0 (Hdb _)) as (tok & w1 & Hr).
    rewrite Hr, call_or_authorize_run. rewrite Hf by reflexivity.
    rewrite Hrpc. unfold member. rewrite Hn. reflexivity.
  - intros Hc Hs ->. rewrite callTool_storefront by assumption.
    rewrite callStorefrontTool_run. rewrite Hf by reflexivity.
    rewrite Hrpc. unfold member. rewrite Hn. reflexivity.
Qed.

Lemma resolve_token_client (c : MCPClient) (w : World) :
  client (snd (resolve_token env c w)) = client w \/
  exists tok,
    nonempty (customerAccessToken c) = false /\ nonempty tok = true /\
    client (snd (resolve_token env c w)) = set_customerAccessToken tok (client w).
Proof.
  unfold resolve_token. destruct (nonempty (customerAccessToken c)) eqn:Hc; simpl.
  - now left.
  - rewrite lookup_token_run.
    destruct (getCustomerToken env (trace w) (conversationId c)) as [[d|]|e];
      [destruct (nonempty (accessToken d)) eqn:Hd| |]; simpl; eauto.
Qed.

(** X19.  Dispatch never changes the catalogs, the endpoints or the
    identifiers of the client.  The cached token is the only field it may
    write: a token that is cached stays as it is, and an empty one is
    either left empty or replaced by a non-empty token. *)
Theorem callTool_keeps_catalogs toolName toolArgs (w : World) :
  same_but_token (client (snd (callTool env toolName toolArgs w))) (client w) /\
  (nonempty (customerAccessToken (client w)) = true ->
   customerAccessToken (client (snd (callTool env toolName toolArgs w)))
     = customerAccessToken (client w)) /\
  (customerAccessToken (client (snd (callTool env toolName toolArgs w)))
     = customerAccessToken (client w) \/
   nonempty (customerAccessToken (client (snd (callTool env toolName toolArgs w))))
     = true).
Proof.
  unfold callTool, bind, this. simpl.
  destruct (advertises (customerTools (client w)) toolName).
  - destruct (callCustomerTool_trace env toolName toolArgs w)
      as (d & _ & _ & _ & _ & Hcl).
    rewrite Hcl. clear Hcl. set (w0 := mkWorld _ _).
    destruct (resolve_token_client (client w) w0) as [-> | (tok & Hnone & Htok & ->)];
      simpl.
    + repeat split; auto.
    + split; [repeat split|]. split; [congruence|auto].
  - destruct (advertises (storefrontTools (client w)) toolName).
    + rewrite callStorefrontTool_run.
      destruct (rpc_result env _) as [response|e];
        [destruct (member response "result")|]; simpl; repeat split; auto.
    + simpl. repeat split; auto.
Qed.

Lemma catalog_request_trace (w1 : World) (t : list Effect) pre :
  trace w1 = (t ++ pre)%list ->
  fetched pre = [] ->
  let req := rpc_request env (trace w1) (customerMcpEndpoint (client w1))
               "tools/list" (JObj []) (auth_headers (customerAccessToken (client w1))) in
  let answer := fetch env (trace w1) req in
  let t2 := (trace w1 ++ Fetch req :: rpc_log env answer)%list in
  forall r : Completion (list Tool) * World,
    (trace (snd r) = t2 \/ trace (snd r) = (t2 ++ [connect_failed_log])%list) ->
    exists d,
      trace (snd r) = (t ++ d)%list /\
      filter is_token_lookup d = filter is_token_lookup pre /\
      map endpoint (fetched d) = [customerMcpEndpoint (client w1)] /\
      map headers (fetched d) = [auth_headers (customerAccessToken (client w1))].
Proof.
  intros Ht Hpre req answer t2 r Hr.
  pose proof (rpc_log_fetched env answer) as Hf.
  pose proof (rpc_log_lookups env answer) as Hl.
  destruct Hr as [-> | ->]; unfold t2; rewrite Ht, <- ?app_assoc;
    (eexists; split; [reflexivity|]);
    rewrite ?fetched_app, ?filter_app, Hpre; simpl;
    rewrite ?fetched_app, ?filter_app, Hf, Hl, ?app_nil_r; auto.
Qed.

(** X20.  [connectToCustomerServer] reads the token table on every connect
    of a client that has a conversation id, cached token or not, and a
    token found there replaces the cached one; with an empty conversation
    id it reads nothing.  The catalog request then carries
    [Authorization: Bearer] with the token at hand, or no such header when
    there is none.  A failed read is thrown and no request is sent. *)
Theorem connectToCustomerServer_credentials (w : World) :
  let run := connectToCustomerServer env w in
  let bearer tok :=
    if nonempty tok
    then [("Content-Type", "application/json"); ("Authorization", "Bearer " ++ tok)]
    else [("Content-Type", "application/json")] in
  (nonempty (conversationId (client w)) = false ->
   exists d,
     trace (snd run) = (trace w ++ d)%list /\
     filter is_token_lookup d = [] /\
     map headers (fetched d) = [bearer (customerAccessToken (client w))]) /\
  (nonempty (conversationId (client w)) = true ->
   (forall r,
       (forall t, getCustomerToken env t (conversationId (client w)) = Returned r) ->
       exists d,
         trace (snd run) = (trace w ++ d)%list /\
         filter is_token_lookup d = [GetCustomerToken (conversationId (client w))] /\
         map endpoint (fetched d) = [customerMcpEndpoint (client w)] /\
         map headers (fetched d) =
           [bearer (if nonempty (found_token r) then found_token r
                    else customerAccessToken (client w))]) /\
   (forall e,
       (forall t, getCustomerToken env t (conversationId (client w)) = Threw e) ->
       fst run = Threw e /\
       exists d, trace (snd run) = (trace w ++ d)%list /\ fetched d = [])).
Proof.
  intros run bearer.
  assert (forall tok, auth_headers tok = bearer tok) as Hb
      by (intros tok; unfold auth_headers, bearer; destruct (nonempty tok); reflexivity).
  unfold run. rewrite connectToCustomerServer_run. cbv zeta. split.
  - intros Hconv. rewrite Hconv.
    set (w0 := mkWorld _ _).
    edestruct (catalog_request_trace w0 (trace w) _ eq_refl eq_refl) as (d & Ht & Hl & _ & Hh).
    2: { exists d. split; [exact Ht|]. split; [exact Hl|]. rewrite Hh, Hb. reflexivity. }
    destruct (rpc_result env _) as [response|e];
      [destruct (_formatToolsData (tools_of_response response))|]; simpl; auto.
  - intros Hconv. rewrite Hconv. split.
    + intros r Hdb. rewrite lookup_token_run, Hdb. cbn [trace client].
      destruct r as [d0|]; [destruct (nonempty (accessToken d0)) eqn:Hd|];
        cbn [found_token]; rewrite ?Hd.
      * set (w1 := mkWorld (set_customerAccessToken _ _) _).
        edestruct (catalog_request_trace w1 (trace w) _ ltac:(unfold w1; simpl;
                     rewrite <- app_assoc; reflexivity) eq_refl)
          as (d & Ht & Hl & He & Hh).
        2: { exists d. split; [exact Ht|]. split; [exact Hl|]. split; [exact He|].
             rewrite Hh, Hb. reflexivity. }
        destruct (rpc_result env _) as [response|e];
          [destruct (_formatToolsData (tools_of_response response))|]; simpl; auto.
      * set (w1 := mkWorld _ _).
        edestruct (catalog_request_trace w1 (trace w) _ ltac:(unfold w1; simpl;
                     rewrite <- app_assoc; reflexivity) eq_refl)
          as (d & Ht & Hl & He & Hh).
        2: { exists d. split; [exact Ht|]. split; [exact Hl|]. split; [exact He|].
             rewrite Hh, Hb. reflexivity. }
        destruct (rpc_result env _) as [response|e];
          [destruct (_formatToolsData (tools_of_response response))|]; simpl; auto.
      * set (w1 := mkWorld _ _).
        edestruct (catalog_request_trace w1 (trace w) _ ltac:(unfold w1; simpl;
                     rewrite <- app_assoc; reflexivity) eq_refl)
          as (d & Ht & Hl & He & Hh).
        2: { exists d. split; [exact Ht|]. split; [exact Hl|]. split; [exact He|].
             rewrite Hh, Hb. reflexivity. }
        destruct (rpc_result env _) as [response|e];
          [destruct (_formatToolsData (tools_of_response response))|]; simpl; auto.
    + intros e Hdb. rewrite lookup_token_run, Hdb. cbn [fst snd trace client].
      split; [reflexivity|]. rewrite <- !app_assoc. eexists. split; [reflexivity|].
      reflexivity.
Qed.

End ClientExtras.

(** * More on the session *)

Section SessionExtras.

Variable env : Env.
Variable userMessage : string.
Variable sessionId : string.
Variable promptVariant : string.
Variable ENABLE_CUSTOMER_MCP : bool.
Variable discoveredEndpoint : option string.

Lemma iteration_emits l : emits any_effect (iteration env sessionId promptVariant l).
Proof.
  intros w. destruct (iteration_calls env sessionId promptVariant l w) as (d & Ht & _).
  exists d. split; [exact Ht|]. clear. induction d; simpl; auto.
Qed.

Lemma conversation_loop_extends fuel : forall stop l (w : World) r w',
  conversation_loop env sessionId promptVariant fuel stop l w = Some (r, w') ->
  exists d, trace w' = (trace w ++ d)%list.
Proof.
  induction fuel as [|fuel IH]; intros stop l w r w'; simpl;
    destruct (continues stop); try discriminate.
  - intros [= <- <-]. exists []. now rewrite app_nil_r.
  - destruct (iteration_emits l w) as (d1 & Ht1 & _).
    destruct (iteration env sessionId promptVariant l w) as [[[fm l1]|e] w1];
      simpl in Ht1.
    + intros H. destruct (IH _ _ _ _ _ H) as (d2 & Ht2).
      exists (d1 ++ d2)%list. now rewrite Ht2, Ht1, app_assoc.
    + intros [= <- <-]. eauto.
  - intros [= <- <-]. exists []. now rewrite app_nil_r.
Qed.

Lemma finish_run l (w : World) :
  finish l w =
  (Returned tt,
   mkWorld (client w)
           (trace w ++ end_turn_event ::
              (if negb (List.length (productsToDisplay l) =? 0)%nat
               then [product_results_event (productsToDisplay l)] else []))%list).
Proof.
  unfold finish, sendMessage. run_m.
  destruct (negb (List.length (productsToDisplay l) =? 0)%nat); simpl;
    [rewrite <- app_assoc|]; reflexivity.
Qed.

Lemma converse_extends fuel l (w : World) r w' :
  converse env sessionId promptVariant fuel l w = Some (r, w') ->
  exists d, trace w' = (trace w ++ d)%list.
Proof.
  unfold converse.
  destruct (conversation_loop env sessionId promptVariant fuel None l w)
    as [[[l'|e] w1]|] eqn:Hloop; [| |discriminate];
    destruct (conversation_loop_extends _ _ _ _ _ _ Hloop) as (d1 & Ht1).
  - rewrite finish_run. intros [= <- <-]. simpl. rewrite Ht1, <- app_assoc. eauto.
  - intros [= <- <-]. eauto.
Qed.

#[local] Abbreviation prepare_session :=
  (prepare env userMessage sessionId ENABLE_CUSTOMER_MCP discoveredEndpoint).
#[local] Abbreviation session :=
  (handleChatSession env userMessage sessionId promptVariant ENABLE_CUSTOMER_MCP
                     discoveredEndpoint).

(** The run of lines 167-213, by what discovery leaves and what the
    database answers. *)
Lemma prepare_steps (w : World) :
  let w0 := mkWorld (client w) (trace w ++ [id_event sessionId])%list in
  exists w1 d1,
    connect_servers env ENABLE_CUSTOMER_MCP discoveredEndpoint w0 = (Returned tt, w1) /\
    trace w1 = (trace w0 ++ d1)%list /\
    forallb client_effect d1 = true /\
    let t2 := (trace w1 ++ [SaveMessage sessionId "user" userMessage])%list in
    prepare_session w =
    match saveMessage env (trace w1) sessionId "user" userMessage with
    | Threw e => (Threw e, mkWorld (client w1) t2)
    | Returned _ =>
        match getConversationHistory env t2 sessionId with
        | Threw e =>
            (Threw e, mkWorld (client w1) (t2 ++ [GetConversationHistory sessionId])%list)
        | Returned dbMessages =>
            (Returned (mkLocals (map (hydrate env) dbMessages) []),
             mkWorld (client w1) (t2 ++ [GetConversationHistory sessionId])%list)
        end
    end.
Proof.
  intros w0.
  destruct (connect_servers_run env ENABLE_CUSTOMER_MCP discoveredEndpoint w0)
    as (w1 & Hrun & _).
  destruct (connect_servers_emits env ENABLE_CUSTOMER_MCP discoveredEndpoint w0)
    as (d1 & Ht1 & Hd1).
  rewrite Hrun in Ht1. simpl in Ht1.
  exists w1, d1. split; [exact Hrun|]. split; [exact Ht1|]. split; [exact Hd1|].
  unfold prepare. unfold bind at 1, sendMessage at 1, perform at 1.
  cbn [fst snd]. fold (id_event sessionId). fold w0. unfold bind at 1. rewrite Hrun.
  run_m. destruct (saveMessage env (trace w1) sessionId "user" userMessage);
    [|reflexivity].
  destruct (getConversationHistory env _ sessionId); reflexivity.
Qed.

(** X21.  Once the client is built, whatever the session ends with, the
    first thing it did was to send the [id] event with the conversation id:
    before the MCP connections, the saving of the user message, the history
    read and every LLM call. *)
Theorem session_sends_id_first fuel (w : World) r w' :
  session fuel w = Some (r, w') ->
  exists d, trace w' = (trace w ++ id_event sessionId :: d)%list.
Proof.
  unfold handleChatSession.
  destruct (prepare_steps w) as (w1 & d1 & _ & Ht1 & _ & Hprep).
  cbv zeta in Hprep. rewrite Hprep. clear Hprep. simpl in Ht1.
  assert (forall w2 d2, trace w2 = (trace w1 ++ d2)%list ->
                        exists d, trace w2 = (trace w ++ id_event sessionId :: d)%list)
    as Hext.
  { intros w2 d2 ->. rewrite Ht1, <- !app_assoc. simpl. eauto. }
  destruct (saveMessage env (trace w1) sessionId "user" userMessage).
  - destruct (getConversationHistory env _ sessionId) as [dbMessages|e].
    + intros H. destruct (converse_extends _ _ _ _ _ H) as (d2 & Ht2).
      simpl in Ht2. rewrite <- !app_assoc in Ht2. eapply Hext. exact Ht2.
    + intros [= <- <-]. eapply Hext. simpl. rewrite <- app_assoc. reflexivity.
  - intros [= <- <-]. eapply Hext. reflexivity.
Qed.

(** X22.  When the user message cannot be saved, or the history cannot be
    read, the session throws that error for any fuel: no LLM call was made
    and the [id] event is the only event sent. *)
Theorem persistence_failure_ends_session fuel (w : World) e :
  (forall t, saveMessage env t sessionId "user" userMessage = Threw e) \/
  ((forall t, exists u, saveMessage env t sessionId "user" userMessage = Returned u) /\
   (forall t, getConversationHistory env t sessionId = Threw e)) ->
  exists w' d,
    session fuel w = Some (Threw e, w') /\
    trace w' = (trace w ++ d)%list /\
    llm_calls d = [] /\
    sent_types d = [JStr "id"].
Proof.
  intros Hfail. unfold handleChatSession.
  destruct (prepare_steps w) as (w1 & d1 & _ & Ht1 & Hd1 & Hprep).
  cbv zeta in Hprep. rewrite Hprep. clear Hprep. simpl in Ht1.
  pose proof (client_effects_not_sent d1 Hd1) as Hsent.
  assert (llm_calls d1 = []) as Hllm.
  { apply no_llm_calls. rewrite forallb_forall in *. intros x Hx.
    apply client_effect_not_llm. auto. }
  destruct Hfail as [Hsave | [Hsave Hget]].
  - rewrite Hsave. do 2 eexists. split; [reflexivity|]. simpl.
    rewrite Ht1, <- !app_assoc. split; [reflexivity|]. simpl.
    rewrite !llm_calls_app, !sent_types_app, Hllm, Hsent. auto.
  - destruct (Hsave (trace w1)) as [u ->]. rewrite Hget.
    do 2 eexists. split; [reflexivity|]. simpl.
    rewrite Ht1, <- !app_assoc. split; [reflexivity|]. simpl.
    rewrite !llm_calls_app, !sent_types_app, Hllm, Hsent. auto.
Qed.

(** X23.  A session that reaches its first LLM call sends it the persisted
    history as read back after the user message was saved, each row
    re-hydrated: same role, content parsed when [JSON.parse] accepts it and
    left as the raw text otherwise.  Nothing else is added in memory, and
    no product is pending. *)
Theorem first_request_is_persisted_history (w : World) l w' :
  prepare_session w = (Returned l, w') ->
  exists t dbMessages,
    trace w' = (t ++ [SaveMessage sessionId "user" userMessage;
                      GetConversationHistory sessionId])%list /\
    getConversationHistory env (t ++ [SaveMessage sessionId "user" userMessage])%list
                           sessionId = Returned dbMessages /\
    productsToDisplay l = [] /\
    map role (conversationHistory l) = map db_role dbMessages /\
    map content (conversationHistory l) =
      map (fun m => match JSON_parse env (db_content m) with
                    | inl v => v
                    | inr _ => JStr (db_content m)
                    end) dbMessages /\
    exists d,
      trace (snd (iteration env sessionId promptVariant l w')) = (trace w' ++ d)%list /\
      map (fun call => messages (fst call)) (llm_calls d) = [conversationHistory l].
Proof.
  destruct (prepare_steps w) as (w1 & d1 & _ & _ & _ & Hprep).
  cbv zeta in Hprep. rewrite Hprep. clear Hprep.
  destruct (saveMessage env (trace w1) sessionId "user" userMessage); [|discriminate].
  destruct (getConversationHistory env _ sessionId) as [dbMessages|] eqn:Hget;
    [|discriminate].
  intros [= <- <-]. exists (trace w1), dbMessages. simpl.
  split; [now rewrite <- app_assoc|]. split; [exact Hget|]. split; [reflexivity|].
  rewrite !map_map. split; [reflexivity|]. split; [reflexivity|].
  match goal with
  | |- context [iteration env sessionId promptVariant ?l0 ?w0] =>
      destruct (iteration_calls env sessionId promptVariant l0 w0) as (d & Ht & Hc)
  end.
  exists d. split; [exact Ht|]. rewrite Hc. reflexivity.
Qed.

(** X28.  The customer server is contacted only when the flag is on and
    an endpoint was discovered.  With the flag off, or with no endpoint or
    an empty one, discovery sends one request, to the storefront endpoint,
    reads no token and leaves the customer catalog as it was. *)
Theorem customer_server_is_gated (w : World) :
  ENABLE_CUSTOMER_MCP = false \/ discoveredEndpoint = None
  \/ discoveredEndpoint = Some "" ->
  let run := connect_servers env ENABLE_CUSTOMER_MCP discoveredEndpoint w in
  exists d,
    trace (snd run) = (trace w ++ d)%list /\
    map endpoint (fetched d) = [storefrontMcpEndpoint (client w)] /\
    filter is_token_lookup d = [] /\
    customerTools (client (snd run)) = customerTools (client w).
Proof.
  intros Hgate run.
  assert (customer_mcp_enabled ENABLE_CUSTOMER_MCP discoveredEndpoint = false) as Hoff.
  { unfold customer_mcp_enabled. destruct Hgate as [->|[->| ->]]; [reflexivity| |];
      now destruct ENABLE_CUSTOMER_MCP. }
  unfold run, connect_servers. rewrite Hoff. unfold try_catch, bind.
  destruct (connectToStorefrontServer_anonymous env w) as (d1 & Ht1 & He & _ & Hl & _).
  pose proof (connectToStorefrontServer_effect env w) as Heff.
  destruct (connectToStorefrontServer env w) as [[st|e] w1]; simpl in Ht1, Heff.
  - destruct Heff as (_ & _ & Hother & _). specialize (Hother CustomerBackend eq_refl).
    run_m. eexists. split; [rewrite Ht1, <- app_assoc; reflexivity|].
    rewrite fetched_app, filter_app, Hl. simpl. rewrite app_nil_r. auto.
  - destruct Heff as (_ & Hother). specialize (Hother CustomerBackend).
    run_m. eexists. split; [rewrite Ht1, <- app_assoc; reflexivity|].
    rewrite fetched_app, filter_app, Hl. simpl. rewrite app_nil_r. auto.
Qed.

Lemma onMessage_run msg l (w : World) :
  onMessage env sessionId msg l w =
    (Returned (mkLocals (conversationHistory l ++ [mkTurn (role msg) (content msg)])%list
                        (productsToDisplay l)),
     mkWorld (client w)
             (trace w ++ [SaveMessage sessionId (role msg)
                                      (JSON_stringify env (content msg));
                          SendMessage (event "message_complete" [])])%list).
Proof.
  unfold onMessage, sendMessage. run_m. now rewrite <- app_assoc.
Qed.

Lemma run_callbacks_plain_history cbs : forall l (w : World),
  forallb (fun cb => negb (is_tool_use cb)) cbs = true ->
  exists w' d,
    run_callbacks env sessionId cbs l w =
      (Returned (mkLocals (conversationHistory l ++ completed_turns cbs)%list
                          (productsToDisplay l)), w') /\
    client w' = client w /\
    trace w' = (trace w ++ d)%list /\
    count_sent "message_complete" d = List.length (completed_turns cbs) /\
    forallb plain_effect d = true.
Proof.
  induction cbs as [|cb cbs IH]; intros l w Hplain.
  - exists w, []. simpl. rewrite !app_nil_r. destruct l. auto.
  - simpl in Hplain. apply andb_prop in Hplain as [Hcb Hplain].
    destruct cb as [textDelta|msg|c|contentBlock]; try discriminate.
    + destruct (IH l (mkWorld (client w)
                   (trace w ++ [SendMessage (event "chunk" [("chunk", JStr textDelta)])])%list)
                   Hplain) as (w' & d & Hrun & Hc & Ht & Hn & Hd).
      exists w', (SendMessage (event "chunk" [("chunk", JStr textDelta)]) :: d).
      simpl. unfold onText, sendMessage. run_m. rewrite Hrun.
      rewrite Ht, <- app_assoc. auto.
    + destruct (IH (mkLocals (conversationHistory l ++ [mkTurn (role msg) (content msg)])%list
                             (productsToDisplay l))
                   (mkWorld (client w)
                      (trace w ++ [SaveMessage sessionId (role msg)
                                               (JSON_stringify env (content msg));
                                   SendMessage (event "message_complete" [])])%list)
                   Hplain)
        as (w' & d & Hrun & Hc & Ht & Hn & Hd).
      simpl in Hc, Ht.
      exists w', ([SaveMessage sessionId (role msg) (JSON_stringify env (content msg));
                   SendMessage (event "message_complete" [])] ++ d)%list.
      cbn [run_callbacks run_callback]. unfold bind at 1.
      rewrite onMessage_run, Hrun. cbn [completed_turns conversationHistory
                                         productsToDisplay].
      split; [now rewrite <- app_assoc|]. split; [exact Hc|].
      split; [rewrite Ht, <- app_assoc; reflexivity|].
      split; [|exact Hd].
      rewrite count_sent_app, Hn. reflexivity.
    + cbn [run_callbacks run_callback]. unfold onContentBlock.
      destruct (strict_eq_str (lookup_field "type" contentBlock) "text") eqn:Htext.
      * destruct (IH l (mkWorld (client w)
                   (trace w ++ [SendMessage (event "content_block_complete"
                                  [("content_block", JObj contentBlock)])])%list) Hplain)
          as (w' & d & Hrun & Hc & Ht & Hn & Hd).
        exists w', (SendMessage (event "content_block_complete"
                                  [("content_block", JObj contentBlock)]) :: d).
        unfold sendMessage, bind, perform, ret. cbn [fst snd]. rewrite Hrun.
        split; [reflexivity|]. split; [exact Hc|].
        simpl in Ht.
        split; [rewrite Ht, <- app_assoc; reflexivity|]. split; [exact Hn|exact Hd].
      * destruct (IH l w Hplain) as (w' & d & Hrun & Hc & Ht & Hn & Hd).
        exists w', d. unfold bind, ret. rewrite Hrun. auto.
Qed.

(** X24.  Text, message and content-block callbacks never fail a turn,
    whether or not saving a message fails.  They leave the client and the
    products alone, and the history grows by exactly the completed
    messages, in the order the provider reported them; one
    [message_complete] event is sent for each. *)
Theorem plain_callbacks_append_history cbs : forall l (w : World),
  forallb (fun cb => negb (is_tool_use cb)) cbs = true ->
  exists w' d,
    run_callbacks env sessionId cbs l w =
      (Returned (mkLocals (conversationHistory l ++ completed_turns cbs)%list
                          (productsToDisplay l)), w') /\
    client w' = client w /\
    trace w' = (trace w ++ d)%list /\
    count_sent "message_complete" d = List.length (completed_turns cbs) /\
    forallb plain_effect d = true.
Proof. exact (run_callbacks_plain_history cbs). Qed.

Lemma run_callbacks_app a b : forall l (w : World),
  run_callbacks env sessionId (a ++ b) l w =
  match run_callbacks env sessionId a l w with
  | (Returned l', w') => run_callbacks env sessionId b l' w'
  | (Threw e, w') => (Threw e, w')
  end.
Proof.
  induction a as [|cb a IH]; intros l w; [reflexivity|].
  simpl. unfold bind.
  destruct (run_callback env sessionId cb l w) as [[l1|e] w1]; [apply IH|reflexivity].
Qed.

(** X25.  When the provider asks for a tool that neither catalog
    advertises, the session ends with the error [Tool <name> not found],
    for any fuel.  The [tool_use] event was announced and is the last thing
    the session did: no request went to a server, the tool service was not
    told, and neither [new_message] nor [end_turn] is sent. *)
Theorem unknown_tool_ends_session fuel l (w : World) before c after :
  let req := mkLlmRequest (conversationHistory l) promptVariant (tools (client w)) in
  let script := streamConversation env (trace w) req in
  callbacks script = (before ++ OnToolUse c :: after)%list ->
  forallb (fun cb => negb (is_tool_use cb)) before = true ->
  ~ In (JStr (tu_name c)) (map name (customerTools (client w))) ->
  ~ In (JStr (tu_name c)) (map name (storefrontTools (client w))) ->
  exists w' d,
    converse env sessionId promptVariant (S fuel) l w
      = Some (Threw (Error ("Tool " ++ tu_name c ++ " not found")), w') /\
    trace w' =
      (trace w ++ StreamConversation req script :: d ++
         [SendMessage
            (event "tool_use"
               [("tool_use_message",
                 JStr ("Calling tool: " ++ tu_name c ++ " with arguments: "
                       ++ JSON_stringify env (tu_input c)))])])%list /\
    forallb plain_effect d = true.
Proof.
  intros req script Hcbs Hbefore Hnc Hns.
  unfold converse. simpl. rewrite iteration_run. fold req. fold script.
  rewrite Hcbs, run_callbacks_app.
  destruct (run_callbacks_plain_history before l
              (mkWorld (client w) (trace w ++ [StreamConversation req script])%list)
              Hbefore) as (w1 & d & Hrun & Hc & Ht & _ & Hd).
  rewrite Hrun. simpl in Hc, Ht.
  apply advertises_not_In in Hnc, Hns.
  unfold run_callbacks; fold run_callbacks. unfold run_callback, onToolUse, callTool,
    sendMessage.
  run_m. rewrite Hc, Hnc, Hns. simpl.
  do 2 eexists. split; [reflexivity|]. simpl.
  split; [|exact Hd]. rewrite Ht, <- !app_assoc. reflexivity.
Qed.

(** X26.  A session that completes sent [id] first and [end_turn] at the
    end, followed only by one [product_results] event, and by that only
    when there is a product to display. *)
Theorem completed_session_frame fuel (w : World) w' :
  session fuel w = Some (Returned tt, w') ->
  exists middle tail,
    trace w' = (trace w ++ id_event sessionId :: middle ++ end_turn_event :: tail)%list /\
    (tail = [] \/
     exists products, products <> [] /\ tail = [product_results_event products]).
Proof.
  unfold handleChatSession.
  destruct (prepare_steps w) as (w1 & d1 & _ & Ht1 & _ & Hprep).
  cbv zeta in Hprep. rewrite Hprep. clear Hprep. simpl in Ht1.
  destruct (saveMessage env (trace w1) sessionId "user" userMessage); [|discriminate].
  destruct (getConversationHistory env _ sessionId) as [dbMessages|e]; [|discriminate].
  unfold converse.
  match goal with
  | |- context [conversation_loop env sessionId promptVariant fuel None ?l0 ?w0] =>
      destruct (conversation_loop env sessionId promptVariant fuel None l0 w0)
        as [[[l'|e] w2]|] eqn:Hloop; try discriminate
  end.
  destruct (conversation_loop_extends _ _ _ _ _ _ Hloop) as (d2 & Ht2).
  simpl in Ht2. rewrite finish_run. intros [= <-]. simpl.
  exists (d1 ++ SaveMessage sessionId "user" userMessage
             :: GetConversationHistory sessionId :: d2)%list.
  eexists. split.
  - rewrite Ht2, Ht1, <- !app_assoc. reflexivity.
  - destruct (productsToDisplay l') as [|p ps]; simpl; [now left|].
    right. exists (p :: ps). split; [discriminate|reflexivity].
Qed.

Lemma sendMessages_run evs : forall (w : World),
  sendMessages evs w =
  (Returned tt, mkWorld (client w) (trace w ++ map SendMessage evs)%list).
Proof.
  induction evs as [|ev evs IH]; intros w; simpl.
  - rewrite app_nil_r. now destruct w.
  - unfold sendMessage. run_m. rewrite IH. simpl. now rewrite <- app_assoc.
Qed.

(** X27.  A customer tool that the account server refuses with 401 reaches
    the tool service as an error: [onToolUse] hands the [auth_required]
    result, with the authorization link, to [handleToolError] and never to
    [handleToolSuccess].  When the handler returns, its events are
    forwarded, [new_message] closes the exchange and the products to
    display are as before. *)
Theorem unauthorized_tool_reaches_error_handler c l (w : World) res body authUrl :
  In (JStr (tu_name c)) (map name (customerTools (client w))) ->
  (forall t, exists r, getCustomerToken env t (conversationId (client w)) = Returned r) ->
  (forall t req, endpoint req = customerMcpEndpoint (client w) ->
                 fetch env t req = Returned res) ->
  res_status res = 401%Z ->
  text res = Returned body ->
  (forall t, generateAuthUrl env t (conversationId (client w)) (shopId (client w))
             = Returned (mkAuthResponse authUrl)) ->
  let result := error_result "auth_required" (auth_required_message authUrl) in
  let told := HandleToolError result (tu_name c) (tu_id c) in
  exists t1,
    (exists d, t1 = (trace w ++ d)%list /\ existsb is_tool_service d = false) /\
    match handleToolError env t1 result (tu_name c) (tu_id c)
                          (conversationHistory l) sessionId with
    | Returned (history, events) =>
        exists w',
          onToolUse env sessionId c l w
            = (Returned (mkLocals history (productsToDisplay l)), w') /\
          trace w' = (t1 ++ told :: map SendMessage events
                         ++ [SendMessage (event "new_message" [])])%list
    | Threw e =>
        exists w',
          onToolUse env sessionId c l w = (Threw e, w') /\
          trace w' = (t1 ++ [told])%list
    end.
Proof.
  intros Hc Hdb Hf Hs Ht Hg result told.
  set (w0 := mkWorld (client w)
               (trace w ++ [SendMessage
                  (event "tool_use"
                     [("tool_use_message",
                       JStr ("Calling tool: " ++ tu_name c ++ " with arguments: "
                             ++ JSON_stringify env (tu_input c)))])])%list).
  assert (exists w1, callTool env (tu_name c) (tu_input c) w0 = (Returned result, w1))
    as [w1 Hcall].
  { rewrite callTool_customer by exact Hc. rewrite callCustomerTool_run.
    set (w00 := mkWorld _ _).
    destruct (resolve_token_completes env (client w0) w00 (Hdb _)) as (tok & w1 & Hr).
    rewrite Hr.
    destruct (call_or_authorize_unauthorized env (client w0) (tu_name c) (tu_input c)
                tok w1 res body authUrl Hf Hs Ht Hg) as (w2 & Hrun & _).
    rewrite Hrun. simpl. eauto. }
  destruct (callTool_trace env (tu_name c) (tu_input c) w0) as (d & Hd & Hclient).
  rewrite Hcall in Hd. simpl in Hd.
  exists (trace w1). split.
  - eexists. split; [rewrite Hd, <- app_assoc; reflexivity|].
    simpl. clear - Hclient. induction d as [|x d IH]; [reflexivity|].
    simpl in *. apply andb_prop in Hclient as [Hx Hrest].
    rewrite (IH Hrest). destruct x; simpl in *; congruence.
  - assert (onToolUse env sessionId c l w =
            ((l' <- (r <- perform told
                            (fun t => handleToolError env t result (tu_name c) (tu_id c)
                                        (conversationHistory l) sessionId) ;;
                     sendMessages (snd r) ;;;
                     ret (mkLocals (fst r) (productsToDisplay l))) ;;
              sendMessage (event "new_message" []) ;;;
              ret l') w1)) as ->.
    { unfold onToolUse. unfold bind at 1, sendMessage at 1, perform at 1.
      cbn [fst snd]. fold w0. unfold bind at 1. rewrite Hcall.
      unfold bind at 1. reflexivity. }
    unfold sendMessage, bind, perform, ret. cbn [fst snd].
    destruct (handleToolError env (trace w1) result (tu_name c) (tu_id c)
                              (conversationHistory l) sessionId)
      as [[history events]|e].
    + exists (mkWorld (client w1)
                (trace w1 ++ told :: map SendMessage events
                   ++ [SendMessage (event "new_message" [])])%list).
      split; [|reflexivity].
      cbn [fst snd]. rewrite sendMessages_run. cbn [client trace].
      rewrite <- !app_assoc. reflexivity.
    + exists (mkWorld (client w1) (trace w1 ++ [told])%list).
      split; reflexivity.
Qed.

End SessionExtras.

(** * The properties on the scenarios *)

Lemma makeJsonRpcRequest_sends_one_post_witness :
  _makeJsonRpcRequest both_up_env storefront_url "tools/list" (JObj []) json_headers fresh =
  (Returned (catalog_value "search_shop_catalog"),
   mkWorld (client fresh)
           [Fetch (mkRequest storefront_url "POST" json_headers
                     (JObj [("jsonrpc", JStr "2.0"); ("method", JStr "tools/list");
                            ("id", JNum 1700000000000); ("params", JObj [])]))]).
Proof.
  refine (proj2 (proj2 (makeJsonRpcRequest_sends_one_post
                          both_up_env storefront_url "tools/list" (JObj [])
                          json_headers fresh))
                (mkResponse 200 "OK" (Returned (catalog_json "search_shop_catalog")) None)
                (catalog_json "search_shop_catalog")
                (catalog_value "search_shop_catalog") eq_refl eq_refl _ eq_refl).
  simpl. lia.
Defined.

Lemma formatToolsData_domain_witness :
  _formatToolsData (tools_of_response (JObj [("result", JObj [])])) = Returned [].
Proof.
  exact (proj2 (formatToolsData_domain JNull) (JObj [("result", JObj [])])
               (or_intror eq_refl)).
Defined.

Lemma connect_failure_changes_nothing_witness :
  tools (client (snd (connect offline_env StorefrontBackend (connected "")))) =
    (storefront_catalog ++ customer_catalog)%list /\
  exists t,
    trace (snd (connect offline_env StorefrontBackend (connected "")))
      = (t ++ [connect_failed_log])%list.
Proof.
  destruct (connect_failure_changes_nothing
              offline_env StorefrontBackend (connected "") (TypeError "fetch failed")
              (snd (connect offline_env StorefrontBackend (connected ""))) eq_refl)
    as (Htools & _ & _ & Hlog).
  split; [exact Htools|exact Hlog].
Defined.

Lemma storefront_is_anonymous_witness :
  exists err,
    fst (callStorefrontTool unauthorized_env "search_shop_catalog" JNull (connected "tok"))
      = Threw err /\
    status err = Some 401%Z.
Proof.
  exact (proj2 (proj2 (proj2 (proj2 (storefront_is_anonymous
                                       unauthorized_env "search_shop_catalog" JNull
                                       (connected "tok")))))
               (mkResponse 401 "Unauthorized" (Returned "token required") None)
               "token required" (fun _ _ _ => eq_refl) eq_refl eq_refl).
Defined.

Lemma unauthorized_without_url_witness :
  fst (callTool no_auth_url_env "get_orders" JNull (connected "")) =
  Returned (error_result "internal_error"
              "Error calling tool get_orders: auth service down").
Proof.
  exact (unauthorized_without_url
           no_auth_url_env "get_orders" JNull (connected "")
           (mkResponse 401 "Unauthorized" (Returned "token required") None)
           "token required" (Error "auth service down")
           (or_introl eq_refl) (fun _ => ex_intro _ None eq_refl)
           (fun _ _ _ => eq_refl) eq_refl eq_refl (fun _ => eq_refl)).
Defined.

Lemma callTool_returns_envelope_witness :
  fst (callTool same_name_env "get_orders" JNull (connected "")) =
  Returned (JObj [("tools", JArr [JObj [("name", JStr "get_orders")]])]).
Proof.
  refine (proj1 (callTool_returns_envelope
                   same_name_env "get_orders" JNull (connected "") customer_url
                   (mkResponse 200 "OK" (Returned (catalog_json "get_orders")) None)
                   (catalog_json "get_orders") (catalog_value "get_orders")
                   (fun _ _ _ => eq_refl) eq_refl _ eq_refl eq_refl)
                (or_introl eq_refl) eq_refl (fun _ => ex_intro _ None eq_refl)).
  simpl. lia.
Defined.

Lemma callTool_keeps_catalogs_witness :
  customerAccessToken
    (client (snd (callTool unauthorized_env "get_orders" JNull (connected "tok")))) = "tok".
Proof.
  exact (proj1 (proj2 (callTool_keeps_catalogs
                         unauthorized_env "get_orders" JNull (connected "tok")))
               eq_refl).
Defined.

Lemma connectToCustomerServer_credentials_witness :
  exists d,
    trace (snd (connectToCustomerServer stored_token_env fresh)) = d /\
    filter is_token_lookup d = [GetCustomerToken "conv-1"] /\
    map headers (fetched d) =
      [[("Content-Type", "application/json"); ("Authorization", "Bearer shpat_1")]].
Proof.
  destruct (proj1 (proj2 (connectToCustomerServer_credentials stored_token_env fresh)
                         eq_refl)
                  (Some (mkDbToken "shpat_1")) (fun _ => eq_refl))
    as (d & Ht & Hlookups & _ & Hheaders).
  exists d. split; [exact Ht|]. split; [exact Hlookups|exact Hheaders].
Defined.

Lemma session_sends_id_first_witness :
  exists w' d,
    handleChatSession offline_env "hi" "conv-1" "standard" true None 1 fresh
      = Some (Returned tt, w') /\
    trace w' = id_event "conv-1" :: d.
Proof.
  eexists.
  assert (handleChatSession offline_env "hi" "conv-1" "standard" true None 1 fresh
          = Some (Returned tt, _)) as Hrun by (vm_compute; reflexivity).
  destruct (session_sends_id_first offline_env "hi" "conv-1" "standard" true None
              1 fresh _ _ Hrun) as (d & Hd).
  exists d. split; [exact Hrun|exact Hd].
Defined.

Lemma persistence_failure_ends_session_witness :
  exists w' d,
    handleChatSession save_fails_env "hi" "conv-1" "standard" true None 0 fresh
      = Some (Threw (Error "database is locked"), w') /\
    trace w' = d /\
    llm_calls d = [] /\
    sent_types d = [JStr "id"].
Proof.
  exact (persistence_failure_ends_session
           save_fails_env "hi" "conv-1" "standard" true None 0 fresh
           (Error "database is locked") (or_introl (fun _ => eq_refl))).
Defined.

Lemma first_request_is_persisted_history_witness :
  exists dbMessages,
    getConversationHistory replay_env
      (trace (snd (prepare replay_env "hi" "conv-1" false None fresh))) "conv-1"
      = Returned dbMessages /\
    ["user"; "assistant"] = map db_role dbMessages /\
    [JStr "hi"; JObj []] =
      map (fun m => match JSON_parse replay_env (db_content m) with
                    | inl v => v
                    | inr _ => JStr (db_content m)
                    end) dbMessages.
Proof.
  destruct (first_request_is_persisted_history
              replay_env "hi" "conv-1" "standard" false None fresh
              (mkLocals [mkTurn "user" (JStr "hi"); mkTurn "assistant" (JObj [])] [])
              (snd (prepare replay_env "hi" "conv-1" false None fresh)) eq_refl)
    as (t & dbMessages & _ & Hread & _ & Hroles & Hcontents & _).
  exists dbMessages. split; [exact Hread|]. split; [exact Hroles|exact Hcontents].
Defined.

Lemma plain_callbacks_append_history_witness :
  exists w' d,
    run_callbacks save_fails_env "conv-1" (callbacks text_turn) (mkLocals [] []) fresh =
      (Returned (mkLocals [mkTurn "assistant" (JArr [JObj [("type", JStr "text")]])] []),
       w') /\
    client w' = client fresh /\
    trace w' = d /\
    count_sent "message_complete" d = 1 /\
    forallb plain_effect d = true.
Proof.
  exact (plain_callbacks_append_history save_fails_env "conv-1" (callbacks text_turn)
           (mkLocals [] []) fresh eq_refl).
Defined.

Lemma unknown_tool_ends_session_witness :
  exists w',
    converse (tool_turn_env "track_parcel") "conv-1" "standard" 3 (mkLocals [] [])
             (connected "")
      = Some (Threw (Error "Tool track_parcel not found"), w').
Proof.
  destruct (unknown_tool_ends_session
              (tool_turn_env "track_parcel") "conv-1" "standard" 2 (mkLocals [] [])
              (connected "") [OnText "Let me look"]
              (mkToolUse "track_parcel" (JObj []) "toolu_1") [] eq_refl eq_refl
              (proj1 (advertises_not_In customer_catalog "track_parcel") eq_refl)
              (proj1 (advertises_not_In storefront_catalog "track_parcel") eq_refl))
    as (w' & d & Hrun & _).
  exists w'. exact Hrun.
Defined.

Lemma completed_session_frame_witness :
  exists w' middle tail,
    handleChatSession offline_env "hi" "conv-1" "standard" true None 1 fresh
      = Some (Returned tt, w') /\
    trace w' = id_event "conv-1" :: (middle ++ end_turn_event :: tail)%list.
Proof.
  eexists.
  assert (handleChatSession offline_env "hi" "conv-1" "standard" true None 1 fresh
          = Some (Returned tt, _)) as Hrun by (vm_compute; reflexivity).
  destruct (completed_session_frame offline_env "hi" "conv-1" "standard" true None
              1 fresh _ Hrun) as (middle & tail & Ht & _).
  exists middle, tail. split; [exact Hrun|exact Ht].
Defined.

Lemma unauthorized_tool_reaches_error_handler_witness :
  exists t1 w',
    onToolUse unauthorized_env "conv-1" (mkToolUse "get_orders" JNull "toolu_1")
              (mkLocals [] []) (connected "")
      = (Returned (mkLocals [] []), w') /\
    trace w' =
      (t1 ++ [HandleToolError
                (error_result "auth_required"
                   (auth_required_message
                      "https://auth.example/authorize?c=conv-1&s=shop-1"))
                "get_orders" "toolu_1";
              SendMessage (event "new_message" [])])%list.
Proof.
  destruct (unauthorized_tool_reaches_error_handler
              unauthorized_env "conv-1" (mkToolUse "get_orders" JNull "toolu_1")
              (mkLocals [] []) (connected "")
              (mkResponse 401 "Unauthorized" (Returned "token required") None)
              "token required" "https://auth.example/authorize?c=conv-1&s=shop-1"
              (or_introl eq_refl) (fun _ => ex_intro _ None eq_refl)
              (fun _ _ _ => eq_refl) eq_refl eq_refl (fun _ => eq_refl))
    as (t1 & _ & w' & Hrun & Ht).
  exists t1, w'. split; [exact Hrun|exact Ht].
Defined.

Lemma customer_server_is_gated_witness :
  exists d,
    trace (snd (connect_servers both_up_env false (Some customer_url) fresh)) = d /\
    map endpoint (fetched d) = [storefront_url] /\
    filter is_token_lookup d = [] /\
    customerTools (client (snd (connect_servers both_up_env false (Some customer_url)
                                                fresh))) = [].
Proof.
  exact (customer_server_is_gated both_up_env false (Some customer_url) fresh
           (or_introl eq_refl)).
Defined.
